(** * The LSTM forecasting pipeline of the emigration dashboard

    A shallow embedding of the forecasting code of [src/routes/ml.tsx]
    (one model at a time, configured by hand) and of its sibling route
    with automatic hyper-parameter tuning.  Both files share, word for
    word, the aggregation of the yearly records, the min-max scaling,
    the window builder and the evaluation of a trained network; they
    differ in how models are chosen and in how the forecast table is
    assembled and exported.

    JavaScript numbers are IEEE 754 binary64 values: they are modelled
    by Rocq's primitive floats, whose operations are the same binary64
    operations (round to nearest, ties to even).  Array lengths, loop
    counters, the lookback and the forecast horizon are natural numbers;
    the [Year] of a record is a number like any other. *)

From Stdlib Require Import String Ascii DecimalString.
From Stdlib Require Import List ZArith Lia Bool.
From Stdlib Require Import Floats.
From Stdlib Require Import Permutation Sorted.
Import ListNotations.

Set Warnings "-inexact-float".
Set Implicit Arguments.

Local Open Scope Z_scope.
Local Open Scope nat_scope.
Local Open Scope list_scope.

(** ** ECMAScript built-ins used by the pipeline *)

Module JS.

Definition number := float.

(** How a call ends: with a value, or with a thrown [Error] carrying its
    message. *)
Inductive completion (A : Type) : Type :=
| Normal (a : A)
| Throw (message : string).

Arguments Normal {A} a.
Arguments Throw {A} message.

Definition bind {A B : Type} (c : completion A) (k : A -> completion B) : completion B :=
  match c with
  | Normal a => k a
  | Throw m => Throw m
  end.

Definition is_NegZero (x : number) : bool :=
  match classify x with
  | NZero => true
  | _ => false
  end.

Definition is_PosZero (x : number) : bool :=
  match classify x with
  | PZero => true
  | _ => false
  end.

(** [Math.min(...values)]: starts from [+Infinity], answers [NaN] as soon
    as one argument is [NaN], and ranks [-0] below [+0]. *)
Fixpoint Math_min_from (lowest : number) (values : list number) : number :=
  match values with
  | [] => lowest
  | x :: rest =>
      if is_nan x then nan
      else if is_NegZero x && is_PosZero lowest then Math_min_from x rest
      else if (x <? lowest)%float then Math_min_from x rest
      else Math_min_from lowest rest
  end.

Definition Math_min (values : list number) : number :=
  Math_min_from infinity values.

(** [Math.max(...values)]: the mirror image, starting from [-Infinity]. *)
Fixpoint Math_max_from (highest : number) (values : list number) : number :=
  match values with
  | [] => highest
  | x :: rest =>
      if is_nan x then nan
      else if is_PosZero x && is_NegZero highest then Math_max_from x rest
      else if (highest <? x)%float then Math_max_from x rest
      else Math_max_from highest rest
  end.

Definition Math_max (values : list number) : number :=
  Math_max_from neg_infinity values.

Definition Math_abs (x : number) : number := abs x.

(** The integer [z] as a number; exact when [|z| < 2^53]. *)
Definition of_Z (z : Z) : number :=
  match z with
  | Z0 => zero
  | Zpos _ => of_uint63 (Uint63.of_Z z)
  | Zneg p => (- of_uint63 (Uint63.of_Z (Zpos p)))%float
  end.

Definition of_nat (n : nat) : number := of_Z (Z.of_nat n).

(** An integer result that keeps the sign of a vanishing argument. *)
Definition signed_integer (negative : bool) (r : Z) : number :=
  match r with
  | Z0 => if negative then neg_zero else zero
  | _ => of_Z r
  end.

(** [Math.floor]: a finite number is [(-1)^s * m * 2^e]; it is already an
    integer when [e >= 0], and otherwise its floor is an arithmetic shift
    of the signed mantissa. *)
Definition Math_floor (x : number) : number :=
  match Prim2SF x with
  | S754_finite s m (Zneg k) =>
      signed_integer s (Z.shiftr (if s then Zneg m else Zpos m) (Zpos k))
  | _ => x
  end.

(** [Math.round]: the nearest integer, ties towards [+Infinity], that is
    [floor (x + 1/2)] computed exactly. *)
Definition Math_round (x : number) : number :=
  match Prim2SF x with
  | S754_finite s m (Zneg k) =>
      signed_integer s
        (Z.shiftr (2 * (if s then Zneg m else Zpos m) + Z.shiftl 1 (Zpos k))
                  (Zpos k + 1))
  | _ => x
  end.

(** [ToIntegerOrInfinity]: truncation towards zero, [NaN] read as [0]; the
    two infinities are stood for by integers beyond every array length. *)
Definition ToIntegerOrInfinity (x : number) : Z :=
  match Prim2SF x with
  | S754_zero _ | S754_nan => 0%Z
  | S754_infinity s => if s then (- 2 ^ 1024)%Z else (2 ^ 1024)%Z
  | S754_finite s m e =>
      let magnitude :=
        match e with
        | Zneg k => Z.shiftr (Zpos m) (Zpos k)
        | _ => Z.shiftl (Zpos m) e
        end in
      if s then (- magnitude)%Z else magnitude
  end.

(** [ToBoolean] on a number: only [+0], [-0] and [NaN] are falsy. *)
Definition truthy (x : number) : bool :=
  negb (is_nan x || is_zero x).

(** [Array.prototype.slice(start, end)] with its relative indices: a
    negative index counts from the end, and both are clamped to the
    array. *)
Definition relative_index (len k : Z) : Z :=
  if (k <? 0)%Z then Z.max (len + k) 0 else Z.min k len.

Definition Array_slice {A : Type} (a : list A) (start finish : Z) : list A :=
  let len := Z.of_nat (length a) in
  let k := relative_index len start in
  let final := relative_index len finish in
  firstn (Z.to_nat (final - k)) (skipn (Z.to_nat k) a).

(** [slice(start)]: up to the end of the array. *)
Definition Array_slice_from {A : Type} (a : list A) (start : Z) : list A :=
  Array_slice a start (Z.of_nat (length a)).

(** [Array.prototype.sort(comparefn)]: the order is stable, and [a] stays
    before [b] unless [comparefn a b] is positive.  Written as a stable
    insertion sort: each element, taken in array order, goes after every
    element already placed that does not have to follow it. *)
Fixpoint sort_insert {A : Type} (comparefn : A -> A -> number) (x : A) (sorted : list A) : list A :=
  match sorted with
  | [] => [x]
  | y :: rest =>
      if (0 <? comparefn y x)%float then x :: y :: rest
      else y :: sort_insert comparefn x rest
  end.

Definition Array_sort {A : Type} (comparefn : A -> A -> number) (a : list A) : list A :=
  fold_left (fun sorted x => sort_insert comparefn x sorted) a [].

(** [Math.fround]: the nearest binary32 value, which is what a tensor of
    the default [float32] type holds and gives back. *)
Definition Math_fround (x : number) : number :=
  match Prim2SF x with
  | S754_finite s m e => SF2Prim (binary_round 24 128 s m e)
  | _ => x
  end.

(** [parseFloat(x.toFixed(2))].  [toFixed(2)] picks the integer [n] for
    which [n / 100] is nearest to [|x|], the larger one on a tie, and
    [parseFloat] reads the printed decimal back as the nearest number.
    A number with a non-negative exponent is an integer and is printed
    and read back unchanged; both zeros are printed [0.00]. *)
Definition hundredths (m : positive) (k : positive) : Z :=
  Z.shiftr (200 * Zpos m + Z.shiftl 1 (Zpos k)) (Zpos k + 1).

Definition nearest_quotient (negative : bool) (n d : positive) : number :=
  let '(q, e, l) := SFdiv_core_binary prec emax (Zpos n) 0 (Zpos d) 0 in
  SF2Prim (binary_round_aux prec emax negative q e l).

Definition toFixed2 (x : number) : number :=
  match Prim2SF x with
  | S754_finite s m (Zneg k) =>
      match hundredths m k with
      | Zpos n => nearest_quotient s n 100
      | _ => if s then neg_zero else zero
      end
  | S754_zero _ => zero
  | _ => x
  end.

(** [a[i]] read as a number: a missing element is [undefined], which
    arithmetic turns into [NaN]. *)
Definition at_index (a : list number) (i : Z) : number :=
  if (i <? 0)%Z then nan else nth (Z.to_nat i) a nan.

(** [a.reduce((acc, x, i) => f(acc, x, i), init)] *)
Definition Array_reduce {A B : Type} (f : B -> A -> nat -> B) (a : list A) (init : B) : B :=
  fst (fold_left (fun state x => (f (fst state) x (snd state), S (snd state))) a (init, 0)).

(** [a.map((x, i) => f(x, i))] *)
Definition Array_map {A B : Type} (f : A -> nat -> B) (a : list A) : list B :=
  map (fun xi => f (fst xi) (snd xi)) (combine a (seq 0 (length a))).

(** [a || b] on optional numbers, [None] standing for [undefined]. *)
Definition or_else (a b : option number) : option number :=
  match a with
  | Some x => if truthy x then a else b
  | None => b
  end.

(** [a || 0] *)
Definition or_zero (a : option number) : number :=
  match or_else a (Some zero) with
  | Some x => x
  | None => zero
  end.

Definition newline : string := String (ascii_of_nat 10) EmptyString.

End JS.

Import JS.

(** ** Code shared by the two routes *)

Module Pipeline.

(** A value read from the document store.  The fields of a nested map are
    numbers, as the source's cast [(value as { emigrants: number })]
    takes them to be. *)
Inductive value : Type :=
| VUndefined
| VNull
| VBoolean (b : bool)
| VNumber (n : number)
| VString (s : string)
| VObject (fields : list (string * number)).

(** One yearly document: its [Year] and, in the order [Object.entries]
    lists them, its other keys. *)
Record EmigrationData : Type := {
  Year : number;
  categories : list (string * value)
}.

Definition Object_entries (yearData : EmigrationData) : list (string * value) :=
  ("Year"%string, VNumber (Year yearData)) :: categories yearData.

(** [typeof value === "object" && value !== null && "emigrants" in value
    ? value.emigrants : 0] *)
Definition emigrants_of (v : value) : number :=
  match v with
  | VObject fields =>
      match find (fun field => String.eqb (fst field) "emigrants") fields with
      | Some (_, emigrants) => emigrants
      | None => 0%float
      end
  | _ => 0%float
  end.

Definition extractTimeSeriesData (emigrationData : list EmigrationData) : list number :=
  map (fun yearData =>
         fold_left (fun totalEmigrants entry =>
                      if String.eqb (fst entry) "Year" then totalEmigrants
                      else (totalEmigrants + emigrants_of (snd entry))%float)
                   (Object_entries yearData) 0%float)
      emigrationData.

Definition normalizeData (data : list number) : list number * number * number :=
  let min := Math_min data in
  let max := Math_max data in
  let normalized := map (fun val => ((val - min) / (max - min))%float) data in
  (normalized, min, max).

Definition denormalizeData (normalized : list number) (min max : number) : list number :=
  map (fun val => (val * (max - min) + min)%float) normalized.

(** The loop [for (let i = lookback; i < data.length; i++)] visits
    [lookback, ..., data.length - 1]; inside it [data[i]] is always
    defined. *)
Definition createSequences {A : Type} (data : list A) (lookback : nat) : completion (list (list A) * list A) :=
  Normal
    (fold_left
       (fun Xy i =>
          (fst Xy ++ [Array_slice data (Z.of_nat i - Z.of_nat lookback) (Z.of_nat i)],
           snd Xy ++ match nth_error data i with
                     | Some v => [v]
                     | None => []
                     end))
       (seq lookback (length data - lookback)) ([], [])).

End Pipeline.

(** ** Training one model *)

Module Trainer.
Import Pipeline.

(** A trained network is used as a function from a window to the next
    (scaled) value. *)
Definition network := list number -> number.

(** The model record of both routes, without the store identifier, the
    dataset label and the timestamp. *)
Record LSTMModel : Type := {
  modelName : string;
  lookback : nat;
  lstmNeurons : nat;
  dropout : number;
  mae : option number;
  accuracy : option number;
  trained : bool;
  trainedModel : option network;
  testResults : option (list number * list number);
  normalizationParams : option (number * number)
}.

(** The lines of the trainer that compute [mae]. *)
Definition mean_absolute_error (denormPred denormActual : list number) : number :=
  (Array_reduce (fun sum pred i => sum + Math_abs (pred - at_index denormActual (Z.of_nat i))) denormPred 0
   / of_nat (length denormPred))%float.

(** The function mapped over [denormPred] to get [percentageErrors]. *)
Definition accuracy_term (pred actual : number) : number :=
  let error := (Math_abs (pred - actual) / actual)%float in
  Math_max [0; 1 - error]%float.

(** The lines of the trainer that compute [percentageErrors] and
    [accuracy]. *)
Definition percentageErrors (denormPred denormActual : list number) : list number :=
  Array_map (fun pred i => accuracy_term pred (at_index denormActual (Z.of_nat i))) denormPred.

Definition accuracy_percent (denormPred denormActual : list number) : number :=
  (Array_reduce (fun sum acc _ => sum + acc) (percentageErrors denormPred denormActual) 0
   / of_nat (length (percentageErrors denormPred denormActual)) * 100)%float.

Section Training.

(** [Number::toString], whose digit generation is left abstract. *)
Variable Number_toString : number -> string.

(** The machine-learning library: turning the windows into tensors,
    building the network for [(lookback, units, dropout)] and fitting it
    on the training windows, with the test windows as validation data.
    It may fail, for instance on an empty set of windows. *)
Variable tf_fit :
  nat -> nat -> number ->
  list (list number) * list number -> list (list number) * list number ->
  completion network.

(** The page state the trainer closes over. *)
Variable emigrationData : list EmigrationData.

Definition not_enough_data (needed : nat) : string :=
  ("Not enough data. Need at least " ++ Number_toString (of_nat needed) ++ " data points.")%string.

(** The 80/20 split of the scaled series and the windows of each part. *)
Definition split_sequences (normalized : list number) (lookback : nat) :
  completion ((list (list number) * list number) * (list (list number) * list number)) :=
  let splitIndex := Math_floor (of_nat (length normalized) * 0.8)%float in
  let trainData := Array_slice normalized 0 (ToIntegerOrInfinity splitIndex) in
  let testData := Array_slice_from normalized (ToIntegerOrInfinity splitIndex) in
  bind (createSequences trainData lookback) (fun trainSeq =>
  bind (createSequences testData lookback) (fun testSeq =>
  Normal (trainSeq, testSeq))).

(** The trainer up to the call of the library: the windows the network
    is fitted and tested on, and the scale of the series. *)
Definition training_windows (lookback : nat) :
  completion ((list (list number) * list number) * (list (list number) * list number) * (number * number)) :=
  let timeSeriesData := extractTimeSeriesData emigrationData in
  if length timeSeriesData <? lookback + 10 then Throw (not_enough_data (lookback + 10))
  else
    let '(normalized, min, max) := normalizeData timeSeriesData in
    bind (split_sequences normalized lookback) (fun sequences =>
    Normal (fst sequences, snd sequences, (min, max))).

(** [trainSingleModel].  The predictions on the test windows are the
    network applied to each window; the targets are read back from a
    [float32] tensor. *)
Definition trainSingleModel (lookback neurons : nat) (dropout : number) (modelName : string) : completion LSTMModel :=
  bind (training_windows lookback) (fun prepared =>
  let '(trainSeq, testSeq, (min, max)) := prepared in
  bind (tf_fit lookback neurons dropout trainSeq testSeq) (fun lstmModel =>
  let predArray := map lstmModel (fst testSeq) in
  let testYArray := map Math_fround (snd testSeq) in
  let denormPred := denormalizeData predArray min max in
  let denormActual := denormalizeData testYArray min max in
  let mae := mean_absolute_error denormPred denormActual in
  let accuracy := accuracy_percent denormPred denormActual in
  Normal {| modelName := modelName;
            lookback := lookback;
            lstmNeurons := neurons;
            dropout := dropout;
            mae := Some (toFixed2 mae);
            accuracy := Some (toFixed2 accuracy);
            trained := true;
            trainedModel := Some lstmModel;
            testResults := Some (denormActual, denormPred);
            normalizationParams := Some (min, max) |})).

End Training.

End Trainer.

(** ** Forecasting, shared by the two routes *)

Module Forecast.
Import Pipeline Trainer.

(** A row of the forecast tables; an absent property is [None]. *)
Record row : Type := {
  year : number;
  actual : option number;
  predicted : option number;
  type : string
}.

Record ForecastResults : Type := {
  forecasts : list row;
  historical : list row;
  combined : list row
}.

(** What a handler leaves behind: new state, an alert before anything
    was done, an error caught by its [try] block, or an error thrown
    before that block is entered, which rejects the promise of the
    handler and is reported nowhere. *)
Inductive handled (A : Type) : Type :=
| Shown (a : A)
| Alerted (message : string)
| Failed (message : string)
| Uncaught (message : string).

Arguments Shown {A} a.
Arguments Alerted {A} message.
Arguments Failed {A} message.
Arguments Uncaught {A} message.

(** The loop [for (let i = 0; i < forecastYears; i++)], with what is left
    of [forecastYears] as its counter.  Each turn builds the tensor
    [tf.tensor3d([currentSequence.map(v => [v])])], which the library
    refuses when the window is empty: the nested array [[[]]] has two
    dimensions, not three. *)
Fixpoint forecast_loop (trainedModel : network) (remaining : nat)
  (currentSequence predictions : list number) : completion (list number) :=
  match remaining with
  | 0 => Normal predictions
  | S remaining' =>
      match currentSequence with
      | [] => Throw "Error: tensor3d() requires values to be number[][][] or flat/TypedArray"
      | _ :: _ =>
          let predValue := trainedModel currentSequence in
          forecast_loop trainedModel remaining'
            (Array_slice_from currentSequence 1 ++ [predValue])
            (predictions ++ [predValue])
      end
  end.

(** The body of [generateForecast] down to [recentHistorical], the same
    in both routes.  Without a record the first turn of the loop throws;
    when the loop has no turn, reading [.Year] of the last record
    does. *)
Definition forecast_tables (trainedModel : network) (lookback : nat)
  (emigrationData : list EmigrationData) (forecastYears : nat) : completion (list row * list row) :=
  let timeSeriesData := extractTimeSeriesData emigrationData in
  let '(normalized, min, max) := normalizeData timeSeriesData in
  let currentSequence := Array_slice_from normalized (- Z.of_nat lookback) in
  bind (forecast_loop trainedModel forecastYears currentSequence []) (fun predictions =>
  let denormalizedPredictions := denormalizeData predictions min max in
  match nth_error emigrationData (length emigrationData - 1) with
  | None => Throw "TypeError: Cannot read properties of undefined (reading 'Year')"
  | Some lastRecord =>
      let lastYear := Year lastRecord in
      let forecastData :=
        Array_map (fun value index =>
                     {| year := (lastYear + of_nat index + 1)%float;
                        actual := None;
                        predicted := Some (Math_round value);
                        type := "forecast" |})
                  denormalizedPredictions in
      let recentHistorical :=
        Array_map (fun yearData index =>
                     {| year := Year yearData;
                        actual := Some (Math_round
                                          (at_index timeSeriesData
                                             (Z.of_nat (length timeSeriesData) - 10 + Z.of_nat index)));
                        predicted := None;
                        type := "historical" |})
                  (Array_slice_from emigrationData (-10)) in
      Normal (forecastData, recentHistorical)
  end).

Section Csv.

Variable Number_toString : number -> string.

(** How [join] prints an element: nothing for [undefined]. *)
Definition cell_text (cell : option number) : string :=
  match cell with
  | Some n => Number_toString n
  | None => EmptyString
  end.

(** [row.actual || row.predicted] *)
Definition value_cell (r : row) : option number :=
  or_else (actual r) (predicted r).

(** [[row.year, row.actual || row.predicted, row.type].join(',')] *)
Definition csv_line (r : row) : string :=
  (Number_toString (year r) ++ "," ++ cell_text (value_cell r) ++ "," ++ type r)%string.

Definition csv_header : string := "Year,Emigrants,Type".

End Csv.

End Forecast.

(** ** The route with one model at a time, trained on request *)

Module Manual.
Import Pipeline Trainer Forecast.

Section Route.

Variable Number_toString : number -> string.
Variable tf_fit :
  nat -> nat -> number ->
  list (list number) * list number -> list (list number) * list number ->
  completion network.

(** [updated[index] = model] on a copy of the array. *)
Fixpoint replace_at {A : Type} (a : list A) (index : nat) (x : A) : list A :=
  match a, index with
  | [], _ => []
  | _ :: rest, 0 => x :: rest
  | y :: rest, S index' => y :: replace_at rest index' x
  end.

(** [trainModel(index)]: the statements of its [try] block are those of
    [trainSingleModel], run on the configuration [models[index]]; the
    result replaces that entry.  [models[index].id] is read before the
    block. *)
Definition trainModel (dataLoaded : bool) (emigrationData : list EmigrationData)
  (models : list LSTMModel) (index : nat) : handled (list LSTMModel) :=
  if negb dataLoaded || (length emigrationData =? 0)
  then Alerted "Emigration data not loaded yet. Please wait..."
  else
    match nth_error models index with
    | None => Uncaught "TypeError: Cannot read properties of undefined (reading 'id')"
    | Some modelConfig =>
        match trainSingleModel Number_toString tf_fit emigrationData
                (lookback modelConfig) (lstmNeurons modelConfig) (dropout modelConfig)
                (modelName modelConfig) with
        | Normal model => Shown (replace_at models index model)
        | Throw message => Failed message
        end
    end.

Definition generateForecast (models : list LSTMModel) (selectedModelIndex : option nat)
  (emigrationData : list EmigrationData) (forecastYears : nat) : handled ForecastResults :=
  match selectedModelIndex with
  | None => Alerted "Please select a trained model first!"
  | Some index =>
      match nth_error models index with
      | None => Uncaught "TypeError: Cannot read properties of undefined (reading 'trained')"
      | Some model =>
          match trained model, trainedModel model with
          | true, Some network =>
              match normalizationParams model with
              | None => Alerted "Model missing normalization parameters. Please retrain the model."
              | Some _ =>
                  match forecast_tables network (lookback model) emigrationData forecastYears with
                  | Throw message => Failed message
                  | Normal (forecastData, recentHistorical) =>
                      Shown {| forecasts := forecastData;
                               historical := recentHistorical;
                               combined := recentHistorical ++ forecastData |}
                  end
              end
          | _, _ => Alerted "Please train the model first!"
          end
      end
  end.

Definition exportForecast (forecastResults : option ForecastResults) : option string :=
  match forecastResults with
  | None => None
  | Some results =>
      Some (String.concat newline
              (csv_header :: map (csv_line Number_toString) (combined results)))
  end.

End Route.

End Manual.

(** ** The route with automatic hyper-parameter tuning *)

Module AutoTune.
Import Pipeline Trainer Forecast.

Record search_space : Type := {
  lookbacks : list nat;
  neuronCounts : list nat;
  dropouts : list number
}.

(** The hyper-parameter search space. *)
Definition HYPERPARAMETERS : search_space := {|
  lookbacks := [3];
  neuronCounts := [32; 50; 64; 100];
  dropouts := [0.1%float]
|}.

Record combination : Type := {
  c_lookback : nat;
  c_neurons : nat;
  c_dropout : number
}.

(** The three nested [forEach] loops that fill [combinations]. *)
Definition combinations_of (space : search_space) : list combination :=
  flat_map (fun lb =>
    flat_map (fun neurons =>
      map (fun dropout => {| c_lookback := lb; c_neurons := neurons; c_dropout := dropout |})
          (dropouts space))
      (neuronCounts space))
    (lookbacks space).

Record TuningProgress : Type := {
  current : nat;
  total : nat;
  currentConfig : string;
  bestSoFar : option (number * string)
}.

(** The comparison function given to [sort]. *)
Definition by_accuracy (a b : LSTMModel) : number :=
  (or_zero (accuracy b) - or_zero (accuracy a))%float.

(** The variables of the tuning loop, and the progress reports made so
    far. *)
Record tuning : Type := {
  allModels : list LSTMModel;
  bestAccuracy : number;
  bestConfig : string;
  reports : list TuningProgress
}.

(** The loop starts with no model, [bestAccuracy = 0] and
    [bestConfig = ""]. *)
Definition tuning_start : tuning :=
  {| allModels := []; bestAccuracy := 0%float; bestConfig := EmptyString; reports := [] |}.

(** What the page shows once tuning is over. *)
Record tuned : Type := {
  models : list LSTMModel;
  bestModel : option LSTMModel;
  progress : list TuningProgress
}.

Section Route.

Variable Number_toString : number -> string.
Variable tf_fit :
  nat -> nat -> number ->
  list (list number) * list number -> list (list number) * list number ->
  completion network.

Definition configName_of (c : combination) : string :=
  ("L" ++ Number_toString (of_nat (c_lookback c))
   ++ "_N" ++ Number_toString (of_nat (c_neurons c))
   ++ "_D" ++ Number_toString (c_dropout c))%string.

Definition currentConfig_of (c : combination) : string :=
  ("Lookback: " ++ Number_toString (of_nat (c_lookback c))
   ++ ", Neurons: " ++ Number_toString (of_nat (c_neurons c))
   ++ ", Dropout: " ++ Number_toString (c_dropout c))%string.

(** One turn of the loop over [combinations]: report progress, train,
    and keep the model unless training threw. *)
Definition tuning_step (emigrationData : list EmigrationData) (totalCombinations : nat)
  (state : tuning) (c : combination) (i : nat) : tuning :=
  let configName := configName_of c in
  let report :=
    {| current := i + 1;
       total := totalCombinations;
       currentConfig := currentConfig_of c;
       bestSoFar := if (0 <? bestAccuracy state)%float
                    then Some (bestAccuracy state, bestConfig state)
                    else None |} in
  match trainSingleModel Number_toString tf_fit emigrationData
          (c_lookback c) (c_neurons c) (c_dropout c) configName with
  | Normal model =>
      if (bestAccuracy state <? or_zero (accuracy model))%float
      then {| allModels := allModels state ++ [model];
              bestAccuracy := or_zero (accuracy model);
              bestConfig := configName;
              reports := reports state ++ [report] |}
      else {| allModels := allModels state ++ [model];
              bestAccuracy := bestAccuracy state;
              bestConfig := bestConfig state;
              reports := reports state ++ [report] |}
  | Throw _ =>
      {| allModels := allModels state;
         bestAccuracy := bestAccuracy state;
         bestConfig := bestConfig state;
         reports := reports state ++ [report] |}
  end.

Definition tuning_loop (emigrationData : list EmigrationData) (combinations : list combination) : tuning :=
  Array_reduce (tuning_step emigrationData (length combinations)) combinations tuning_start.

(** [autoTuneModels]: [None] when it returns at once because the data
    is not there yet.  [bestModel] is replaced only when at least one
    model was trained. *)
Definition autoTuneModels (space : search_space) (dataLoaded : bool)
  (emigrationData : list EmigrationData) (bestModel : option LSTMModel) : option tuned :=
  if negb dataLoaded || (length emigrationData =? 0) then None
  else
    let combinations := combinations_of space in
    let final := tuning_loop emigrationData combinations in
    let sorted := Array_sort by_accuracy (allModels final) in
    Some {| models := sorted;
            bestModel := match sorted with
                         | [] => bestModel
                         | best :: _ => Some best
                         end;
            progress := reports final |}.

Definition generateForecast (bestModel : option LSTMModel)
  (emigrationData : list EmigrationData) (forecastYears : nat) : handled ForecastResults :=
  match bestModel with
  | None => Alerted "Please wait for auto-training to complete first!"
  | Some best =>
      match trainedModel best with
      | None => Alerted "Please wait for auto-training to complete first!"
      | Some network =>
          match forecast_tables network (lookback best) emigrationData forecastYears with
          | Throw message => Failed message
          | Normal (forecastData, recentHistorical) =>
              match nth_error recentHistorical (length recentHistorical - 1) with
              | None => Failed "TypeError: Cannot read properties of undefined (reading 'year')"
              | Some lastHistorical =>
                  Shown {| forecasts := forecastData;
                           historical := recentHistorical;
                           combined :=
                             Array_slice recentHistorical 0 (-1)
                             ++ [ {| year := year lastHistorical;
                                     actual := actual lastHistorical;
                                     predicted := actual lastHistorical;
                                     type := "connection" |} ]
                             ++ forecastData |}
              end
          end
      end
  end.

Definition exportForecast (forecastResults : option ForecastResults) : option string :=
  match forecastResults with
  | None => None
  | Some results =>
      Some (String.concat newline
              (csv_header
               :: map (csv_line Number_toString)
                    (filter (fun r => negb (String.eqb (type r) "connection")) (combined results))))
  end.

End Route.

End AutoTune.

(** ** The list of models of the manual route

    The handlers of [src/routes/ml.tsx] that add, edit, delete and name
    the models of the table. *)

Module ModelList.
Import Pipeline Trainer Forecast.

(** What the page holds besides the data. *)
Record page : Type := {
  models : list LSTMModel;
  selectedModelIndex : option nat;
  forecastResults : option ForecastResults
}.

(** [a.filter((x, i) => keep(x, i))] *)
Definition Array_filter {A : Type} (keep : A -> nat -> bool) (a : list A) : list A :=
  map fst (filter (fun xi => keep (fst xi) (snd xi)) (combine a (seq 0 (length a)))).

(** The cell of the table that was edited, with the value typed in it;
    a lookback and a number of units are taken to be natural numbers. *)
Inductive edit : Type :=
| EditModelName (value : string)
| EditLookback (value : nat)
| EditLstmNeurons (value : nat)
| EditDropout (value : number).

(** [{ ...model, [field]: value }] *)
Definition with_field (model : LSTMModel) (e : edit) : LSTMModel :=
  {| modelName := match e with EditModelName value => value | _ => modelName model end;
     lookback := match e with EditLookback value => value | _ => lookback model end;
     lstmNeurons := match e with EditLstmNeurons value => value | _ => lstmNeurons model end;
     dropout := match e with EditDropout value => value | _ => dropout model end;
     mae := mae model;
     accuracy := accuracy model;
     trained := trained model;
     trainedModel := trainedModel model;
     testResults := testResults model;
     normalizationParams := normalizationParams model |}.

(** [updateModel(index, field, value)], for the index of a row of the
    table.  (Past the end of the array the assignment would add an
    object with the one property [field], which is no model: this is
    [None].) *)
Definition updateModel (models : list LSTMModel) (index : nat) (e : edit) :
  option (list LSTMModel) :=
  match nth_error models index with
  | Some model => Some (Manual.replace_at models index (with_field model e))
  | None => None
  end.

(** How [deleteModel] ends: the user declined, the model was removed,
    or an error was caught. *)
Inductive deletion : Type :=
| Cancelled
| Deleted (state : page)
| NotDeleted (message : string).

Section Handlers.

Variable Number_toString : number -> string.

(** [String.prototype.toLowerCase] *)
Variable String_toLowerCase : string -> string.

(** [addModel] *)
Definition addModel (models : list LSTMModel) : list LSTMModel :=
  models
  ++ [ {| modelName := "Model #" ++ Number_toString (of_nat (length models + 1));
          lookback := 3;
          lstmNeurons := 50;
          dropout := 0.2%float;
          mae := None;
          accuracy := None;
          trained := false;
          trainedModel := None;
          testResults := None;
          normalizationParams := None |} ].

(** [deleteModel(index)].  [release] stands for the two calls that can
    fail: deleting the stored document, when the model has one, and
    disposing of the network, when the model has one. *)
Definition deleteModel (confirmed : bool) (release : LSTMModel -> completion unit)
  (state : page) (index : nat) : deletion :=
  if negb confirmed then Cancelled
  else
    match nth_error (models state) index with
    | None => NotDeleted "TypeError: Cannot read properties of undefined (reading 'id')"
    | Some modelConfig =>
        match release modelConfig with
        | Throw message => NotDeleted message
        | Normal _ =>
            let selected :=
              match selectedModelIndex state with
              | Some i => i =? index
              | None => false
              end in
            Deleted {| models := Array_filter (fun _ i => negb (i =? index)) (models state);
                       selectedModelIndex :=
                         if selected then None else selectedModelIndex state;
                       forecastResults :=
                         if selected then None else forecastResults state |}
        end
    end.

(** A character of the class [[a-z0-9]]. *)
Definition is_a_z_0_9 (c : ascii) : bool :=
  let n := nat_of_ascii c in
  ((97 <=? n) && (n <=? 122)) || ((48 <=? n) && (n <=? 57)).

Definition underscore : ascii := "_"%char.

(** [s.replace(/[^a-z0-9]+/g, '_')]: every maximal run of characters
    outside the class becomes one underscore.  [inside] tells whether
    the character before belongs to such a run. *)
Fixpoint replace_runs (inside : bool) (s : string) : string :=
  match s with
  | EmptyString => EmptyString
  | String c rest =>
      if is_a_z_0_9 c then String c (replace_runs false rest)
      else if inside then replace_runs true rest
      else String underscore (replace_runs true rest)
  end.

(** [s.replace(/^_+|_+$/g, '')] removes the underscores at the start of
    the string and those at its end.  At the start: *)
Fixpoint drop_leading (s : string) : string :=
  match s with
  | String c rest => if Ascii.eqb c underscore then drop_leading rest else s
  | EmptyString => EmptyString
  end.

(** and at the end: *)
Fixpoint drop_trailing (s : string) : string :=
  match s with
  | String c rest =>
      match drop_trailing rest with
      | EmptyString => if Ascii.eqb c underscore then EmptyString else String c EmptyString
      | kept => String c kept
      end
  | EmptyString => EmptyString
  end.

(** The document identifier [saveModel] derives from the name of a
    model: [cleanId]. *)
Definition cleanId (modelName : string) : string :=
  drop_trailing (drop_leading (replace_runs false (String_toLowerCase modelName))).

(** The test [if (!cleanId)] of [saveModel], which refuses the name. *)
Definition name_refused (modelName : string) : bool :=
  match cleanId modelName with
  | EmptyString => true
  | _ => false
  end.

End Handlers.

End ModelList.

(** ** The forecast period of the tuning route *)

Module TuningPage.

(** The handler of the "Forecast Period" field,
    [Math.min(10, Math.max(1, parseInt(value) || 1))], on what
    [parseInt] returns. *)
Definition onForecastYearsChange (parsed : number) : number :=
  Math_min [10%float; Math_max [1%float; if truthy parsed then parsed else 1%float]].

End TuningPage.

(** ** The other pages: cached queries, totals and rankings

    The page of the stacked bars ([ParallelSetsPage], in
    [src/routes/relationships.tsx]) keeps the documents it has queried
    in two module-level maps, totals them by category and ranks the
    destinations; the geographic page ([GeographicVisualization], in
    the file [src/firebase.ts]) names the first four. *)

Module Dashboard.
Import Pipeline.

(** A JavaScript [Map] with string keys: its entries in insertion
    order, each key once. *)
Definition JSMap (V : Type) : Type := list (string * V).

Fixpoint Map_get {V : Type} (m : JSMap V) (key : string) : option V :=
  match m with
  | [] => None
  | (k, v) :: rest => if String.eqb k key then Some v else Map_get rest key
  end.

Definition Map_has {V : Type} (m : JSMap V) (key : string) : bool :=
  match Map_get m key with
  | Some _ => true
  | None => false
  end.

(** [set] overwrites the value of a key that is present, in place, and
    appends a new key. *)
Fixpoint Map_set {V : Type} (m : JSMap V) (key : string) (value : V) : JSMap V :=
  match m with
  | [] => [(key, value)]
  | (k, v) :: rest =>
      if String.eqb k key then (k, value) :: rest else (k, v) :: Map_set rest key value
  end.

Section Cache.

(** The type of a document. *)
Variable document : Type.

(** The two module-level maps. *)
Record cache : Type := {
  dataCache : JSMap (list document);
  cacheTimestamp : JSMap Z
}.

Definition CACHE_DURATION : Z := 5 * 60 * 1000.

(** The first part of [fetchCachedData], before the query: the cached
    documents when both maps have the key and the entry is younger
    than [CACHE_DURATION]. *)
Definition cached (now : Z) (c : cache) (cacheKey : string) : option (list document) :=
  if Map_has (dataCache c) cacheKey && Map_has (cacheTimestamp c) cacheKey
  then
    match Map_get (cacheTimestamp c) cacheKey, Map_get (dataCache c) cacheKey with
    | Some stamp, Some data =>
        let cacheAge := (now - stamp)%Z in
        if (cacheAge <? CACHE_DURATION)%Z then Some data else None
    | _, _ => None
    end
  else None.

(** Its last part, after the query: both maps are set, the time being
    the one read before the query. *)
Definition store (now : Z) (c : cache) (cacheKey : string) (data : list document) : cache :=
  {| dataCache := Map_set (dataCache c) cacheKey data;
     cacheTimestamp := Map_set (cacheTimestamp c) cacheKey now |}.

(** [fetchCachedData(collectionPath)] run without interruption, at the
    time [now]; [getDocs] is the query, which may fail.  The result is
    paired with the maps as the call leaves them. *)
Definition fetchCachedData (getDocs : string -> completion (list document))
  (now : Z) (c : cache) (collectionPath : string) : completion (list document) * cache :=
  match cached now c collectionPath with
  | Some data => (Normal data, c)
  | None =>
      match getDocs collectionPath with
      | Normal data => (Normal data, store now c collectionPath data)
      | Throw message => (Throw message, c)
      end
  end.

End Cache.

(** [typeof value === "object" && value !== null && "emigrants" in value
    ? value.emigrants : null] *)
Definition emigrants_or_null (v : value) : option number :=
  match v with
  | VObject fields =>
      match find (fun field => String.eqb (fst field) "emigrants") fields with
      | Some (_, emigrants) => Some emigrants
      | None => None
      end
  | _ => None
  end.

(** [aggregateData(data, yearFilter)], [None] standing for ["all"]. *)
Definition aggregateData (data : list EmigrationData) (yearFilter : option number) : JSMap number :=
  fold_left
    (fun aggregated doc =>
       if match yearFilter with
          | None => true
          | Some selected => (Year doc =? selected)%float
          end
       then
         fold_left
           (fun aggregated entry =>
              if String.eqb (fst entry) "Year" then aggregated
              else
                match emigrants_or_null (snd entry) with
                | Some emigrants =>
                    if truthy emigrants && (0 <? emigrants)%float
                    then Map_set aggregated (fst entry)
                           (or_zero (Map_get aggregated (fst entry)) + emigrants)%float
                    else aggregated
                | None => aggregated
                end)
           (Object_entries doc) aggregated
       else aggregated)
    data [].

(** [Array.prototype.includes] on strings. *)
Definition includes (a : list string) (s : string) : bool :=
  existsb (String.eqb s) a.

(** The destinations of the stacked bars:
    [Array.from(destTotals.entries())
       .filter(([country]) => !excludedCountries.includes(country))
       .sort(([, a], [, b]) => b - a)
       .slice(0, countryLimit)] *)
Definition topDestinations (destTotals : JSMap number) (excludedCountries : list string)
  (countryLimit : Z) : list (string * number) :=
  Array_slice
    (Array_sort (fun a b => (snd b - snd a)%float)
       (filter (fun entry => negb (includes excludedCountries (fst entry))) destTotals))
    0 countryLimit.

(** An item of the comparison data. *)
Record destination : Type := {
  country : string;
  emigrants : number
}.

(** [topFour]: the first item of each country, in the order of their
    first occurrence, and of these the first four. *)
Definition topFour (topDestinations : list destination) : list destination :=
  let unique :=
    fold_left
      (fun unique item =>
         if negb (Map_has unique (country item)) then Map_set unique (country item) item
         else unique)
      topDestinations [] in
  Array_slice (map snd unique) 0 4.

End Dashboard.

(** ** Worked data: a short series, a library stub and a printer *)

Module Scenario.
Import Pipeline Trainer Forecast.

(** A printer standing for [Number::toString] in the worked examples.
    It agrees with it on the integers below [10^21], on [NaN] and on the
    infinities, and prints any other number by its exact decimal
    expansion. *)
Definition decimal (x : number) : string :=
  match Prim2SF x with
  | S754_nan => "NaN"
  | S754_infinity s => if s then "-Infinity" else "Infinity"
  | S754_zero _ => "0"
  | S754_finite s m (Zneg k) =>
      let common := Z.gcd (Zpos m) (2 ^ Zpos k) in
      let places := Z.log2 (2 ^ Zpos k / common) in
      let scaled := (Zpos m / common * 5 ^ places)%Z in
      let unit := (10 ^ places)%Z in
      let whole := (scaled / unit)%Z in
      let fraction := (scaled mod unit)%Z in
      if (fraction =? 0)%Z
      then NilZero.string_of_int (Z.to_int (if s then - whole else whole))
      else ((if s then "-" else "")
            ++ NilZero.string_of_int (Z.to_int whole) ++ "."
            ++ substring 1 (Z.to_nat places) (NilZero.string_of_int (Z.to_int (unit + fraction))))%string
  | S754_finite _ _ _ =>
      NilZero.string_of_int (Z.to_int (ToIntegerOrInfinity x))
  end.

(** A yearly document with a single destination. *)
Definition record_of (year : Z) (emigrants : number) : EmigrationData :=
  {| Year := of_Z year;
     categories := [("USA"%string, VObject [("emigrants"%string, emigrants)])] |}.

Definition records_from (firstYear : Z) (series : list number) : list EmigrationData :=
  Array_map (fun v i => record_of (firstYear + Z.of_nat i) v) series.

Definition series10 : list number :=
  [10; 12; 11; 15; 20; 18; 25; 30; 28; 35]%float.

(** Ten records, for the years 2011 to 2020. *)
Definition data10 : list EmigrationData := records_from 2011 series10.

(** The same years, with no emigrant on record in 2013. *)
Definition data10_gap : list EmigrationData :=
  records_from 2011 [10; 12; 0; 15; 20; 18; 25; 30; 28; 35]%float.

(** Twenty records, for the years 2001 to 2020. *)
Definition data20 : list EmigrationData := records_from 2001 (series10 ++ series10).

(** A network that answers the same scaled value whatever the window. *)
Definition constant_network (v : number) : network := fun _ => v.

(** A library whose fitted network depends on the number of units only,
    and which fails for 64 units. *)
Definition stub_fit (lookback units : nat) (dropout : number)
  (trainSeq testSeq : list (list number) * list number) : completion network :=
  match units with
  | 32 => Normal (constant_network 8%float)
  | 50 => Normal (constant_network 4%float)
  | 64 => Throw "loss is NaN"
  | _ => Normal (constant_network 1%float)
  end.

(** A library that refuses an empty set of test windows, as
    [tf.tensor3d] does, and otherwise answers as the one above. *)
Definition strict_fit (lookback units : nat) (dropout : number)
  (trainSeq testSeq : list (list number) * list number) : completion network :=
  match fst testSeq with
  | [] => Throw "Error: tensor3d() requires shape to be provided when `values` are a flat array"
  | _ :: _ => stub_fit lookback units dropout trainSeq testSeq
  end.

Definition trained_model (lookback : nat) (net : network) (params : number * number) : LSTMModel :=
  {| modelName := "Model #1";
     lookback := lookback;
     lstmNeurons := 50;
     dropout := 0.2%float;
     mae := Some 1%float;
     accuracy := Some 90%float;
     trained := true;
     trainedModel := Some net;
     testResults := Some ([], []);
     normalizationParams := Some params |}.

(** A year with a negative count, a positive count and a bare number. *)
Definition mixed_year : EmigrationData :=
  {| Year := 2000%float;
     categories := [("USA"%string, VObject [("emigrants"%string, (-5)%float)]);
                    ("CANADA"%string, VObject [("emigrants"%string, 3%float)]);
                    ("JAPAN"%string, VNumber 500%float)] |}.


(** Thirteen records, for the years 2008 to 2020: the fewest that a
    lookback of 3 is trained on. *)
Definition data13 : list EmigrationData :=
  records_from 2008 (series10 ++ [40; 38; 45])%float.

(** [toLowerCase] on the letters A to Z; the other characters of the
    worked examples have no lower case. *)
Fixpoint lowercase (s : string) : string :=
  match s with
  | EmptyString => EmptyString
  | String c rest =>
      let n := nat_of_ascii c in
      String (if (65 <=? n) && (n <=? 90) then ascii_of_nat (n + 32) else c) (lowercase rest)
  end.

(** A store that answers every query with the same documents, and one
    that cannot be reached. *)
Definition answering {A : Type} (documents : list A) : string -> completion (list A) :=
  fun _ => Normal documents.

Definition offline {A : Type} : string -> completion (list A) :=
  fun _ => Throw "offline".

End Scenario.

(** ** Notions used to state the properties *)

Module Reference.
Import Pipeline Trainer Forecast.

(** [|x - y| <= tolerance], in binary64. *)
Definition within (tolerance x y : number) : bool :=
  (Math_abs (x - y) <=? tolerance)%float.

Definition all_within (tolerance : number) (xs ys : list number) : bool :=
  Nat.eqb (length xs) (length ys)
  && forallb (fun xy => within tolerance (fst xy) (snd xy)) (combine xs ys).

(** The scaling round trip of a series. *)
Definition round_trip (data : list number) : list number :=
  let '(normalized, min, max) := normalizeData data in
  denormalizeData normalized min max.




(** The total of a year as the code adds it up: every key other than
    [Year] contributes, in order, what [emigrants_of] reads in it. *)
Definition year_total (yearData : EmigrationData) : number :=
  fold_left PrimFloat.add
    (map (fun entry => emigrants_of (snd entry))
         (filter (fun entry => negb (String.eqb (fst entry) "Year")) (categories yearData)))
    0%float.

(** The window the forecast of step [i] is predicted from: the seed for
    the first step, and afterwards the previous window without its
    oldest value and with the previous prediction appended. *)
Fixpoint rollout_window (trainedModel : network) (seed : list number) (i : nat) : list number :=
  match i with
  | 0 => seed
  | S j =>
      let previous := rollout_window trainedModel seed j in
      tl previous ++ [trainedModel previous]
  end.

(** The scaled series at forecast time, with its least and greatest
    values. *)
Definition scaled_series (emigrationData : list EmigrationData) : list number :=
  fst (fst (normalizeData (extractTimeSeriesData emigrationData))).

Definition series_min (emigrationData : list EmigrationData) : number :=
  snd (fst (normalizeData (extractTimeSeriesData emigrationData))).

Definition series_max (emigrationData : list EmigrationData) : number :=
  snd (normalizeData (extractTimeSeriesData emigrationData)).

Definition forecast_seed (emigrationData : list EmigrationData) (lookback : nat) : list number :=
  Array_slice_from (scaled_series emigrationData) (- Z.of_nat lookback).

(** The forecast of step [i], counted from 0, after the year [lastYear]. *)
Definition forecast_point (trainedModel : network) (lookback : nat)
  (emigrationData : list EmigrationData) (lastYear : number) (i : nat) : row :=
  {| year := (lastYear + of_nat i + 1)%float;
     actual := None;
     predicted :=
       Some (Math_round
               (trainedModel (rollout_window trainedModel (forecast_seed emigrationData lookback) i)
                * (series_max emigrationData - series_min emigrationData)
                + series_min emigrationData)%float);
     type := "forecast" |}.

(** The same model with other stored scaling parameters. *)
Definition with_normalizationParams (model : LSTMModel) (params : option (number * number)) : LSTMModel :=
  {| modelName := modelName model;
     lookback := lookback model;
     lstmNeurons := lstmNeurons model;
     dropout := dropout model;
     mae := mae model;
     accuracy := accuracy model;
     trained := trained model;
     trainedModel := trainedModel model;
     testResults := testResults model;
     normalizationParams := params |}.

(** An integer image of the numbers that keeps their order: a finite
    number counted in units of [2^-1074], the smallest positive number,
    with the infinities beyond every finite one.  ([NaN], which is
    compared with nothing, is sent to [0].) *)
Definition top : Z := 2 ^ 2098.

Definition rank (x : spec_float) : Z :=
  match x with
  | S754_zero _ | S754_nan => 0%Z
  | S754_infinity s => cond_Zopp s top
  | S754_finite s m e => cond_Zopp s (Zpos m * 2 ^ (e + 1074))
  end.

Definition number_rank (x : number) : Z := rank (Prim2SF x).

(** The models a search keeps: those of the configurations, taken in
    order, whose training does not throw. *)
Definition successful_models (Number_toString : number -> string)
  (tf_fit : nat -> nat -> number ->
            list (list number) * list number -> list (list number) * list number ->
            completion network)
  (emigrationData : list EmigrationData) (combinations : list AutoTune.combination) : list LSTMModel :=
  flat_map (fun c =>
              match trainSingleModel Number_toString tf_fit emigrationData
                      (AutoTune.c_lookback c) (AutoTune.c_neurons c) (AutoTune.c_dropout c)
                      (AutoTune.configName_of Number_toString c) with
              | Normal model => [model]
              | Throw _ => []
              end)
           combinations.

(** A list in descending order of an integer key. *)
Definition descending {A : Type} (R : A -> Z) : list A -> Prop :=
  StronglySorted (fun a b => (R b <= R a)%Z).

(** A number that is not below zero for its sign: [NaN], or a number
    whose sign bit is clear. *)
Definition sign_clear (x : spec_float) : Prop :=
  match x with
  | S754_nan => True
  | S754_zero s | S754_infinity s | S754_finite s _ _ => s = false
  end.

Definition not_negative (x : number) : Prop := sign_clear (Prim2SF x).

(** A string in which no underscore follows another; with
    [after_underscore] set, it does not start with one either. *)
Fixpoint spaced (after_underscore : bool) (s : string) : bool :=
  match s with
  | EmptyString => true
  | String c rest =>
      if Ascii.eqb c ModelList.underscore
      then negb after_underscore && spaced true rest
      else spaced false rest
  end.

(** A number that is finite and is not a zero. *)
Definition finite_nonzero (x : number) : bool :=
  match Prim2SF x with
  | S754_finite _ _ _ => true
  | _ => false
  end.

(** The counts that [aggregateData] adds under the key [key]: those of
    the documents of the selected year, in the order of the documents
    and of their entries, that are numbers above zero. *)
Definition counts_under (key : string) (data : list EmigrationData) (yearFilter : option number) :
  list number :=
  flat_map
    (fun doc =>
       if match yearFilter with
          | None => true
          | Some selected => (Year doc =? selected)%float
          end
       then
         flat_map
           (fun entry =>
              if String.eqb (fst entry) "Year" then []
              else if String.eqb (fst entry) key
              then match Dashboard.emigrants_or_null (snd entry) with
                   | Some emigrants =>
                       if truthy emigrants && (0 <? emigrants)%float then [emigrants] else []
                   | None => []
                   end
              else [])
           (Object_entries doc)
       else [])
    data.

(** Where the fraction [A / B] stands in the interval from [m] to
    [m + 1]: on [m], or else below, on or above the middle. *)
Definition place (A B m : Z) : location :=
  if (A =? m * B)%Z then loc_Exact else loc_Inexact (2 * A ?= (2 * m + 1) * B)%Z.

(** A shift record that holds the whole part of [A / B] and the place of
    [A / B] above it. *)
Definition located (A B : Z) (mrs : shr_record) : Prop :=
  (0 <= shr_m mrs
   /\ shr_m mrs * B <= A < (shr_m mrs + 1) * B
   /\ loc_of_shr_record mrs = place A B (shr_m mrs))%Z.

(** A number that is neither [NaN] nor an infinity. *)
Definition SFfinite (x : spec_float) : bool :=
  match x with
  | S754_zero _ | S754_finite _ _ _ => true
  | _ => false
  end.

Definition finite (x : number) : bool := SFfinite (Prim2SF x).

(** The distance between neighbouring numbers around a value of [T]
    units of [2^-1074]: a number has 53 significant bits. *)
Definition spacing (T : Z) : Z := (2 ^ Z.max 0 (Z.log2 (Z.abs T) - 52))%Z.

End Reference.

(** * Properties of the pipeline *)

Import Pipeline Trainer Forecast.

(** ** The built-ins on a few arguments *)

Example Math_round_ties :
  map Math_round [2.5; -2.5; -0.5; 0.49999999999999994; 22.5; nan]%float
  = [3; -2; -0; 0; 23; nan]%float.
Proof. vm_compute. reflexivity. Qed.

Example Math_floor_of_split :
  map Math_floor [of_nat 10 * 0.8; of_nat 13 * 0.8; -0.5; 16; infinity]%float
  = [8; 10; -1; 16; infinity]%float.
Proof. vm_compute. reflexivity. Qed.

Example Math_min_and_max :
  (Math_min [3; 1; 2], Math_max [3; 1; 2], Math_min [], Math_max [],
   Math_min [1; nan], Math_min [0; -0], Math_max [-0; 0])%float
  = (1, 3, infinity, neg_infinity, nan, -0, 0)%float.
Proof. vm_compute. reflexivity. Qed.

Example toFixed2_rounds :
  map toFixed2 [83.33333333333333; 0.125; 1.005; -2.675; 99.995; 175; nan]%float
  = [83.33; 0.13; 1; -2.67; 100; 175; nan]%float.
Proof. vm_compute. reflexivity. Qed.

Example Math_fround_rounds :
  map Math_fround [0.5; 0.1; 16777217; 1e40]%float
  = [0.5; 0.10000000149011612; 16777216; infinity]%float.
Proof. vm_compute. reflexivity. Qed.

Example Array_slice_relative :
  (Array_slice [1; 2; 3; 4; 5] 1 3, Array_slice [1; 2; 3; 4; 5] 0 (-1),
   Array_slice_from [1; 2; 3; 4; 5] (-2), Array_slice_from [1; 2; 3; 4; 5] (-0),
   Array_slice_from [1; 2; 3] (-10), Array_slice [1; 2; 3] 2 1)
  = ([2; 3], [1; 2; 3; 4], [4; 5], [1; 2; 3; 4; 5], [1; 2; 3], []).
Proof. reflexivity. Qed.

Example Array_sort_is_stable :
  Array_sort (fun a b => (snd b - snd a)%float)
    [("a", 1); ("b", 3); ("c", 1); ("d", 3); ("e", 2)]%float%string
  = [("b", 3); ("d", 3); ("e", 2); ("a", 1); ("c", 1)]%float%string.
Proof. vm_compute. reflexivity. Qed.

Example or_else_falsy :
  (or_else (Some 0) (Some 7), or_else (Some (-0)) None, or_else (Some nan) (Some 7),
   or_else (Some 3) (Some 7), or_else None (Some 0))%float
  = (Some 7, None, Some 7, Some 3, Some 0)%float.
Proof. vm_compute. reflexivity. Qed.

(** ** Lists and loops *)

Section Loops.

Context {A B C : Type}.

Lemma fold_left_push (f : C -> A) (g : C -> list B) (l : list C) (X : list A) (y : list B) :
  fold_left (fun Xy i => (fst Xy ++ [f i], snd Xy ++ g i)) l (X, y)
  = (X ++ map f l, y ++ flat_map g l).
Proof.
  revert X y. induction l as [| i l IH]; intros X y; simpl.
  - now rewrite !app_nil_r.
  - rewrite IH. now rewrite <- !app_assoc.
Qed.

Lemma elements_from (data : list A) (a n : nat) :
  flat_map (fun i => match nth_error data i with Some v => [v] | None => [] end) (seq a n)
  = firstn n (skipn a data).
Proof.
  revert a data. induction n as [| n IH]; intros a data; [reflexivity |].
  cbn [seq flat_map]. rewrite IH.
  revert a. induction data as [| x data IHd]; intros a.
  - destruct a; simpl; now rewrite ?firstn_nil.
  - destruct a as [| a]; [reflexivity |].
    cbn [nth_error skipn]. apply IHd.
Qed.

Lemma Array_slice_between (data : list A) (k n : nat) :
  k + n <= length data ->
  Array_slice data (Z.of_nat k) (Z.of_nat (k + n)) = firstn n (skipn k data).
Proof.
  intro H. unfold Array_slice, relative_index.
  destruct (Z.ltb_spec (Z.of_nat k) 0); [lia |].
  destruct (Z.ltb_spec (Z.of_nat (k + n)) 0); [lia |].
  rewrite !Z.min_l by lia.
  replace (Z.to_nat (Z.of_nat (k + n) - Z.of_nat k)) with n by lia.
  now rewrite Nat2Z.id.
Qed.

Lemma Array_slice_from_1 (a : list A) : Array_slice_from a 1 = tl a.
Proof.
  unfold Array_slice_from, Array_slice, relative_index.
  destruct a as [| x a]; [reflexivity |].
  cbn [length tl].
  destruct (Z.ltb_spec 1 0); [lia |].
  destruct (Z.ltb_spec (Z.of_nat (S (length a))) 0); [lia |].
  rewrite !Z.min_l by lia.
  replace (Z.to_nat (Z.of_nat (S (length a)) - 1)) with (length a) by lia.
  change (Z.to_nat 1) with 1. cbn [skipn]. apply firstn_all.
Qed.

Lemma Array_slice_last (a : list A) (n : nat) :
  0 < n <= length a ->
  Array_slice_from a (- Z.of_nat n) = skipn (length a - n) a.
Proof.
  intro H. unfold Array_slice_from, Array_slice, relative_index.
  destruct (Z.ltb_spec (- Z.of_nat n) 0); [| lia].
  destruct (Z.ltb_spec (Z.of_nat (length a)) 0); [lia |].
  rewrite Z.max_l, Z.min_l by lia.
  replace (Z.to_nat (Z.of_nat (length a) + - Z.of_nat n)) with (length a - n) by lia.
  apply firstn_all2. rewrite length_skipn. lia.
Qed.

Lemma Array_map_length (f : A -> nat -> B) (a : list A) :
  length (Array_map f a) = length a.
Proof.
  unfold Array_map. rewrite length_map, length_combine, length_seq. lia.
Qed.

Lemma combine_seq_nth (a : list A) (start i : nat) :
  nth_error (combine a (seq start (length a))) i
  = option_map (fun x => (x, start + i)) (nth_error a i).
Proof.
  revert start i. induction a as [| x a IH]; intros start i.
  - destruct i; reflexivity.
  - destruct i as [| i]; cbn [length seq combine nth_error option_map].
    + now rewrite Nat.add_0_r.
    + rewrite IH. destruct (nth_error a i); cbn; [| reflexivity].
      do 2 f_equal. lia.
Qed.

Lemma Array_map_nth (f : A -> nat -> B) (a : list A) (i : nat) :
  nth_error (Array_map f a) i = option_map (fun x => f x i) (nth_error a i).
Proof.
  unfold Array_map. rewrite nth_error_map, combine_seq_nth.
  destruct (nth_error a i); reflexivity.
Qed.

End Loops.

Lemma Array_slice_suffix {A : Type} (a : list A) (c : nat) :
  Array_slice_from a (Z.of_nat c) = skipn c a.
Proof.
  unfold Array_slice_from, Array_slice, relative_index.
  destruct (Z.ltb_spec (Z.of_nat c) 0); [lia |].
  destruct (Z.ltb_spec (Z.of_nat (length a)) 0); [lia |].
  rewrite (Z.min_l (Z.of_nat (length a))) by lia.
  destruct (Nat.le_gt_cases c (length a)).
  - rewrite Z.min_l by lia. rewrite Nat2Z.id. apply firstn_all2. rewrite length_skipn. lia.
  - rewrite Z.min_r by lia. rewrite Nat2Z.id. rewrite !skipn_all2 by lia. now rewrite firstn_nil.
Qed.

Lemma Array_slice_whole {A : Type} (a : list A) (n : nat) :
  length a <= n -> Array_slice_from a (- Z.of_nat n) = a.
Proof.
  intro H. unfold Array_slice_from, Array_slice, relative_index.
  destruct (Z.ltb_spec (Z.of_nat (length a)) 0); [lia |].
  rewrite (Z.min_id (Z.of_nat (length a))).
  destruct (Z.ltb_spec (- Z.of_nat n) 0).
  - rewrite Z.max_r by lia. rewrite Z.sub_0_r, Nat2Z.id. apply firstn_all.
  - rewrite Z.min_l by lia. replace (- Z.of_nat n)%Z with 0%Z by lia.
    rewrite Z.sub_0_r, Nat2Z.id. apply firstn_all.
Qed.

Lemma forecast_seed_length {A : Type} (normalized : list A) (L : nat) :
  length (Array_slice_from normalized (- Z.of_nat L))
  = if L =? 0 then length normalized else Nat.min L (length normalized).
Proof.
  destruct L as [| L].
  - change (- Z.of_nat 0)%Z with (Z.of_nat 0). now rewrite Array_slice_suffix.
  - cbn [Nat.eqb]. destruct (Nat.le_gt_cases (S L) (length normalized)).
    + rewrite Array_slice_last by lia. rewrite length_skipn. lia.
    + rewrite Array_slice_whole by lia. lia.
Qed.

Lemma forecast_seed_nonempty {A : Type} (normalized : list A) (L : nat) :
  normalized <> [] -> Array_slice_from normalized (- Z.of_nat L) <> [].
Proof.
  intros H E. apply (f_equal (@length A)) in E. rewrite forecast_seed_length in E.
  destruct normalized; [congruence |]. cbn [length] in E.
  destruct (L =? 0) eqn:EL; [lia |]. apply Nat.eqb_neq in EL. lia.
Qed.

Lemma seq_from (start len : nat) :
  seq start len = map (fun k => k + start) (seq 0 len).
Proof.
  revert start. induction len as [| len IH]; intro start; [reflexivity |].
  cbn [seq map]. f_equal. rewrite (IH (S start)), (IH 1), map_map.
  apply map_ext. intro k. lia.
Qed.

Lemma createSequences_closed_form {A : Type} (data : list A) (lookback : nat) :
  createSequences data lookback
  = Normal (map (fun k => firstn lookback (skipn k data)) (seq 0 (length data - lookback)),
            skipn lookback data).
Proof.
  unfold createSequences. f_equal.
  rewrite (fold_left_push
             (fun i => Array_slice data (Z.of_nat i - Z.of_nat lookback) (Z.of_nat i))
             (fun i => match nth_error data i with Some v => [v] | None => [] end)).
  cbn [app]. f_equal.
  - rewrite seq_from, map_map. apply map_ext_in. intros k Hk.
    apply in_seq in Hk.
    replace (Z.of_nat (k + lookback) - Z.of_nat lookback)%Z with (Z.of_nat k) by lia.
    apply Array_slice_between. lia.
  - rewrite elements_from. apply firstn_all2. rewrite length_skipn. lia.
Qed.

(** ** The window builder and the guard of the trainer *)

Lemma extractTimeSeriesData_length (emigrationData : list EmigrationData) :
  length (extractTimeSeriesData emigrationData) = length emigrationData.
Proof. apply length_map. Qed.

Lemma training_windows_guard (Number_toString : number -> string)
  (emigrationData : list EmigrationData) (lookback : nat) :
  length emigrationData < lookback + 10 ->
  training_windows Number_toString emigrationData lookback
  = Throw (not_enough_data Number_toString (lookback + 10)).
Proof.
  intro H. unfold training_windows.
  rewrite extractTimeSeriesData_length.
  destruct (Nat.ltb_spec (length emigrationData) (lookback + 10)); [reflexivity | lia].
Qed.

(** C1, as the code has it.  For a series of length [M] and a lookback
    [L < M], [createSequences] returns exactly [M - L] windows, the
    [k]-th one pairing the [L] consecutive values [data[k .. k+L-1]]
    with the value [data[k+L]] that follows them.  For [L >= M] it
    does not fail: it returns no window at all.  The failure is
    raised by the trainer, before any window is built, for every
    series shorter than [L + 10], which covers every [L >= M]. *)
Theorem createSequences_windows :
  (forall (A : Type) (data : list A) (lookback : nat),
      lookback < length data ->
      exists X y,
        createSequences data lookback = Normal (X, y)
        /\ length X = length data - lookback
        /\ length y = length data - lookback
        /\ forall k, k < length data - lookback ->
             exists window target,
               nth_error X k = Some window
               /\ nth_error y k = Some target
               /\ length window = lookback
               /\ (forall j, j < lookback -> nth_error window j = nth_error data (k + j))
               /\ nth_error data (k + lookback) = Some target)
  /\ (forall (A : Type) (data : list A) (lookback : nat),
      length data <= lookback ->
      createSequences data lookback = Normal ([], []))
  /\ (forall Number_toString tf_fit emigrationData lookback neurons dropout modelName,
      length emigrationData < lookback + 10 ->
      trainSingleModel Number_toString tf_fit emigrationData lookback neurons dropout modelName
      = Throw (not_enough_data Number_toString (lookback + 10)))
  /\ (forall Number_toString tf_fit emigrationData models index modelConfig,
      emigrationData <> [] ->
      nth_error models index = Some modelConfig ->
      length emigrationData < lookback modelConfig + 10 ->
      Manual.trainModel Number_toString tf_fit true emigrationData models index
      = Failed (not_enough_data Number_toString (lookback modelConfig + 10))).
Proof.
  repeat split.
  - intros A data lookback H.
    exists (map (fun k => firstn lookback (skipn k data)) (seq 0 (length data - lookback))),
      (skipn lookback data).
    split; [apply createSequences_closed_form |].
    split; [now rewrite length_map, length_seq |].
    split; [apply length_skipn |].
    intros k Hk.
    destruct (nth_error data (k + lookback)) as [target |] eqn:E.
    2:{ apply nth_error_None in E. lia. }
    exists (firstn lookback (skipn k data)), target.
    split.
    { rewrite nth_error_map, nth_error_seq.
      destruct (Nat.ltb_spec k (length data - lookback)); [reflexivity | lia]. }
    split.
    { rewrite nth_error_skipn. now rewrite Nat.add_comm. }
    split.
    { rewrite length_firstn, length_skipn. lia. }
    split; [| reflexivity].
    intros j Hj. rewrite nth_error_firstn, nth_error_skipn.
    destruct (Nat.ltb_spec j lookback); [reflexivity | lia].
  - intros A data lookback H. rewrite createSequences_closed_form.
    replace (length data - lookback) with 0 by lia.
    now rewrite skipn_all2.
  - intros Number_toString tf_fit emigrationData lookback neurons dropout modelName H.
    unfold trainSingleModel. now rewrite training_windows_guard.
  - intros Number_toString tf_fit emigrationData models index modelConfig Hdata Hcfg H.
    unfold Manual.trainModel. rewrite Hcfg.
    destruct emigrationData as [| r rest]; [congruence |].
    cbn [negb orb length Nat.eqb].
    unfold trainSingleModel. now rewrite training_windows_guard.
Qed.

Lemma createSequences_windows_witness :
  3 < length [1; 2; 3; 4; 5]%float
  /\ exists X y,
       createSequences [1; 2; 3; 4; 5]%float 3 = Normal (X, y)
       /\ length X = 2 /\ length y = 2.
Proof.
  split; [simpl; lia |].
  destruct (proj1 createSequences_windows number [1; 2; 3; 4; 5]%float 3)
    as (X & y & HXy & HX & Hy & _); [simpl; lia |].
  exists X, y. repeat split; assumption.
Defined.

(** The specification's C1 asks for a failure when the lookback reaches the
    length of the series: here the lookback is 3, the series has two
    values, and the call returns, with no window. *)
Lemma createSequences_short_series_returns :
  createSequences [1; 2]%float 3 = Normal ([], [])
  /\ forall message, createSequences [1; 2]%float 3 <> Throw message.
Proof.
  split; [reflexivity | intros message H; discriminate H].
Qed.

(** ** The ten-point series of the end-to-end scenario *)

(** C2, as the code has it.  On the series [10, 12, 11, 15, 20, 18, 25,
    30, 28, 35] with lookback 3 the trainer stops with its "Not enough
    data" error, because it asks for at least [3 + 10] points.  The
    window builder, given the whole scaled series, does return 7
    windows; but the trainer splits the series, not the windows:
    [splitIndex] is [floor (10 * 0.8) = 8], the training part is the
    first 8 values and yields 5 windows, and the test part is the last
    2 values, too few for a single window of 3. *)
Theorem ten_point_scenario :
  let normalized := fst (fst (normalizeData Scenario.series10)) in
  extractTimeSeriesData Scenario.data10 = Scenario.series10
  /\ training_windows Scenario.decimal Scenario.data10 3
     = Throw "Not enough data. Need at least 13 data points."
  /\ (exists X y, createSequences normalized 3 = Normal (X, y) /\ length X = 7 /\ length y = 7)
  /\ Math_floor (of_nat (length normalized) * 0.8)%float = 8%float
  /\ Array_slice normalized 0 8 = firstn 8 normalized
  /\ Array_slice_from normalized 8 = skipn 8 normalized
  /\ exists trainSeq testSeq,
       split_sequences normalized 3 = Normal (trainSeq, testSeq)
       /\ length (fst trainSeq) = 5 /\ length (snd trainSeq) = 5
       /\ testSeq = ([], []).
Proof.
  cbv zeta. repeat split; try (vm_compute; reflexivity).
  - eexists. eexists. split; [vm_compute; reflexivity |]. split; reflexivity.
  - eexists. eexists. split; [vm_compute; reflexivity |]. repeat split; reflexivity.
Qed.

(** The specification's C2 expects 7 windows split into 5 for training and 2
    for testing: the trainer refuses the ten points, and its split
    leaves the test part without a window. *)
Lemma ten_point_series_is_refused :
  training_windows Scenario.decimal Scenario.data10 3
  = Throw "Not enough data. Need at least 13 data points."
  /\ exists trainSeq,
       split_sequences (fst (fst (normalizeData Scenario.series10))) 3
       = Normal (trainSeq, ([], []))
       /\ length (fst trainSeq) = 5.
Proof.
  split; [vm_compute; reflexivity |].
  eexists. split; [vm_compute; reflexivity | reflexivity].
Qed.

(** ** Facts of binary64 arithmetic, from the specification of the
    primitive operations *)

Section Binary64.

Lemma SFcompare_refl (x : spec_float) :
  SFcompare x x = match x with S754_nan => None | _ => Some Eq end.
Proof.
  destruct x as [s | s | | s m e]; simpl; try reflexivity.
  - destruct s; reflexivity.
  - rewrite Z.compare_refl, Pos.compare_cont_refl. destruct s; reflexivity.
Qed.

Lemma ltb_irrefl (x : number) : (x <? x)%float = false.
Proof.
  rewrite FloatAxioms.ltb_spec. unfold SFltb. rewrite SFcompare_refl.
  destruct (Prim2SF x); reflexivity.
Qed.

Lemma is_nan_Prim2SF (x : number) :
  is_nan x = match Prim2SF x with S754_nan => true | _ => false end.
Proof.
  unfold is_nan. rewrite FloatAxioms.eqb_spec. unfold SFeqb. rewrite SFcompare_refl.
  destruct (Prim2SF x); reflexivity.
Qed.

Lemma is_nan_true (x : number) : is_nan x = true -> x = nan.
Proof.
  rewrite is_nan_Prim2SF. intro H. apply Prim2SF_inj.
  destruct (Prim2SF x); try discriminate. reflexivity.
Qed.

Lemma is_zero_Prim2SF (x : number) :
  is_zero x = match Prim2SF x with S754_zero _ => true | _ => false end.
Proof.
  unfold is_zero. rewrite FloatAxioms.eqb_spec.
  change (Prim2SF zero) with (S754_zero false).
  destruct (Prim2SF x) as [s | s | | s m e]; try reflexivity; destruct s; reflexivity.
Qed.

Lemma zero_signs_exclusive (x : number) : is_NegZero x && is_PosZero x = false.
Proof.
  unfold is_NegZero, is_PosZero. destruct (classify x); reflexivity.
Qed.

Lemma below_infinity (x : number) :
  is_nan x = false -> (x <? infinity)%float = false -> x = infinity.
Proof.
  rewrite is_nan_Prim2SF, FloatAxioms.ltb_spec.
  change (Prim2SF infinity) with (S754_infinity false).
  intros Hnan Hlt. apply Prim2SF_inj.
  change (Prim2SF infinity) with (S754_infinity false).
  destruct (Prim2SF x) as [s | s | | s m e]; try discriminate;
    destruct s; try discriminate; reflexivity.
Qed.

Lemma above_neg_infinity (x : number) :
  is_nan x = false -> (neg_infinity <? x)%float = false -> x = neg_infinity.
Proof.
  rewrite is_nan_Prim2SF, FloatAxioms.ltb_spec.
  change (Prim2SF neg_infinity) with (S754_infinity true).
  intros Hnan Hlt. apply Prim2SF_inj.
  change (Prim2SF neg_infinity) with (S754_infinity true).
  destruct (Prim2SF x) as [s | s | | s m e]; try discriminate;
    destruct s; try discriminate; reflexivity.
Qed.

Lemma sub_diag (x : number) : (x - x)%float = zero \/ (x - x)%float = nan.
Proof.
  destruct (Prim2SF x) as [s | s | | s m e] eqn:E.
  - left. apply Prim2SF_inj. rewrite sub_spec, E. destruct s; reflexivity.
  - right. apply Prim2SF_inj. rewrite sub_spec, E. destruct s; reflexivity.
  - right. apply Prim2SF_inj. rewrite sub_spec, E. reflexivity.
  - left. apply Prim2SF_inj. rewrite sub_spec, E.
    unfold SF64sub, SFsub. rewrite Z.sub_diag. reflexivity.
Qed.

Lemma zero_over_zero (x : number) : ((x - x) / (x - x))%float = nan.
Proof.
  destruct (sub_diag x) as [-> | ->]; reflexivity.
Qed.

Lemma Math_min_from_constant (c : number) (n : nat) :
  Math_min_from c (repeat c n) = c.
Proof.
  induction n as [| n IH]; [reflexivity |].
  cbn [repeat Math_min_from].
  destruct (is_nan c) eqn:Hnan; [symmetry; now apply is_nan_true |].
  now rewrite zero_signs_exclusive, ltb_irrefl.
Qed.

Lemma Math_max_from_constant (c : number) (n : nat) :
  Math_max_from c (repeat c n) = c.
Proof.
  induction n as [| n IH]; [reflexivity |].
  cbn [repeat Math_max_from].
  destruct (is_nan c) eqn:Hnan; [symmetry; now apply is_nan_true |].
  now rewrite andb_comm, zero_signs_exclusive, ltb_irrefl.
Qed.

Lemma Math_min_constant (c : number) (n : nat) : Math_min (repeat c (S n)) = c.
Proof.
  unfold Math_min. cbn [repeat Math_min_from].
  destruct (is_nan c) eqn:Hnan; [symmetry; now apply is_nan_true |].
  change (is_PosZero infinity) with false. rewrite andb_false_r.
  destruct (c <? infinity)%float eqn:Hlt; [apply Math_min_from_constant |].
  rewrite (below_infinity Hnan Hlt). apply Math_min_from_constant.
Qed.

Lemma Math_max_constant (c : number) (n : nat) : Math_max (repeat c (S n)) = c.
Proof.
  unfold Math_max. cbn [repeat Math_max_from].
  destruct (is_nan c) eqn:Hnan; [symmetry; now apply is_nan_true |].
  change (is_NegZero neg_infinity) with false. rewrite andb_false_r.
  destruct (neg_infinity <? c)%float eqn:Hlt; [apply Math_max_from_constant |].
  rewrite (above_neg_infinity Hnan Hlt). apply Math_max_from_constant.
Qed.

End Binary64.

(** C4, as the code has it.  The normalizer has no guard: on a constant
    series, whatever its value and its length, [max - min] is [0] (or
    [NaN] when the value is not finite), every quotient is [0 / 0], and
    every scaled value is [NaN], not [0].  The least and greatest
    elements it returns are the value itself. *)
Theorem constant_series_scales_to_NaN (c : number) (n : nat) :
  normalizeData (repeat c (S n)) = (repeat nan (S n), c, c).
Proof.
  unfold normalizeData.
  rewrite Math_min_constant, Math_max_constant, map_repeat.
  now rewrite zero_over_zero.
Qed.

(** The specification's C4 on the series [5, 5, 5]: the scaled values are
    [NaN], [NaN], [NaN]. *)
Lemma constant_series_is_not_zero :
  normalizeData [5; 5; 5]%float = ([nan; nan; nan], 5%float, 5%float)
  /\ forallb is_nan (fst (fst (normalizeData [5; 5; 5]%float))) = true
  /\ forallb is_zero (fst (fst (normalizeData [5; 5; 5]%float))) = false.
Proof.
  repeat split; vm_compute; reflexivity.
Qed.

(** ** The accuracy of a trained model *)

Section Metrics.

Lemma at_index_of_nat (a : list number) (i : nat) :
  at_index a (Z.of_nat i) = nth i a nan.
Proof.
  unfold at_index. destruct (Z.ltb_spec (Z.of_nat i) 0); [lia |].
  now rewrite Nat2Z.id.
Qed.

Lemma Array_reduce_fold {A B : Type} (f : B -> A -> B) (a : list A) (init : B) :
  Array_reduce (fun acc x _ => f acc x) a init = fold_left f a init.
Proof.
  unfold Array_reduce. generalize 0 as i. revert init.
  induction a as [| x a IH]; intros init i; [reflexivity |].
  cbn [fold_left fst snd]. apply IH.
Qed.

Lemma map_with_offset {A B : Type} (g : A -> number -> B) (a : list A) (b before : list number) :
  length b = length a ->
  map (fun xi => g (fst xi) (at_index (before ++ b) (Z.of_nat (snd xi))))
      (combine a (seq (length before) (length a)))
  = map (fun xy => g (fst xy) (snd xy)) (combine a b).
Proof.
  revert b before. induction a as [| x a IH]; intros b before H; [reflexivity |].
  destruct b as [| y b]; [discriminate |].
  cbn [length seq combine map fst snd]. f_equal.
  - rewrite at_index_of_nat, app_nth2, Nat.sub_diag by lia. reflexivity.
  - specialize (IH b (before ++ [y])).
    rewrite <- app_assoc, length_app, Nat.add_1_r in IH.
    apply IH. cbn [length] in H. lia.
Qed.

Lemma percentageErrors_pointwise (denormPred denormActual : list number) :
  length denormActual = length denormPred ->
  percentageErrors denormPred denormActual
  = map (fun pa => accuracy_term (fst pa) (snd pa)) (combine denormPred denormActual).
Proof.
  intro H. unfold percentageErrors, Array_map.
  apply (map_with_offset accuracy_term denormPred denormActual [] H).
Qed.



End Metrics.







(** ** The yearly totals *)

Lemma fold_left_skipping {A : Type} (skip : A -> bool) (g : A -> number)
  (l : list A) (start : number) :
  fold_left (fun total x => if skip x then total else (total + g x)%float) l start
  = fold_left PrimFloat.add (map g (filter (fun x => negb (skip x)) l)) start.
Proof.
  revert start. induction l as [| x l IH]; intro start; [reflexivity |].
  cbn [fold_left filter]. destruct (skip x); cbn [negb map fold_left]; apply IH.
Qed.


Lemma extractTimeSeriesData_totals (emigrationData : list EmigrationData) :
  extractTimeSeriesData emigrationData = map Reference.year_total emigrationData.
Proof.
  unfold extractTimeSeriesData. apply map_ext. intro yearData.
  unfold Object_entries. cbn [fold_left fst String.eqb Ascii.eqb Bool.eqb].
  apply (fold_left_skipping (fun entry => String.eqb (fst entry) "Year")
           (fun entry => emigrants_of (snd entry))).
Qed.




(** ** The forecast *)

Section Rollout.

Variable trainedModel : network.

Lemma rollout_window_step (seed : list number) (i : nat) :
  Reference.rollout_window trainedModel (tl seed ++ [trainedModel seed]) i
  = Reference.rollout_window trainedModel seed (S i).
Proof.
  induction i as [| i IH]; [reflexivity |].
  cbn [Reference.rollout_window] in *. now rewrite IH.
Qed.

Lemma forecast_loop_rollout (remaining : nat) (currentSequence predictions : list number) :
  currentSequence <> [] ->
  forecast_loop trainedModel remaining currentSequence predictions
  = Normal (predictions
            ++ map (fun i => trainedModel (Reference.rollout_window trainedModel currentSequence i))
                   (seq 0 remaining)).
Proof.
  revert currentSequence predictions.
  induction remaining as [| remaining IH]; intros currentSequence predictions Hwindow.
  - cbn. now rewrite app_nil_r.
  - cbn [forecast_loop].
    destruct currentSequence as [| v rest] eqn:E; [congruence |]. rewrite <- E.
    rewrite IH by (intro H; apply app_eq_nil in H; destruct H; discriminate).
    rewrite Array_slice_from_1, <- app_assoc.
    cbn [seq map app Reference.rollout_window]. do 3 f_equal.
    rewrite <- seq_shift, map_map. apply map_ext. intro i.
    now rewrite rollout_window_step.
Qed.

End Rollout.

Lemma combine_map_self {A B : Type} (h : A -> B) (l : list A) :
  combine (map h l) l = map (fun i => (h i, i)) l.
Proof.
  induction l as [| x l IH]; [reflexivity |]. cbn. now rewrite IH.
Qed.

Lemma Array_map_of_seq {A B : Type} (f : A -> nat -> B) (h : nat -> A) (n : nat) :
  Array_map f (map h (seq 0 n)) = map (fun i => f (h i) i) (seq 0 n).
Proof.
  unfold Array_map. rewrite length_map, length_seq, combine_map_self, map_map.
  reflexivity.
Qed.

Lemma forecast_tables_closed_form (trainedModel : network) (lookback : nat)
  (emigrationData : list EmigrationData) (lastRecord : EmigrationData) :
  nth_error emigrationData (length emigrationData - 1) = Some lastRecord ->
  exists recentHistorical,
    recentHistorical <> []
    /\ Forall (fun r => predicted r = None /\ type r = "historical"%string) recentHistorical
    /\ forall forecastYears,
         forecast_tables trainedModel lookback emigrationData forecastYears
         = Normal (map (Reference.forecast_point trainedModel lookback emigrationData
                          (Year lastRecord))
                       (seq 0 forecastYears),
                   recentHistorical).
Proof.
  intro Hlast. unfold forecast_tables, Reference.forecast_point, Reference.forecast_seed,
    Reference.scaled_series, Reference.series_min, Reference.series_max, normalizeData.
  rewrite Hlast. cbn [fst snd].
  eexists. split; [| split; [| intro forecastYears]].
  3:{ rewrite forecast_loop_rollout.
      - cbn [bind app]. f_equal. f_equal. unfold denormalizeData.
        rewrite map_map, Array_map_of_seq. reflexivity.
      - apply forecast_seed_nonempty. intro E. apply (f_equal (@length number)) in E.
        rewrite length_map, extractTimeSeriesData_length in E.
        destruct emigrationData; [discriminate Hlast | discriminate E]. }
  - intro H. apply (f_equal (@length row)) in H. rewrite Array_map_length in H.
    cbn [length] in H.
    unfold Array_slice_from, Array_slice, relative_index in H.
    destruct emigrationData as [| r rest]; [discriminate Hlast |].
    cbn [length] in H.
    destruct (Z.ltb_spec (-10) 0); [| lia].
    destruct (Z.ltb_spec (Z.of_nat (S (length rest))) 0); [lia |].
    rewrite Z.min_id, length_firstn, length_skipn in H. cbn [length] in H. lia.
  - apply Forall_forall. intros r Hr. apply In_nth_error in Hr. destruct Hr as [i Hi].
    rewrite Array_map_nth in Hi.
    destruct (nth_error (Array_slice_from emigrationData (-10)) i); [| discriminate].
    cbn in Hi. injection Hi as <-. split; reflexivity.
Qed.

Lemma forecast_tables_empty (trainedModel : network) (lookback forecastYears : nat) :
  exists message, forecast_tables trainedModel lookback [] forecastYears = Throw message.
Proof.
  destruct forecastYears as [| forecastYears]; [eexists; reflexivity |].
  unfold forecast_tables, normalizeData. cbv beta iota zeta.
  change (extractTimeSeriesData []) with (@nil number). cbn [map].
  unfold Array_slice_from, Array_slice. rewrite skipn_nil, firstn_nil.
  eexists. reflexivity.
Qed.


Lemma last_element_exists {A : Type} (l : list A) :
  l <> [] -> exists x, nth_error l (length l - 1) = Some x.
Proof.
  intro H. destruct (nth_error l (length l - 1)) as [x |] eqn:E; [now exists x |].
  apply nth_error_None in E. destruct l; [congruence | cbn [length] in E; lia].
Qed.

Lemma scaled_series_length (emigrationData : list EmigrationData) :
  length (Reference.scaled_series emigrationData) = length emigrationData.
Proof.
  unfold Reference.scaled_series, normalizeData. cbn [fst].
  now rewrite length_map, extractTimeSeriesData_length.
Qed.

(** C8.  The forecast does not read the scaling parameters stored in the
    model: whatever they are, the outcome is the same, and the scale
    applied to the predictions is the one recomputed from the records
    present when the forecast is made.  On the ten-point series, whose
    values lie between 10 and 35, a model stored with the scale
    [(0, 100)] and a network answering [0.5] forecasts
    [round (0.5 * 25 + 10) = 23]; the stored scale would give 50. *)
Theorem forecast_ignores_stored_scale :
  (forall best params emigrationData forecastYears,
      AutoTune.generateForecast (Some (Reference.with_normalizationParams best params))
        emigrationData forecastYears
      = AutoTune.generateForecast (Some best) emigrationData forecastYears)
  /\ (forall model p q emigrationData forecastYears,
      Manual.generateForecast [Reference.with_normalizationParams model (Some p)] (Some 0)
        emigrationData forecastYears
      = Manual.generateForecast [Reference.with_normalizationParams model (Some q)] (Some 0)
          emigrationData forecastYears)
  /\ (exists results,
        AutoTune.generateForecast
          (Some (Scenario.trained_model 3 (Scenario.constant_network 0.5%float) (0%float, 100%float)))
          Scenario.data10 2
        = Shown results
        /\ map predicted (forecasts results) = [Some 23%float; Some 23%float])
  /\ (exists results,
        Manual.generateForecast
          [Scenario.trained_model 3 (Scenario.constant_network 0.5%float) (0%float, 100%float)]
          (Some 0) Scenario.data10 2
        = Shown results
        /\ map predicted (forecasts results) = [Some 23%float; Some 23%float])
  /\ (Reference.series_min Scenario.data10, Reference.series_max Scenario.data10)
     = (10%float, 35%float)
  /\ denormalizeData [0.5%float; 0.5%float] 0%float 100%float = [50%float; 50%float].
Proof.
  split; [| split; [| split; [| split; [| split]]]].
  - intros best params emigrationData forecastYears. reflexivity.
  - intros model p q emigrationData forecastYears. reflexivity.
  - eexists. split; [vm_compute; reflexivity | reflexivity].
  - eexists. split; [vm_compute; reflexivity | reflexivity].
  - vm_compute. reflexivity.
  - vm_compute. reflexivity.
Qed.

(** ** The exported table *)

Lemma Math_round_zero (v : number) : is_zero v = true -> Math_round v = v.
Proof.
  rewrite is_zero_Prim2SF. unfold Math_round.
  destruct (Prim2SF v); try discriminate. reflexivity.
Qed.

Lemma zero_or_else (a : number) (b : option number) :
  is_zero a = true -> or_else (Some a) b = b.
Proof.
  intro H. unfold or_else, truthy. now rewrite H, orb_true_r.
Qed.

Lemma exported_rows_with_actual (r : row) (a : number) (historicalRows forecastRows : list row) :
  Forall (fun h => predicted h = None /\ type h = "historical"%string) historicalRows ->
  Forall (fun f => actual f = None) forecastRows ->
  In r (historicalRows ++ forecastRows) ->
  actual r = Some a ->
  predicted r = None /\ type r = "historical"%string.
Proof.
  intros Hh Hf Hin Ha. apply in_app_or in Hin. destruct Hin as [Hin | Hin].
  - rewrite Forall_forall in Hh. now apply Hh.
  - rewrite Forall_forall in Hf. apply Hf in Hin. congruence.
Qed.

Lemma forecast_points_have_no_actual (net : network) (L : nat)
  (emigrationData : list EmigrationData) (lastYear : number) (N : nat) :
  Forall (fun f => actual f = None)
    (map (Reference.forecast_point net L emigrationData lastYear) (seq 0 N)).
Proof.
  apply Forall_map, Forall_forall. reflexivity.
Qed.

Lemma In_Array_slice {A : Type} (x : A) (a : list A) (start finish : Z) :
  In x (Array_slice a start finish) -> In x a.
Proof.
  unfold Array_slice. intro H.
  apply In_nth_error in H. destruct H as [i Hi].
  rewrite nth_error_firstn in Hi.
  destruct (i <? _); [| discriminate].
  rewrite nth_error_skipn in Hi. eapply nth_error_In. eassumption.
Qed.

Lemma forecast_tables_rows (net : network) (L : nat) (emigrationData : list EmigrationData)
  (N : nat) (forecastData recentHistorical : list row) :
  forecast_tables net L emigrationData N = Normal (forecastData, recentHistorical) ->
  Forall (fun h => predicted h = None /\ type h = "historical"%string) recentHistorical
  /\ Forall (fun f => actual f = None) forecastData.
Proof.
  destruct (nth_error emigrationData (length emigrationData - 1)) as [lastRecord |] eqn:Hlast.
  - destruct (forecast_tables_closed_form net L emigrationData Hlast)
      as (rows & _ & Hrows & Htables).
    rewrite Htables. intro H. injection H as <- <-.
    split; [assumption | apply forecast_points_have_no_actual].
  - unfold forecast_tables, normalizeData. cbv beta iota zeta. rewrite Hlast.
    destruct (forecast_loop _ _ _ _); discriminate.
Qed.

(** ** Rounding never changes the side of zero, and comparisons follow
    the integer image of the numbers *)

Section Rounding.

Local Open Scope Z_scope.

Lemma digits2_pos_size (m : positive) : digits2_pos m = Pos.size m.
Proof. induction m; cbn; now rewrite ?IHm. Qed.

Lemma digits2_pos_bounds (m : positive) :
  2 ^ (Zpos (digits2_pos m) - 1) <= Zpos m < 2 ^ Zpos (digits2_pos m).
Proof.
  rewrite digits2_pos_size. split.
  - pose proof (Pos.size_le m) as H.
    assert (H' : 2 ^ Zpos (Pos.size m) <= 2 * Zpos m).
    { change 2 with (Zpos 2) at 1. rewrite <- Pos2Z.inj_pow. exact H. }
    replace (Zpos (Pos.size m)) with (Zpos (Pos.size m) - 1 + 1) in H' by lia.
    rewrite Z.pow_add_r in H' by lia. lia.
  - pose proof (Pos.size_gt m) as H.
    change 2 with (Zpos 2). rewrite <- Pos2Z.inj_pow. exact H.
Qed.

Lemma iter_xO_value (m d : positive) : Zpos (Pos.iter xO m d) = Zpos m * 2 ^ Zpos d.
Proof.
  rewrite (Pos.iter_swap_gen _ _ Zpos xO (Z.mul 2)) by reflexivity.
  change (Pos.iter (Z.mul 2) (Zpos m) d) with (Z.shiftl (Zpos m) (Zpos d)).
  apply Z.shiftl_mul_pow2. lia.
Qed.

Lemma shl_align_value (m : positive) (e e' : Z) :
  e' <= e -> Zpos (fst (shl_align m e e')) = Zpos m * 2 ^ (e - e').
Proof.
  intro H. unfold shl_align.
  destruct (e' - e) as [| d | d] eqn:E; cbn [fst].
  - replace (e - e') with 0 by lia. lia.
  - lia.
  - rewrite iter_xO_value. f_equal. f_equal. lia.
Qed.

Lemma shl_align_exponent (m : positive) (e e' : Z) :
  snd (shl_align m e e') = Z.min e e'.
Proof.
  unfold shl_align. destruct (e' - e) eqn:E; cbn [snd]; lia.
Qed.

Lemma shr_1_mantissa (mrs : shr_record) :
  0 <= shr_m mrs -> shr_m (shr_1 mrs) = Z.div2 (shr_m mrs).
Proof.
  destruct mrs as [m r s]. cbn [shr_m]. intro H.
  destruct m as [| p | p]; [reflexivity | | lia].
  destruct p; reflexivity.
Qed.

Lemma iter_shr_1_mantissa (p : positive) (mrs : shr_record) :
  0 <= shr_m mrs -> shr_m (SpecFloat.iter_pos shr_1 p mrs) = Z.shiftr (shr_m mrs) (Zpos p).
Proof.
  revert mrs. induction p as [p IH | p IH |]; intros mrs H; cbn [SpecFloat.iter_pos].
  - assert (H1 : 0 <= shr_m (shr_1 mrs)).
    { rewrite shr_1_mantissa by assumption. now apply Z.div2_nonneg. }
    assert (H2 : 0 <= shr_m (SpecFloat.iter_pos shr_1 p (shr_1 mrs))).
    { rewrite IH by assumption. now apply Z.shiftr_nonneg. }
    rewrite IH, IH, shr_1_mantissa by assumption.
    rewrite Z.div2_spec, !Z.shiftr_shiftr by lia. f_equal. lia.
  - assert (H2 : 0 <= shr_m (SpecFloat.iter_pos shr_1 p mrs)).
    { rewrite IH by assumption. now apply Z.shiftr_nonneg. }
    rewrite IH, IH by assumption.
    rewrite Z.shiftr_shiftr by lia. f_equal. lia.
  - rewrite shr_1_mantissa by assumption. apply Z.div2_spec.
Qed.

Lemma shr_record_of_loc_mantissa (m : Z) (l : location) : shr_m (shr_record_of_loc m l) = m.
Proof. destruct l as [| []]; reflexivity. Qed.

Variables prec emax : Z.
Hypothesis prec_positive : 0 < prec.

Abbreviation emin := (SpecFloat.emin prec emax).
Abbreviation fexp := (SpecFloat.fexp prec emax).

Lemma shr_fexp_positive (m : positive) (e : Z) (l : location) :
  emin <= e ->
  0 < shr_m (fst (shr_fexp prec emax (Zpos m) e l))
  /\ emin <= snd (shr_fexp prec emax (Zpos m) e l).
Proof.
  intro He. unfold shr_fexp, shr. cbn [Zdigits2].
  destruct (SpecFloat.fexp prec emax (Zpos (digits2_pos m) + e) - e) as [| n | n] eqn:E;
    cbn [fst snd]; rewrite ?shr_record_of_loc_mantissa; try (split; lia).
  unfold SpecFloat.fexp in E.
  rewrite iter_shr_1_mantissa by (rewrite shr_record_of_loc_mantissa; lia).
  rewrite shr_record_of_loc_mantissa. split; [| lia].
  rewrite Z.shiftr_div_pow2 by lia.
  pose proof (digits2_pos_bounds m) as [Hlow _].
  assert (Hn : Zpos n <= Zpos (digits2_pos m) - 1) by lia.
  assert (2 ^ Zpos n <= 2 ^ (Zpos (digits2_pos m) - 1)) by (apply Z.pow_le_mono_r; lia).
  apply Z.div_str_pos. split; [apply Z.pow_pos_nonneg; lia | lia].
Qed.

Lemma round_nearest_even_positive (m : Z) (l : location) :
  0 < m -> 0 < round_nearest_even m l.
Proof.
  intro H. unfold round_nearest_even. destruct l as [| []]; try lia.
  destruct (Z.even m); lia.
Qed.

Lemma binary_round_aux_sign (s : bool) (m e : Z) (l : location) :
  match binary_round_aux prec emax s m e l with
  | S754_zero s' | S754_infinity s' | S754_finite s' _ _ => s' = s
  | S754_nan => True
  end.
Proof.
  unfold binary_round_aux.
  destruct (shr_fexp prec emax m e l) as [mrs' e'].
  destruct (shr_fexp prec emax _ e' loc_Exact) as [mrs'' e''].
  destruct (shr_m mrs''); [reflexivity | | exact I].
  destruct (e'' <=? emax - prec); reflexivity.
Qed.

Lemma binary_round_aux_positive (s : bool) (m : positive) (e : Z) (l : location) :
  emin <= e ->
  match binary_round_aux prec emax s (Zpos m) e l with
  | S754_infinity s' | S754_finite s' _ _ => s' = s
  | _ => False
  end.
Proof.
  intro He. unfold binary_round_aux.
  pose proof (shr_fexp_positive m l He) as [H1 H1'].
  destruct (shr_fexp prec emax (Zpos m) e l) as [mrs' e']. cbn [fst snd] in H1, H1'.
  pose proof (round_nearest_even_positive (loc_of_shr_record mrs') H1) as H2.
  destruct (round_nearest_even (shr_m mrs') (loc_of_shr_record mrs')) as [| m2 | m2]; try lia.
  pose proof (shr_fexp_positive m2 loc_Exact H1') as [H3 _].
  destruct (shr_fexp prec emax (Zpos m2) e' loc_Exact) as [mrs'' e'']. cbn [fst] in H3.
  destruct (shr_m mrs''); try lia.
  destruct (e'' <=? emax - prec); reflexivity.
Qed.

Lemma binary_round_positive (s : bool) (m : positive) (e : Z) :
  emin <= e ->
  match binary_round prec emax s m e with
  | S754_infinity s' | S754_finite s' _ _ => s' = s
  | _ => False
  end.
Proof.
  intro He. unfold binary_round.
  pose proof (shl_align_exponent m e (SpecFloat.fexp prec emax (Zpos (digits2_pos m) + e))) as Hs.
  destruct (shl_align m e _) as [mz ez]. cbn [snd] in Hs.
  apply binary_round_aux_positive. unfold SpecFloat.fexp in Hs. lia.
Qed.

Lemma binary_round_sign (s : bool) (m : positive) (e : Z) :
  match binary_round prec emax s m e with
  | S754_zero s' | S754_infinity s' | S754_finite s' _ _ => s' = s
  | S754_nan => True
  end.
Proof.
  unfold binary_round. destruct (shl_align m e _) as [mz ez]. apply binary_round_aux_sign.
Qed.

Lemma bounded_exponent (m : positive) (e : Z) :
  bounded prec emax m e = true ->
  emin <= e /\ Zpos (digits2_pos m) <= prec /\ (emin < e -> Zpos (digits2_pos m) = prec).
Proof.
  unfold bounded, canonical_mantissa, SpecFloat.fexp. intro H.
  apply andb_prop in H. destruct H as [H _]. apply Z.eqb_eq in H. lia.
Qed.

Lemma aligned_below (m m' : positive) (e e' : Z) :
  bounded prec emax m e = true -> bounded prec emax m' e' = true -> e < e' ->
  Zpos m < Zpos m' * 2 ^ (e' - e).
Proof.
  intros H H' He.
  apply bounded_exponent in H, H'. destruct H as (Hmin & Hd & _), H' as (_ & _ & Hd').
  specialize (Hd' ltac:(lia)).
  pose proof (digits2_pos_bounds m) as [_ Hm].
  pose proof (digits2_pos_bounds m') as [Hm' _]. rewrite Hd' in Hm'.
  assert (2 ^ Zpos (digits2_pos m) <= 2 ^ prec) by (apply Z.pow_le_mono_r; lia).
  assert (2 ^ 1 <= 2 ^ (e' - e)) by (apply Z.pow_le_mono_r; lia).
  assert (2 ^ prec = 2 ^ (prec - 1) * 2 ^ 1).
  { rewrite <- Z.pow_add_r by lia. f_equal. lia. }
  assert (0 < 2 ^ (prec - 1)) by (apply Z.pow_pos_nonneg; lia).
  nia.
Qed.

Lemma SFcompare_finite (s1 s2 : bool) (m1 m2 : positive) (e1 e2 : Z) :
  bounded prec emax m1 e1 = true -> bounded prec emax m2 e2 = true ->
  SFcompare (S754_finite s1 m1 e1) (S754_finite s2 m2 e2)
  = Some (cond_Zopp s1 (Zpos m1 * 2 ^ (e1 - Z.min e1 e2))
          ?= cond_Zopp s2 (Zpos m2 * 2 ^ (e2 - Z.min e1 e2))).
Proof.
  intros H1 H2. unfold SFcompare. f_equal.
  assert (P1 : 0 < Zpos m1 * 2 ^ (e1 - Z.min e1 e2)).
  { apply Z.mul_pos_pos; [lia | apply Z.pow_pos_nonneg; lia]. }
  assert (P2 : 0 < Zpos m2 * 2 ^ (e2 - Z.min e1 e2)).
  { apply Z.mul_pos_pos; [lia | apply Z.pow_pos_nonneg; lia]. }
  assert (Hcases :
    match e1 ?= e2 with
    | Lt => Zpos m1 * 2 ^ (e1 - Z.min e1 e2) < Zpos m2 * 2 ^ (e2 - Z.min e1 e2)
    | Gt => Zpos m2 * 2 ^ (e2 - Z.min e1 e2) < Zpos m1 * 2 ^ (e1 - Z.min e1 e2)
    | Eq => (Zpos m1 * 2 ^ (e1 - Z.min e1 e2) ?= Zpos m2 * 2 ^ (e2 - Z.min e1 e2))
            = Pos.compare_cont Eq m1 m2
    end).
  { destruct (Z.compare_spec e1 e2) as [He | He | He].
    - subst e2. rewrite Z.min_id, Z.sub_diag, !Z.mul_1_r. reflexivity.
    - rewrite Z.min_l, Z.sub_diag, Z.mul_1_r by lia. now apply aligned_below.
    - rewrite Z.min_r, Z.sub_diag, Z.mul_1_r by lia. now apply aligned_below. }
  destruct s1, s2; cbn [cond_Zopp].
  - rewrite Z.compare_opp.
    destruct (e1 ?= e2).
    + rewrite Z.compare_antisym, Hcases. reflexivity.
    + symmetry. apply Z.compare_gt_iff. lia.
    + symmetry. apply Z.compare_lt_iff. lia.
  - symmetry. apply Z.compare_lt_iff. lia.
  - symmetry. apply Z.compare_gt_iff. lia.
  - destruct (e1 ?= e2).
    + now rewrite Hcases.
    + symmetry. now apply Z.compare_lt_iff.
    + symmetry. now apply Z.compare_gt_iff.
Qed.

End Rounding.

Section Order.

Import Reference.

Local Open Scope Z_scope.

Lemma sub_sign (x y : number) :
  is_nan x = false -> is_nan y = false ->
  (0 <? x - y)%float = (y <? x)%float.
Proof.
  rewrite !is_nan_Prim2SF, !FloatAxioms.ltb_spec, sub_spec.
  change (Prim2SF 0) with (S754_zero false).
  pose proof (Prim2SF_valid x) as Vx. pose proof (Prim2SF_valid y) as Vy.
  destruct (Prim2SF x) as [sx | sx | | sx mx ex]; try discriminate;
    destruct (Prim2SF y) as [sy | sy | | sy my ey]; try discriminate; intros _ _;
    try (destruct sx, sy; reflexivity).
  cbn [valid_binary] in Vx, Vy.
  unfold SFltb at 2. rewrite (@SFcompare_finite prec emax eq_refl sy sx my mx ey ex Vy Vx).
  unfold SF64sub, SFsub.
  rewrite !shl_align_value by lia.
  rewrite (Z.min_comm ey ex).
  set (ez := Z.min ex ey).
  assert (Hez : SpecFloat.emin prec emax <= ez).
  { pose proof (@bounded_exponent prec emax mx ex Vx) as [Bx _].
    pose proof (@bounded_exponent prec emax my ey Vy) as [By _].
    unfold ez. lia. }
  assert (Hx : cond_Zopp sx (Zpos mx) * 2 ^ (ex - ez) = cond_Zopp sx (Zpos mx * 2 ^ (ex - ez))).
  { destruct sx; cbn [cond_Zopp]; lia. }
  assert (Hy : cond_Zopp sy (Zpos my) * 2 ^ (ey - ez) = cond_Zopp sy (Zpos my * 2 ^ (ey - ez))).
  { destruct sy; cbn [cond_Zopp]; lia. }
  set (vx := cond_Zopp sx (Zpos mx * 2 ^ (ex - ez))) in *.
  set (vy := cond_Zopp sy (Zpos my * 2 ^ (ey - ez))) in *.
  assert (Hd : cond_Zopp sx (Zpos mx * 2 ^ (ex - ez)) - cond_Zopp sy (Zpos my * 2 ^ (ey - ez)) = vx - vy) by reflexivity.
  unfold binary_normalize.
  destruct (vx - vy) as [| d | d] eqn:E.
  - replace (vy ?= vx) with Eq by (symmetry; apply Z.compare_eq_iff; lia). reflexivity.
  - replace (vy ?= vx) with Lt by (symmetry; apply Z.compare_lt_iff; lia).
    pose proof (@binary_round_positive prec emax eq_refl false d ez Hez) as H.
    destruct (binary_round prec emax false d ez) as [s | s | | s m e]; try contradiction;
      subst s; reflexivity.
  - replace (vy ?= vx) with Gt by (symmetry; apply Z.compare_gt_iff; lia).
    pose proof (binary_round_sign prec emax true d ez) as H.
    destruct (binary_round prec emax true d ez) as [s | s | | s m e]; try subst s; reflexivity.
Qed.



Lemma top_positive : 0 < top.
Proof. unfold top. apply Z.pow_pos_nonneg; lia. Qed.

Lemma finite_below_top (m : positive) (e : Z) :
  bounded prec emax m e = true -> 0 < Zpos m * 2 ^ (e + 1074) < top.
Proof.
  intro H. pose proof (@bounded_exponent prec emax m e H) as (Hmin & Hd & _).
  unfold bounded in H. apply andb_prop in H. destruct H as [_ He]. apply Z.leb_le in He.
  change (SpecFloat.emin prec emax) with (-1074) in Hmin.
  change (emax - prec) with 971 in He. change prec with 53 in Hd.
  pose proof (digits2_pos_bounds m) as [_ Hm].
  assert (Hd53 : 2 ^ Zpos (digits2_pos m) <= 2 ^ 53) by (apply Z.pow_le_mono_r; lia).
  assert (Hpos : 0 < 2 ^ (e + 1074)) by (apply Z.pow_pos_nonneg; lia).
  assert (Hexp : 2 ^ (e + 1074) <= 2 ^ 2045) by (apply Z.pow_le_mono_r; lia).
  assert (Htop : top = 2 ^ 53 * 2 ^ 2045).
  { unfold top. rewrite <- Z.pow_add_r by lia. reflexivity. }
  split; [lia |].
  apply Z.lt_le_trans with (2 ^ 53 * 2 ^ (e + 1074)).
  - apply Z.mul_lt_mono_pos_r; lia.
  - rewrite Htop. apply Z.mul_le_mono_nonneg_l; lia.
Qed.

Lemma SFcompare_rank (x y : spec_float) :
  valid_binary x = true -> valid_binary y = true ->
  x <> S754_nan -> y <> S754_nan ->
  SFcompare x y = Some (rank x ?= rank y).
Proof.
  intros Vx Vy Nx Ny. pose proof top_positive as Htop.
  destruct x as [sx | sx | | sx mx ex]; [| | congruence |];
    destruct y as [sy | sy | | sy my ey]; try congruence; cbn [valid_binary] in Vx, Vy;
    try (pose proof (finite_below_top _ _ Vx) as Fx);
    try (pose proof (finite_below_top _ _ Vy) as Fy);
    cbn [rank SFcompare].
  - reflexivity.
  - f_equal. symmetry. destruct sy; cbn [cond_Zopp];
      [apply Z.compare_gt_iff | apply Z.compare_lt_iff]; lia.
  - f_equal. symmetry. destruct sy; cbn [cond_Zopp];
      [apply Z.compare_gt_iff | apply Z.compare_lt_iff]; lia.
  - f_equal. symmetry. destruct sx; cbn [cond_Zopp];
      [apply Z.compare_lt_iff | apply Z.compare_gt_iff]; lia.
  - f_equal. symmetry. destruct sx, sy; cbn [cond_Zopp];
      [apply Z.compare_eq_iff | apply Z.compare_lt_iff | apply Z.compare_gt_iff
       | apply Z.compare_eq_iff]; lia.
  - f_equal. symmetry. destruct sx, sy; cbn [cond_Zopp];
      [apply Z.compare_lt_iff | apply Z.compare_lt_iff | apply Z.compare_gt_iff
       | apply Z.compare_gt_iff]; lia.
  - f_equal. symmetry. destruct sx; cbn [cond_Zopp];
      [apply Z.compare_lt_iff | apply Z.compare_gt_iff]; lia.
  - f_equal. symmetry. destruct sx, sy; cbn [cond_Zopp];
      [apply Z.compare_gt_iff | apply Z.compare_lt_iff | apply Z.compare_gt_iff
       | apply Z.compare_lt_iff]; lia.
  - change (SFcompare (S754_finite sx mx ex) (S754_finite sy my ey)
            = Some (cond_Zopp sx (Zpos mx * 2 ^ (ex + 1074))
                    ?= cond_Zopp sy (Zpos my * 2 ^ (ey + 1074)))).
    rewrite (@SFcompare_finite prec emax eq_refl sx sy mx my ex ey Vx Vy). f_equal.
    pose proof (@bounded_exponent prec emax mx ex Vx) as (Bx & _).
    pose proof (@bounded_exponent prec emax my ey Vy) as (By & _).
    change (SpecFloat.emin prec emax) with (-1074) in Bx, By.
    set (ez := Z.min ex ey).
    assert (Hs : 0 < 2 ^ (ez + 1074)) by (apply Z.pow_pos_nonneg; unfold ez; lia).
    rewrite (Zmult_compare_compat_r _ _ (2 ^ (ez + 1074))) by lia.
    assert (Hx : cond_Zopp sx (Zpos mx * 2 ^ (ex - ez)) * 2 ^ (ez + 1074)
                 = cond_Zopp sx (Zpos mx * 2 ^ (ex + 1074))).
    { replace (ex + 1074) with ((ex - ez) + (ez + 1074)) by lia.
      rewrite (Z.pow_add_r 2 (ex - ez) (ez + 1074)) by (unfold ez; lia).
      destruct sx; cbn [cond_Zopp]; ring. }
    assert (Hy : cond_Zopp sy (Zpos my * 2 ^ (ey - ez)) * 2 ^ (ez + 1074)
                 = cond_Zopp sy (Zpos my * 2 ^ (ey + 1074))).
    { replace (ey + 1074) with ((ey - ez) + (ez + 1074)) by lia.
      rewrite (Z.pow_add_r 2 (ey - ez) (ez + 1074)) by (unfold ez; lia).
      destruct sy; cbn [cond_Zopp]; ring. }
    now rewrite Hx, Hy.
Qed.

End Order.

Section NumberOrder.

Import Reference.

Lemma not_nan_Prim2SF (x : number) : is_nan x = false -> Prim2SF x <> S754_nan.
Proof.
  rewrite is_nan_Prim2SF. intros H E. rewrite E in H. discriminate.
Qed.

Lemma ltb_rank (x y : number) :
  is_nan x = false -> is_nan y = false ->
  (x <? y)%float = (number_rank x <? number_rank y)%Z.
Proof.
  intros Hx Hy. rewrite FloatAxioms.ltb_spec. unfold SFltb, number_rank, Z.ltb.
  rewrite SFcompare_rank by (apply Prim2SF_valid || now apply not_nan_Prim2SF).
  reflexivity.
Qed.

Lemma leb_rank (x y : number) :
  is_nan x = false -> is_nan y = false ->
  (x <=? y)%float = (number_rank x <=? number_rank y)%Z.
Proof.
  intros Hx Hy. rewrite FloatAxioms.leb_spec. unfold SFleb, number_rank, Z.leb.
  rewrite SFcompare_rank by (apply Prim2SF_valid || now apply not_nan_Prim2SF).
  destruct (rank (Prim2SF x) ?= rank (Prim2SF y))%Z; reflexivity.
Qed.

Lemma eqb_rank (x y : number) :
  is_nan x = false -> is_nan y = false ->
  (x =? y)%float = (number_rank x =? number_rank y)%Z.
Proof.
  intros Hx Hy. rewrite FloatAxioms.eqb_spec, Z.eqb_compare. unfold SFeqb, number_rank.
  rewrite SFcompare_rank by (apply Prim2SF_valid || now apply not_nan_Prim2SF).
  reflexivity.
Qed.

Lemma eqb_nan (x y : number) : is_nan y = true -> (x =? y)%float = false.
Proof.
  intro H. apply is_nan_true in H. subst y.
  rewrite FloatAxioms.eqb_spec. change (Prim2SF nan) with S754_nan.
  unfold SFeqb. destruct (Prim2SF x) as [s | s | | s m e]; reflexivity.
Qed.

Lemma or_zero_is_a_number (a : option number) : is_nan (or_zero a) = false.
Proof.
  unfold or_zero, or_else, truthy. destruct a as [x |]; [| reflexivity].
  destruct (is_nan x) eqn:E; cbn [orb negb]; [reflexivity |].
  destruct (is_zero x); cbn [negb]; [reflexivity | exact E].
Qed.

Lemma by_accuracy_sign (a b : LSTMModel) :
  (0 <? AutoTune.by_accuracy a b)%float
  = (number_rank (or_zero (accuracy a)) <? number_rank (or_zero (accuracy b)))%Z.
Proof.
  unfold AutoTune.by_accuracy.
  rewrite sub_sign by apply or_zero_is_a_number.
  apply ltb_rank; apply or_zero_is_a_number.
Qed.

End NumberOrder.

(** ** The nearest number: what an operation of binary64 answers *)

Section Nearest.

Import Reference.

Local Open Scope Z_scope.

Lemma located_of_loc (A B m : Z) :
  0 <= m -> m * B <= A < (m + 1) * B ->
  located A B (shr_record_of_loc m (place A B m)).
Proof.
  intros Hm HA. unfold located. rewrite shr_record_of_loc_mantissa.
  split; [assumption |]. split; [assumption |].
  destruct (place A B m) as [| []]; reflexivity.
Qed.

Lemma shr_1_located (A B : Z) (mrs : shr_record) :
  0 < B -> located A B mrs -> located A (2 * B) (shr_1 mrs).
Proof.
  intros HB (Hm & HA & Hl). destruct mrs as [m r s]. cbn [shr_m] in *.
  unfold place in Hl.
  assert (Hr : (r = false /\ s = false /\ A = m * B)
               \/ (r = false /\ s = true /\ A <> m * B /\ 2 * A < (2 * m + 1) * B)
               \/ (r = true /\ s = false /\ A <> m * B /\ 2 * A = (2 * m + 1) * B)
               \/ (r = true /\ s = true /\ A <> m * B /\ 2 * A > (2 * m + 1) * B)).
  { destruct (Z.eqb_spec A (m * B)) as [E | E];
      destruct (Z.compare_spec (2 * A) ((2 * m + 1) * B));
      destruct r, s; cbn in Hl; try discriminate; intuition lia. }
  clear Hl.
  assert (Hcases : exists h b, (b = 0 \/ b = 1) /\ m = 2 * h + b /\ 0 <= h
                               /\ shr_m (shr_1 {| shr_m := m; shr_r := r; shr_s := s |}) = h
                               /\ shr_r (shr_1 {| shr_m := m; shr_r := r; shr_s := s |})
                                  = (b =? 1)
                               /\ shr_s (shr_1 {| shr_m := m; shr_r := r; shr_s := s |})
                                  = (r || s)%bool).
  { destruct m as [| [p | p |] | p]; try lia; cbn [shr_1 shr_m shr_r shr_s].
    - exists 0, 0. repeat split; lia.
    - exists (Zpos p), 1. repeat split; lia.
    - exists (Zpos p), 0. repeat split; lia.
    - exists 0, 1. repeat split; lia. }
  destruct Hcases as (h & b & Hb & Hmh & Hh & E1 & E2 & E3).
  destruct (shr_1 {| shr_m := m; shr_r := r; shr_s := s |}) as [m' r' s'].
  cbn [shr_m shr_r shr_s] in E1, E2, E3. subst m' r' s' m.
  unfold located, place. cbn [shr_m loc_of_shr_record].
  split; [assumption |].
  destruct Hb as [-> | ->]; cbn [Z.eqb Pos.eqb];
    (split; [lia |]);
    destruct Hr as [(-> & -> & E) | [(-> & -> & E & E') | [(-> & -> & E & E') | (-> & -> & E & E')]]];
    cbn [orb];
    destruct (Z.eqb_spec A (h * (2 * B)));
    destruct (Z.compare_spec (2 * A) ((2 * h + 1) * (2 * B)));
    try reflexivity; exfalso; lia.
Qed.

Lemma iter_shr_1_located (p : positive) (A B : Z) (mrs : shr_record) :
  0 < B -> located A B mrs ->
  located A (2 ^ Zpos p * B) (SpecFloat.iter_pos shr_1 p mrs).
Proof.
  revert B mrs. induction p as [p IH | p IH |]; intros B mrs HB H; cbn [SpecFloat.iter_pos].
  - replace (2 ^ Zpos p~1 * B) with (2 ^ Zpos p * (2 ^ Zpos p * (2 * B))).
    + apply IH; [| apply IH; [lia | now apply shr_1_located]].
      assert (0 < 2 ^ Zpos p) by (apply Z.pow_pos_nonneg; lia). nia.
    + replace (Zpos p~1) with (Zpos p + Zpos p + 1) by lia.
      rewrite !Z.pow_add_r by lia. change (2 ^ 1) with 2. ring.
  - replace (2 ^ Zpos p~0 * B) with (2 ^ Zpos p * (2 ^ Zpos p * B)).
    + apply IH; [| now apply IH].
      assert (0 < 2 ^ Zpos p) by (apply Z.pow_pos_nonneg; lia). nia.
    + replace (Zpos p~0) with (Zpos p + Zpos p) by lia.
      rewrite !Z.pow_add_r by lia. ring.
  - change (2 ^ 1) with 2. now apply shr_1_located.
Qed.

Lemma shr_located (A B : Z) (mrs : shr_record) (e n : Z) :
  0 < B -> located A B mrs ->
  snd (shr mrs e n) = e + Z.max n 0
  /\ located A (2 ^ Z.max n 0 * B) (fst (shr mrs e n)).
Proof.
  intros HB H. unfold shr. destruct n as [| p | p]; cbn [fst snd].
  - split; [lia |]. change (2 ^ Z.max 0 0) with 1. now rewrite Z.mul_1_l.
  - rewrite Z.max_l by lia. split; [reflexivity |]. now apply iter_shr_1_located.
  - rewrite Z.max_r by lia. split; [lia |]. change (2 ^ 0) with 1. now rewrite Z.mul_1_l.
Qed.

Lemma between_multiples (B c m A : Z) :
  0 < B -> A = c * B -> m * B <= A < (m + 1) * B -> c = m.
Proof.
  intros HB E H.
  assert (c < m + 1) by (apply (Z.mul_lt_mono_pos_r B); lia).
  assert (m < c + 1) by (apply (Z.mul_lt_mono_pos_r B); lia).
  lia.
Qed.

Lemma round_nearest_even_located (A B : Z) (mrs : shr_record) :
  0 < B -> located A B mrs ->
  shr_m mrs <= round_nearest_even (shr_m mrs) (loc_of_shr_record mrs) <= shr_m mrs + 1
  /\ 2 * Z.abs (round_nearest_even (shr_m mrs) (loc_of_shr_record mrs) * B - A) <= B
  /\ (forall c, A = c * B -> round_nearest_even (shr_m mrs) (loc_of_shr_record mrs) = c).
Proof.
  intros HB (Hm & HA & Hl). rewrite Hl. unfold place, round_nearest_even.
  destruct (Z.eqb_spec A (shr_m mrs * B)) as [E | E].
  - split; [lia |]. split; [lia |]. intros c Hc.
    symmetry. exact (@between_multiples B c (shr_m mrs) A HB Hc HA).
  - assert (Hc : forall c, A = c * B -> False).
    { intros c Hc. apply E. now rewrite <- (@between_multiples B c (shr_m mrs) A HB Hc HA). }
    destruct (Z.compare_spec (2 * A) ((2 * shr_m mrs + 1) * B)) as [E' | E' | E'].
    + destruct (Z.even (shr_m mrs)); (split; [lia |]; split; [lia |]);
        intros c Hc'; now destruct (Hc c).
    + split; [lia |]. split; [lia |]. intros c Hc'; now destruct (Hc c).
    + split; [lia |]. split; [lia |]. intros c Hc'; now destruct (Hc c).
Qed.

End Nearest.

Section NearestAux.

Import Reference.

Local Open Scope Z_scope.

Lemma Zdigits2_bounds (m : Z) :
  0 < m -> 0 < Zdigits2 m /\ 2 ^ (Zdigits2 m - 1) <= m < 2 ^ Zdigits2 m.
Proof.
  intro H. destruct m as [| p | p]; try lia. cbn [Zdigits2].
  split; [lia | apply digits2_pos_bounds].
Qed.

Lemma Zdigits2_unique (m k : Z) :
  0 < m -> 2 ^ (k - 1) <= m < 2 ^ k -> Zdigits2 m = k.
Proof.
  intros Hm [Hlow Hhigh]. destruct (@Zdigits2_bounds m Hm) as (Hd & Hl & Hh).
  assert (Hk : 0 <= k).
  { destruct (Z.leb_spec 0 k); [assumption |]. rewrite Z.pow_neg_r in Hhigh by lia. lia. }
  assert (k - 1 < Zdigits2 m).
  { apply (Z.pow_lt_mono_r_iff 2); lia. }
  assert (Zdigits2 m - 1 < k).
  { apply (Z.pow_lt_mono_r_iff 2); lia. }
  lia.
Qed.

Variables prec emax : Z.
Hypothesis prec_positive : 0 < prec.

Abbreviation emin := (SpecFloat.emin prec emax).
Abbreviation fexp := (SpecFloat.fexp prec emax).

(** What [binary_round_aux] answers for the fraction [A / B], counted
    in units of [2 ^ e], whose whole part is [m]: the multiple [m2] of
    the spacing [2 ^ (e1 - e)] that is nearest to it. *)
Lemma binary_round_aux_nearest (s : bool) (A B m e : Z) :
  0 < B -> 0 <= m -> m * B <= A < (m + 1) * B ->
  exists m2,
    0 <= m2 <= 2 ^ prec
    /\ 2 * Z.abs (m2 * (2 ^ (Z.max e (fexp (Zdigits2 m + e)) - e) * B) - A)
       <= 2 ^ (Z.max e (fexp (Zdigits2 m + e)) - e) * B
    /\ (forall c, A = c * (2 ^ (Z.max e (fexp (Zdigits2 m + e)) - e) * B) -> m2 = c)
    /\ (m2 = 0 -> binary_round_aux prec emax s m e (place A B m) = S754_zero s)
    /\ (0 < m2 ->
        exists m3 e3,
          Zpos m3 * 2 ^ (e3 - Z.max e (fexp (Zdigits2 m + e))) = m2
          /\ Z.max e (fexp (Zdigits2 m + e)) <= e3 <= Z.max e (fexp (Zdigits2 m + e)) + 1
          /\ (e3 = Z.max e (fexp (Zdigits2 m + e)) + 1 -> m2 = 2 ^ prec)
          /\ binary_round_aux prec emax s m e (place A B m)
             = if e3 <=? emax - prec then S754_finite s m3 e3 else S754_infinity s).
Proof.
  intros HB Hm HA.
  set (e1 := Z.max e (fexp (Zdigits2 m + e))).
  assert (He1 : emin <= e1) by (unfold e1, SpecFloat.fexp; lia).
  unfold binary_round_aux, shr_fexp.
  set (n := fexp (Zdigits2 m + e) - e).
  pose proof (@shr_located A B (shr_record_of_loc m (place A B m)) e n HB
                (@located_of_loc A B m Hm HA)) as [Hexp Hloc].
  destruct (shr (shr_record_of_loc m (place A B m)) e n) as [mrs' e']. cbn [fst snd] in Hexp, Hloc.
  assert (Ee : e + Z.max n 0 = e1) by (unfold e1, n; lia).
  rewrite Ee in Hexp. subst e'.
  replace (Z.max n 0) with (e1 - e) in Hloc by (unfold e1, n; lia). clear Ee.
  set (S := 2 ^ (e1 - e)) in *.
  assert (HS : 0 < S) by (apply Z.pow_pos_nonneg; unfold e1; lia).
  assert (HSB : 0 < S * B) by (apply Z.mul_pos_pos; assumption).
  pose proof (@round_nearest_even_located A (S * B) mrs' HSB Hloc) as (Hm2 & Herr & Hexact).
  set (m2 := round_nearest_even (shr_m mrs') (loc_of_shr_record mrs')) in *.
  destruct Hloc as (Hm1 & HA1 & _).
  assert (Hm1' : shr_m mrs' < 2 ^ prec).
  { destruct (Z.ltb_spec (shr_m mrs') (2 ^ prec)) as [| Hge]; [assumption | exfalso].
    assert (Hlt : shr_m mrs' * S < m + 1).
    { apply (Z.mul_lt_mono_pos_r B); [assumption |]. lia. }
    assert (Hpos : 0 < m).
    { assert (0 < 2 ^ prec) by (apply Z.pow_pos_nonneg; lia). nia. }
    destruct (@Zdigits2_bounds m Hpos) as (Hd & _ & Hh).
    assert (Hpow : 2 ^ (prec + (e1 - e)) < 2 ^ Zdigits2 m).
    { rewrite Z.pow_add_r by (unfold e1; lia). fold S. nia. }
    apply Z.pow_lt_mono_r_iff in Hpow; [| lia | lia].
    unfold e1, SpecFloat.fexp in Hpow. lia. }
  exists m2. split; [lia |]. split; [exact Herr |]. split; [exact Hexact |].
  assert (Hsecond : e1 < fexp (Zdigits2 m2 + e1) -> 2 ^ prec <= m2).
  { intro Hn2. destruct (Z.ltb_spec m2 (2 ^ prec)) as [Hlt | ]; [exfalso | assumption].
    destruct (Z.eqb_spec m2 0) as [E0 | E0].
    - rewrite E0 in Hn2. cbn [Zdigits2] in Hn2. unfold SpecFloat.fexp in Hn2. lia.
    - assert (Hpos : 0 < m2) by lia.
      destruct (@Zdigits2_bounds m2 Hpos) as (Hd & Hl & _).
      assert (Hpow : 2 ^ (Zdigits2 m2 - 1) < 2 ^ prec) by lia.
      apply Z.pow_lt_mono_r_iff in Hpow; [| lia | lia].
      unfold SpecFloat.fexp in Hn2. lia. }
  split.
  - intro E0. rewrite E0. cbn [Zdigits2]. unfold shr.
    destruct (fexp (0 + e1) - e1) as [| p | p] eqn:En; cbn [shr_record_of_loc shr_m];
      try reflexivity.
    exfalso. unfold SpecFloat.fexp in En. lia.
  - intro Hpos.
    destruct (Z.ltb_spec m2 (2 ^ prec)) as [Hlt | Hge].
    + exists (Z.to_pos m2), e1.
      rewrite Z.sub_diag, Z.mul_1_r, Z2Pos.id by assumption.
      split; [reflexivity |]. split; [lia |]. split; [lia |].
      unfold shr.
      destruct (fexp (Zdigits2 m2 + e1) - e1) as [| p | p] eqn:En;
        cbn [shr_record_of_loc shr_m]; destruct m2; try lia; reflexivity.
    + assert (E2 : m2 = 2 ^ prec) by lia.
      assert (Ed : Zdigits2 m2 = prec + 1).
      { apply Zdigits2_unique; [assumption |]. rewrite E2.
        replace (prec + 1 - 1) with prec by lia. split; [lia |].
        apply Z.pow_lt_mono_r; lia. }
      exists (Z.to_pos (2 ^ (prec - 1))), (e1 + 1).
      assert (Hhalf : 0 < 2 ^ (prec - 1)) by (apply Z.pow_pos_nonneg; lia).
      assert (Hdouble : 2 ^ prec = 2 * 2 ^ (prec - 1)).
      { replace prec with (1 + (prec - 1)) at 1 by lia. rewrite Z.pow_add_r by lia. reflexivity. }
      rewrite Z2Pos.id by assumption.
      replace (e1 + 1 - e1) with 1 by lia. change (2 ^ 1) with 2.
      split; [lia |]. split; [lia |]. split; [intros _; exact E2 |].
      rewrite Ed. unfold shr.
      replace (fexp (prec + 1 + e1) - e1) with 1 by (unfold SpecFloat.fexp; lia).
      cbn [SpecFloat.iter_pos shr_record_of_loc].
      rewrite shr_1_mantissa by (cbn [shr_m]; lia). cbn [shr_m].
      rewrite E2, Hdouble, Z.div2_spec, Z.shiftr_div_pow2 by lia.
      change (2 ^ 1) with 2. rewrite Z.mul_comm, Z.div_mul by lia.
      destruct (2 ^ (prec - 1)) eqn:Ep; try lia. reflexivity.
Qed.

End NearestAux.

Section NearestRank.

Import Reference.

Local Open Scope Z_scope.

Lemma Zdigits2_shift (m k : Z) :
  0 < m -> 0 <= k -> Zdigits2 (m * 2 ^ k) = Zdigits2 m + k.
Proof.
  intros Hm Hk. destruct (@Zdigits2_bounds m Hm) as (Hd & Hl & Hh).
  assert (Hp : 0 < 2 ^ k) by (apply Z.pow_pos_nonneg; lia).
  apply Zdigits2_unique; [nia |].
  replace (Zdigits2 m + k - 1) with (Zdigits2 m - 1 + k) by lia.
  rewrite !Z.pow_add_r by lia. nia.
Qed.

Lemma Zdigits2_log2 (m : Z) : 0 < m -> Z.log2 m = Zdigits2 m - 1.
Proof.
  intro Hm. destruct (@Zdigits2_bounds m Hm) as (Hd & Hl & Hh).
  apply Z.log2_unique; [lia |]. unfold Z.succ.
  replace (Zdigits2 m - 1 + 1) with (Zdigits2 m) by lia. lia.
Qed.

Lemma shl_align_mantissa (m : positive) (e e' : Z) :
  Zpos (fst (shl_align m e e')) = Zpos m * 2 ^ (e - Z.min e e').
Proof.
  destruct (Z.leb_spec e' e).
  - rewrite Z.min_r by lia. now apply shl_align_value.
  - rewrite Z.min_l, Z.sub_diag by lia. unfold shl_align.
    destruct (e' - e) eqn:E; try lia; cbn [fst]; lia.
Qed.

Lemma spacing_positive (T : Z) : 0 < spacing T.
Proof. unfold spacing. apply Z.pow_pos_nonneg; lia. Qed.

Lemma spacing_opp (T : Z) : spacing (- T) = spacing T.
Proof. unfold spacing. now rewrite Z.abs_opp. Qed.

Lemma spacing_of_digits (T : Z) :
  0 < T -> spacing T = 2 ^ Z.max 0 (Zdigits2 T - 53).
Proof.
  intro H. unfold spacing. rewrite Z.abs_eq, Zdigits2_log2 by lia. f_equal. lia.
Qed.

(** The nearest number to [T] units: within half a spacing of [T], a
    multiple of the spacing, and [T] itself when [T] is one. *)
Lemma binary_round_rank (s : bool) (M : positive) (ez : Z) :
  -1074 <= ez -> Zpos (digits2_pos M) + ez <= 1023 ->
  exists R,
    0 <= R
    /\ 2 * Z.abs (R - Zpos M * 2 ^ (ez + 1074)) <= spacing (Zpos M * 2 ^ (ez + 1074))
    /\ (forall c, Zpos M * 2 ^ (ez + 1074) = c * spacing (Zpos M * 2 ^ (ez + 1074)) ->
        R = Zpos M * 2 ^ (ez + 1074))
    /\ rank (binary_round prec emax s M ez) = cond_Zopp s R
    /\ SFfinite (binary_round prec emax s M ez) = true.
Proof.
  intros Hez Hd.
  remember (Zpos (digits2_pos M) + ez) as d eqn:Ed.
  set (T := Zpos M * 2 ^ (ez + 1074)).
  assert (HT : 0 < T) by (apply Z.mul_pos_pos; [lia | apply Z.pow_pos_nonneg; lia]).
  assert (Hspacing : spacing T = 2 ^ (SpecFloat.fexp prec emax d + 1074)).
  { rewrite spacing_of_digits by assumption. unfold T.
    rewrite Zdigits2_shift by lia. cbn [Zdigits2]. f_equal.
    unfold SpecFloat.fexp, SpecFloat.emin. change prec with 53. change emax with 1024. lia. }
  rewrite Hspacing.
  unfold binary_round.
  pose proof (shl_align_mantissa M ez (SpecFloat.fexp prec emax d)) as Hmz.
  pose proof (shl_align_exponent M ez (SpecFloat.fexp prec emax d)) as Hez'.
  rewrite <- Ed. destruct (shl_align M ez (SpecFloat.fexp prec emax d)) as [mz ez'].
  cbn [fst snd] in Hmz, Hez'.
  assert (Hfexp : -1074 <= SpecFloat.fexp prec emax d <= 970).
  { unfold SpecFloat.fexp, SpecFloat.emin. change prec with 53. change emax with 1024. lia. }
  assert (Hdz : Zdigits2 (Zpos mz) + ez' = d).
  { rewrite Hmz, Zdigits2_shift by lia. cbn [Zdigits2]. lia. }
  assert (Hplace : place (Zpos mz) 1 (Zpos mz) = loc_Exact).
  { unfold place. now rewrite Z.mul_1_r, Z.eqb_refl. }
  rewrite <- Hplace.
  destruct (@binary_round_aux_nearest prec emax eq_refl s (Zpos mz) 1 (Zpos mz) ez')
    as (m2 & Hm2 & Herr & Hexact & Hzero & Hpos); [lia | lia | lia |].
  rewrite Hdz in Herr, Hexact, Hpos.
  replace (Z.max ez' (SpecFloat.fexp prec emax d)) with (SpecFloat.fexp prec emax d)
    in Herr, Hexact, Hpos by lia.
  set (e1 := SpecFloat.fexp prec emax d) in *.
  set (S := 2 ^ (e1 - ez')) in *.
  set (U := 2 ^ (ez' + 1074)).
  assert (HS : 0 < S) by (apply Z.pow_pos_nonneg; lia).
  assert (HU : 0 < U) by (apply Z.pow_pos_nonneg; lia).
  assert (HSU : 2 ^ (e1 + 1074) = S * U).
  { unfold S, U. rewrite <- Z.pow_add_r by lia. f_equal. lia. }
  assert (HTU : T = Zpos mz * U).
  { unfold T, U. rewrite Hmz, <- Z.mul_assoc, <- Z.pow_add_r by lia. do 2 f_equal. lia. }
  exists (m2 * 2 ^ (e1 + 1074)).
  split; [apply Z.mul_nonneg_nonneg; [lia | apply Z.pow_nonneg; lia] |].
  split.
  { rewrite HSU, HTU.
    replace (m2 * (S * U) - Zpos mz * U) with ((m2 * (S * 1) - Zpos mz) * U) by ring.
    rewrite Z.abs_mul, (Z.abs_eq U) by lia. nia. }
  split.
  { intros c Hc. rewrite HSU, HTU in *.
    assert (E : Zpos mz = c * (S * 1)) by nia.
    rewrite (Hexact c E). nia. }
  destruct (Z.eqb_spec m2 0) as [E0 | E0].
  - rewrite (Hzero E0), E0. cbn [rank SFfinite]. split; [destruct s; reflexivity | reflexivity].
  - destruct Hpos as (m3 & e3 & Hm3 & He3 & _ & Hresult); [lia |].
    rewrite Hresult.
    replace (e3 <=? emax - prec) with true
      by (symmetry; apply Z.leb_le; change (emax - prec) with 971; lia).
    cbn [rank SFfinite]. split; [| reflexivity]. f_equal.
    rewrite <- Hm3, <- Z.mul_assoc, <- Z.pow_add_r by lia. do 2 f_equal. lia.
Qed.

(** The same for [binary_normalize], whose argument is signed. *)
Lemma binary_normalize_rank (M ez : Z) :
  -1074 <= ez -> Z.abs M * 2 ^ (ez + 1074) < 2 ^ 2097 ->
  2 * Z.abs (rank (binary_normalize prec emax M ez false) - M * 2 ^ (ez + 1074))
  <= spacing (M * 2 ^ (ez + 1074))
  /\ (forall c, M * 2 ^ (ez + 1074) = c * spacing (M * 2 ^ (ez + 1074)) ->
      rank (binary_normalize prec emax M ez false) = M * 2 ^ (ez + 1074))
  /\ SFfinite (binary_normalize prec emax M ez false) = true.
Proof.
  intros Hez Hbound.
  assert (HU : 0 < 2 ^ (ez + 1074)) by (apply Z.pow_pos_nonneg; lia).
  assert (Hdigits : forall p, Zpos p * 2 ^ (ez + 1074) < 2 ^ 2097 ->
                              Zpos (digits2_pos p) + ez <= 1023).
  { intros p Hp. pose proof (digits2_pos_bounds p) as [Hl _].
    assert (Hpow : 2 ^ (Zpos (digits2_pos p) - 1 + (ez + 1074)) < 2 ^ 2097).
    { rewrite Z.pow_add_r by lia. nia. }
    apply Z.pow_lt_mono_r_iff in Hpow; lia. }
  destruct M as [| p | p]; cbn [binary_normalize].
  - cbn [rank SFfinite]. rewrite Z.mul_0_l. pose proof (spacing_positive 0).
    split; [cbn; lia |]. split; [reflexivity | reflexivity].
  - destruct (@binary_round_rank false p ez Hez (Hdigits p Hbound))
      as (R & HR & Herr & Hexact & Hrank & Hfinite).
    rewrite Hrank. cbn [cond_Zopp]. split; [exact Herr |]. split; [exact Hexact | exact Hfinite].
  - destruct (@binary_round_rank true p ez Hez (Hdigits p Hbound))
      as (R & HR & Herr & Hexact & Hrank & Hfinite).
    rewrite Hrank. cbn [cond_Zopp].
    replace (Zneg p * 2 ^ (ez + 1074)) with (- (Zpos p * 2 ^ (ez + 1074))) by lia.
    rewrite spacing_opp. split; [lia |]. split; [| exact Hfinite].
    intros c Hc. rewrite (Hexact (- c)); lia.
Qed.

End NearestRank.

Section Operations.

Import Reference.

Local Open Scope Z_scope.

Lemma rank_finite (s : bool) (m : positive) (e : Z) :
  rank (S754_finite s m e) = cond_Zopp s (Zpos m * 2 ^ (e + 1074)).
Proof. reflexivity. Qed.

Lemma cond_Zopp_mul (s : bool) (a b : Z) : cond_Zopp s a * b = cond_Zopp s (a * b).
Proof. destruct s; cbn [cond_Zopp]; lia. Qed.

Lemma valid_exponent (s : bool) (m : positive) (e : Z) :
  valid_binary (S754_finite s m e) = true ->
  -1074 <= e <= 971 /\ Zpos (digits2_pos m) <= 53 /\ (-1074 < e -> Zpos (digits2_pos m) = 53).
Proof.
  cbn [valid_binary]. intro H.
  pose proof (@bounded_exponent prec emax m e H) as (H1 & H2 & H3).
  unfold bounded in H. apply andb_prop in H. destruct H as [_ H4]. apply Z.leb_le in H4.
  change (SpecFloat.emin prec emax) with (-1074) in *. change prec with 53 in *.
  change (emax - 53) with 971 in *. lia.
Qed.

Lemma aligned_rank (s : bool) (m : positive) (e ez : Z) :
  -1074 <= ez <= e ->
  cond_Zopp s (Zpos (fst (shl_align m e ez))) * 2 ^ (ez + 1074)
  = rank (S754_finite s m e).
Proof.
  intro H. rewrite shl_align_value, rank_finite, cond_Zopp_mul by lia. f_equal.
  rewrite <- Z.mul_assoc, <- Z.pow_add_r by lia. do 2 f_equal. lia.
Qed.

Lemma exact_is_nearest (T : Z) :
  2 * Z.abs (T - T) <= spacing T /\ (forall c : Z, T = c * spacing T -> T = T).
Proof.
  pose proof (spacing_positive T). rewrite Z.sub_diag. cbn [Z.abs]. split; [lia | reflexivity].
Qed.

(** Subtraction and addition answer the number nearest to the exact
    result, which is a whole number of units. *)
Lemma SFsub_rank (x y : spec_float) :
  valid_binary x = true -> valid_binary y = true ->
  SFfinite x = true -> SFfinite y = true ->
  Z.abs (rank x - rank y) < 2 ^ 2097 ->
  2 * Z.abs (rank (SFsub prec emax x y) - (rank x - rank y)) <= spacing (rank x - rank y)
  /\ (forall c, rank x - rank y = c * spacing (rank x - rank y) ->
      rank (SFsub prec emax x y) = rank x - rank y)
  /\ SFfinite (SFsub prec emax x y) = true.
Proof.
  intros Vx Vy Fx Fy Hbound.
  destruct x as [sx | sx | | sx mx ex]; try discriminate;
    destruct y as [sy | sy | | sy my ey]; try discriminate.
  - replace (SFsub prec emax (S754_zero sx) (S754_zero sy)) with (S754_zero (sx && negb sy)%bool)
      by (destruct sx, sy; reflexivity).
    cbn [rank SFfinite]. split; [| split; [| reflexivity]]; apply (exact_is_nearest 0).
  - cbn [SFsub SFfinite]. rewrite !rank_finite. cbn [rank].
    replace (cond_Zopp (negb sy) (Zpos my * 2 ^ (ey + 1074)))
      with (0 - cond_Zopp sy (Zpos my * 2 ^ (ey + 1074))) by (destruct sy; cbn; lia).
    split; [| split; [| reflexivity]]; apply exact_is_nearest.
  - cbn [SFsub SFfinite]. cbn [rank]. rewrite Z.sub_0_r.
    split; [| split; [| reflexivity]]; apply exact_is_nearest.
  - apply valid_exponent in Vx, Vy. unfold SFsub.
    set (ez := Z.min ex ey).
    set (M := cond_Zopp sx (Zpos (fst (shl_align mx ex ez)))
              - cond_Zopp sy (Zpos (fst (shl_align my ey ez)))).
    assert (HM : M * 2 ^ (ez + 1074) = rank (S754_finite sx mx ex) - rank (S754_finite sy my ey)).
    { unfold M. rewrite Z.mul_sub_distr_r, !aligned_rank by (unfold ez; lia). reflexivity. }
    rewrite <- HM in *.
    apply binary_normalize_rank; [unfold ez; lia |].
    rewrite <- (Z.abs_eq (2 ^ (ez + 1074))), <- Z.abs_mul by (apply Z.pow_nonneg; lia).
    exact Hbound.
Qed.

Lemma SFadd_rank (x y : spec_float) :
  valid_binary x = true -> valid_binary y = true ->
  SFfinite x = true -> SFfinite y = true ->
  Z.abs (rank x + rank y) < 2 ^ 2097 ->
  2 * Z.abs (rank (SFadd prec emax x y) - (rank x + rank y)) <= spacing (rank x + rank y)
  /\ (forall c, rank x + rank y = c * spacing (rank x + rank y) ->
      rank (SFadd prec emax x y) = rank x + rank y)
  /\ SFfinite (SFadd prec emax x y) = true.
Proof.
  intros Vx Vy Fx Fy Hbound.
  destruct x as [sx | sx | | sx mx ex]; try discriminate;
    destruct y as [sy | sy | | sy my ey]; try discriminate.
  - replace (SFadd prec emax (S754_zero sx) (S754_zero sy)) with (S754_zero (sx && sy)%bool)
      by (destruct sx, sy; reflexivity).
    cbn [rank SFfinite]. split; [| split; [| reflexivity]]; apply (exact_is_nearest 0).
  - cbn [SFadd SFfinite]. cbn [rank]. rewrite Z.add_0_l.
    split; [| split; [| reflexivity]]; apply exact_is_nearest.
  - cbn [SFadd SFfinite]. cbn [rank]. rewrite Z.add_0_r.
    split; [| split; [| reflexivity]]; apply exact_is_nearest.
  - apply valid_exponent in Vx, Vy. unfold SFadd.
    set (ez := Z.min ex ey).
    set (M := cond_Zopp sx (Zpos (fst (shl_align mx ex ez)))
              + cond_Zopp sy (Zpos (fst (shl_align my ey ez)))).
    assert (HM : M * 2 ^ (ez + 1074) = rank (S754_finite sx mx ex) + rank (S754_finite sy my ey)).
    { unfold M. rewrite Z.mul_add_distr_r, !aligned_rank by (unfold ez; lia). reflexivity. }
    rewrite <- HM in *.
    apply binary_normalize_rank; [unfold ez; lia |].
    rewrite <- (Z.abs_eq (2 ^ (ez + 1074))), <- Z.abs_mul by (apply Z.pow_nonneg; lia).
    exact Hbound.
Qed.

End Operations.

Section Products.

Import Reference.

Local Open Scope Z_scope.

Lemma Zdigits2_mono (a b : Z) : 0 < a <= b -> Zdigits2 a <= Zdigits2 b.
Proof.
  intros [Ha Hab].
  destruct (@Zdigits2_bounds a Ha) as (Hda & Hl & _).
  destruct (@Zdigits2_bounds b ltac:(lia)) as (Hdb & _ & Hh).
  assert (Hpow : 2 ^ (Zdigits2 a - 1) < 2 ^ Zdigits2 b) by lia.
  apply Z.pow_lt_mono_r_iff in Hpow; lia.
Qed.

Lemma nonnegative_rank (s : bool) (m : positive) (e : Z) :
  -1074 <= e -> 0 <= rank (S754_finite s m e) -> s = false.
Proof.
  intros He H. destruct s; [exfalso | reflexivity]. cbn [rank cond_Zopp] in H.
  assert (0 < Zpos m * 2 ^ (e + 1074))
    by (apply Z.mul_pos_pos; [lia | apply Z.pow_pos_nonneg; lia]).
  lia.
Qed.

(** The product of two numbers that are not negative, when it is below
    [2 ^ k]: within [2 ^ (k - 54)] of the exact product.  The ranks are
    multiplied in units of [2^-2148]. *)
Lemma SFmul_rank (x y : spec_float) (k : Z) :
  valid_binary x = true -> valid_binary y = true ->
  SFfinite x = true -> SFfinite y = true ->
  0 <= rank x -> 0 <= rank y ->
  rank x * rank y < 2 ^ (k + 2148) -> -1021 <= k <= 1023 ->
  SFfinite (SFmul prec emax x y) = true
  /\ 0 <= rank (SFmul prec emax x y)
  /\ 2 * Z.abs (rank (SFmul prec emax x y) * 2 ^ 1074 - rank x * rank y) <= 2 ^ (k + 2095).
Proof.
  intros Vx Vy Fx Fy Px Py Hbound Hk.
  assert (Hzero : forall s, SFfinite (S754_zero s) = true
                            /\ 0 <= rank (S754_zero s)
                            /\ 2 * Z.abs (rank (S754_zero s) * 2 ^ 1074 - 0) <= 2 ^ (k + 2095)).
  { intro s. cbn [SFfinite rank]. split; [reflexivity |]. split; [lia |].
    cbn [Z.mul Z.sub Z.abs Z.opp]. apply Z.pow_nonneg. lia. }
  destruct x as [sx | sx | | sx mx ex]; try discriminate;
    destruct y as [sy | sy | | sy my ey]; try discriminate;
    try (cbn [SFmul]; cbn [rank] in *; rewrite ?Z.mul_0_l, ?Z.mul_0_r; apply Hzero).
  apply valid_exponent in Vx, Vy.
  rewrite (@nonnegative_rank sx mx ex) in * by (assumption || lia).
  rewrite (@nonnegative_rank sy my ey) in * by (assumption || lia).
  cbn [SFmul xorb]. rewrite !rank_finite in *. cbn [cond_Zopp] in *.
  rewrite Pos2Z.inj_mul.
  set (A := Zpos mx * Zpos my) in *. set (e := ex + ey) in *.
  assert (HA : 0 < A) by (unfold A; lia).
  assert (Hproduct : Zpos mx * 2 ^ (ex + 1074) * (Zpos my * 2 ^ (ey + 1074)) = A * 2 ^ (e + 2148)).
  { unfold A, e. replace (ex + ey + 2148) with ((ex + 1074) + (ey + 1074)) by lia.
    rewrite (Z.pow_add_r 2 (ex + 1074) (ey + 1074)) by lia. ring. }
  rewrite Hproduct in *.
  destruct (@Zdigits2_bounds A HA) as (Hd & Hl & Hh).
  assert (Hdelta : Zdigits2 A + e <= k).
  { assert (Hpow : 2 ^ (Zdigits2 A - 1 + (e + 2148)) < 2 ^ (k + 2148)).
    { rewrite Z.pow_add_r by (unfold e; lia).
      assert (0 < 2 ^ (e + 2148)) by (apply Z.pow_pos_nonneg; unfold e; lia). nia. }
    apply Z.pow_lt_mono_r_iff in Hpow; lia. }
  assert (Hshift : e <= SpecFloat.fexp prec emax (Zdigits2 A + e)).
  { unfold SpecFloat.fexp. change (SpecFloat.emin prec emax) with (-1074). change prec with 53.
    assert (Hx : Zdigits2 (Zpos mx) <= Zdigits2 A) by (apply Zdigits2_mono; unfold A; nia).
    assert (Hy : Zdigits2 (Zpos my) <= Zdigits2 A) by (apply Zdigits2_mono; unfold A; nia).
    cbn [Zdigits2] in Hx, Hy. unfold e. lia. }
  assert (Hplace : place A 1 A = loc_Exact).
  { unfold place. now rewrite Z.mul_1_r, Z.eqb_refl. }
  rewrite <- Hplace.
  destruct (@binary_round_aux_nearest prec emax eq_refl false A 1 A e)
    as (m2 & Hm2 & Herr & _ & Hzero' & Hpos); [lia | lia | lia |].
  rewrite Z.max_r in Herr, Hpos by assumption.
  set (e1 := SpecFloat.fexp prec emax (Zdigits2 A + e)) in *.
  assert (He1 : -1074 <= e1 <= k - 53).
  { unfold e1, SpecFloat.fexp. change (SpecFloat.emin prec emax) with (-1074).
    change prec with 53. lia. }
  set (S := 2 ^ (e1 - e)) in *.
  assert (HS : 0 < S) by (apply Z.pow_pos_nonneg; lia).
  set (W := 2 ^ (e + 2148)) in *.
  assert (HW : 0 < W) by (apply Z.pow_pos_nonneg; unfold e; lia).
  assert (HSW : 2 ^ (e1 + 1074) * 2 ^ 1074 = S * W).
  { unfold S, W. rewrite <- !Z.pow_add_r by (unfold e; lia). f_equal. lia. }
  assert (Hgoal : forall R, R = m2 * 2 ^ (e1 + 1074) ->
                            0 <= R /\ 2 * Z.abs (R * 2 ^ 1074 - A * W) <= 2 ^ (k + 2095)).
  { intros R ->. split; [apply Z.mul_nonneg_nonneg; [lia | apply Z.pow_nonneg; lia] |].
    rewrite <- Z.mul_assoc, HSW.
    replace (m2 * (S * W) - A * W) with ((m2 * (S * 1) - A) * W) by ring.
    rewrite Z.abs_mul, (Z.abs_eq W) by lia.
    assert (Hle : S * W <= 2 ^ (k + 2095)).
    { rewrite <- HSW, <- Z.pow_add_r by lia. apply Z.pow_le_mono_r; lia. }
    nia. }
  destruct (Z.eqb_spec m2 0) as [E0 | E0].
  - rewrite (Hzero' E0). cbn [SFfinite rank]. split; [reflexivity |].
    apply Hgoal. lia.
  - destruct Hpos as (m3 & e3 & Hm3 & He3 & _ & Hresult); [lia |].
    rewrite Hresult.
    replace (e3 <=? emax - prec) with true
      by (symmetry; apply Z.leb_le; change (emax - prec) with 971; lia).
    cbn [SFfinite]. split; [reflexivity |]. rewrite rank_finite. cbn [cond_Zopp].
    apply Hgoal.
    rewrite <- Hm3, <- Z.mul_assoc, <- Z.pow_add_r by lia. do 2 f_equal. lia.
Qed.

Lemma new_location_place (A B q r : Z) :
  0 < B -> A = B * q + r -> 0 <= r < B -> new_location B r = place A B q.
Proof.
  intros HB HA Hr. unfold new_location, place.
  destruct (Z.even B) eqn:Heven; unfold new_location_even, new_location_odd;
    destruct (Z.eqb_spec r 0) as [E | E].
  - replace (A =? q * B) with true by (symmetry; apply Z.eqb_eq; lia). reflexivity.
  - replace (A =? q * B) with false by (symmetry; apply Z.eqb_neq; lia).
    f_equal. destruct (Z.compare_spec (2 * r) B);
      destruct (Z.compare_spec (2 * A) ((2 * q + 1) * B)); try reflexivity; lia.
  - replace (A =? q * B) with true by (symmetry; apply Z.eqb_eq; lia). reflexivity.
  - replace (A =? q * B) with false by (symmetry; apply Z.eqb_neq; lia).
    assert (Hodd : Z.odd B = true) by (rewrite <- Z.negb_even, Heven; reflexivity).
    apply Z.odd_spec in Hodd. destruct Hodd as [b Hb].
    f_equal. destruct (Z.compare_spec (2 * r + 1) B);
      destruct (Z.compare_spec (2 * A) ((2 * q + 1) * B)); try reflexivity; lia.
Qed.

Lemma quotient_exponent (a b P Q mx my k : Z) :
  0 < P -> 0 < Q -> 0 < 2 ^ k -> 0 <= a <= mx -> 0 < my < b ->
  mx * P < 2 ^ k * (my * Q) -> a * P < 2 ^ k * b * Q.
Proof.
  intros HP HQ HK Ha Hb Hbound.
  assert (H1 : a * P <= mx * P) by (apply Z.mul_le_mono_nonneg_r; lia).
  assert (H2 : 2 ^ k * (my * Q) <= 2 ^ k * (b * Q))
    by (apply Z.mul_le_mono_nonneg_l; [lia |]; apply Z.mul_le_mono_nonneg_r; lia).
  lia.
Qed.

Lemma quotient_digits (a q my m' W X Y C K : Z) :
  0 < my -> 0 < W -> 0 < C -> 0 <= a <= q -> q * my <= m' ->
  X * C = m' * W -> X < K * Y -> a * W * my < K * Y * C.
Proof.
  intros Hmy HW HC Ha Hq HX Hbound.
  assert (H1 : a * my <= q * my) by (apply Z.mul_le_mono_nonneg_r; lia).
  assert (H2 : a * my * W <= m' * W) by (apply Z.mul_le_mono_nonneg_r; lia).
  assert (H3 : X * C < K * Y * C) by (apply Z.mul_lt_mono_pos_r; assumption).
  lia.
Qed.

(** The quotient of a number that is not negative by a positive one,
    when it is below [2 ^ k]: within [2 ^ (k - 54)] of the exact
    quotient. *)
Lemma SFdiv_rank (x y : spec_float) (k : Z) :
  valid_binary x = true -> valid_binary y = true ->
  SFfinite x = true -> SFfinite y = true ->
  0 <= rank x -> 0 < rank y ->
  rank x < 2 ^ k * rank y -> 0 <= k <= 1023 ->
  SFfinite (SFdiv prec emax x y) = true
  /\ 0 <= rank (SFdiv prec emax x y)
  /\ 2 * Z.abs (rank (SFdiv prec emax x y) * rank y - rank x * 2 ^ 1074)
     <= 2 ^ (k + 1021) * rank y.
Proof.
  intros Vx Vy Fx Fy Px Py Hbound Hk.
  destruct y as [sy | sy | | sy my ey]; try discriminate.
  apply valid_exponent in Vy.
  rewrite (@nonnegative_rank sy my ey) in * by (lia || assumption).
  destruct x as [sx | sx | | sx mx ex]; try discriminate.
  { cbn [SFdiv SFfinite]. change (rank (S754_zero (xorb sx false))) with 0.
    change (rank (S754_zero sx)) with 0. split; [reflexivity |]. split; [lia |].
    assert (0 <= 2 ^ (k + 1021)) by (apply Z.pow_nonneg; lia).
    rewrite !Z.mul_0_l. cbn [Z.sub Z.add Z.opp Z.abs Z.mul].
    apply Z.mul_nonneg_nonneg; [assumption | lia]. }
  apply valid_exponent in Vx.
  rewrite (@nonnegative_rank sx mx ex) in * by (assumption || lia).
  rewrite !rank_finite in *. cbn [cond_Zopp] in *. clear Fx Fy Px Py.
  cbn [SFdiv xorb]. unfold SFdiv_core_binary. cbn [Zdigits2].
  set (d1 := Zpos (digits2_pos mx)) in *. set (d2 := Zpos (digits2_pos my)) in *.
  set (X := Zpos mx * 2 ^ (ex + 1074)) in *. set (Y := Zpos my * 2 ^ (ey + 1074)) in *.
  assert (HPx : 0 < 2 ^ (ex + 1074)) by (apply Z.pow_pos_nonneg; lia).
  assert (HPy : 0 < 2 ^ (ey + 1074)) by (apply Z.pow_pos_nonneg; lia).
  assert (HK : 0 < 2 ^ k) by (apply Z.pow_pos_nonneg; lia).
  assert (HC : 0 < 2 ^ 1074) by (apply Z.pow_pos_nonneg; lia).
  assert (HY : 0 < Y) by (apply Z.mul_pos_pos; [lia | assumption]).
  pose proof (digits2_pos_bounds mx) as [Hlx Hhx]. pose proof (digits2_pos_bounds my) as [Hly Hhy].
  fold d1 in Hlx, Hhx. fold d2 in Hly, Hhy.
  assert (Hd1 : 0 < d1) by (unfold d1; lia). assert (Hd2 : 0 < d2) by (unfold d2; lia).
  assert (Hd : d1 + ex - (d2 + ey) <= k).
  { assert (Hpow : 2 ^ (d1 - 1 + (ex + 1074)) < 2 ^ (k + d2 + (ey + 1074))).
    { rewrite (Z.pow_add_r 2 (d1 - 1) (ex + 1074)), (Z.pow_add_r 2 (k + d2) (ey + 1074)),
        (Z.pow_add_r 2 k d2) by (clear - Hk Vx Vy Hd1 Hd2; lia).
      apply quotient_exponent with (Zpos mx) (Zpos my); try assumption.
      - split; [apply Z.pow_nonneg; lia | assumption].
      - split; [lia | assumption]. }
    apply Z.pow_lt_mono_r_iff in Hpow; clear - Hpow Hk Vx Vy Hd1 Hd2; lia. }
  set (e' := Z.min (SpecFloat.fexp prec emax (d1 + ex - (d2 + ey))) (ex - ey)).
  assert (He' : e' <= k - 53 /\ e' <= ex - ey /\ 0 <= e' + ey + 2148).
  { unfold e', SpecFloat.fexp. change (SpecFloat.emin prec emax) with (-1074).
    change prec with 53. clear - Hd Hk Vx Vy. lia. }
  clearbody e'.
  set (s := ex - ey - e').
  assert (Hs : 0 <= s) by (unfold s; lia).
  set (m' := match s with Zpos _ => Z.shiftl (Zpos mx) s | 0 => Zpos mx | Zneg _ => 0 end).
  assert (Hm' : m' = Zpos mx * 2 ^ s).
  { unfold m'. destruct s as [| p | p] eqn:Es; [lia | | lia].
    apply Z.shiftl_mul_pow2. lia. }
  clearbody m'.
  pose proof (Z_div_mod m' (Zpos my) ltac:(lia)) as Hdiv.
  destruct (Z.div_eucl m' (Zpos my)) as [q r]. destruct Hdiv as [Hq Hr].
  rewrite (@new_location_place m' (Zpos my) q r) by (lia || assumption).
  assert (H2s : 0 < 2 ^ s) by (apply Z.pow_pos_nonneg; lia).
  assert (Hm'0 : 0 < m') by (rewrite Hm'; apply Z.mul_pos_pos; lia).
  assert (Hq0 : 0 <= q).
  { destruct (Z.leb_spec 0 q); [assumption | exfalso].
    assert (Zpos my * q <= Zpos my * (-1)) by (apply Z.mul_le_mono_nonneg_l; lia). lia. }
  assert (Hbracket : q * Zpos my <= m' < (q + 1) * Zpos my) by (clear - Hq Hr; lia).
  destruct (@binary_round_aux_nearest prec emax eq_refl false m' (Zpos my) q e')
    as (m2 & Hm2 & Herr & _ & Hzero & Hpos); [lia | lia | lia |].
  set (W := 2 ^ (e' + ey + 2148)).
  assert (HW : 0 < W) by (apply Z.pow_pos_nonneg; lia).
  assert (HX : X * 2 ^ 1074 = m' * W).
  { rewrite Hm'. unfold X, W. rewrite <- !Z.mul_assoc, <- !Z.pow_add_r by lia.
    do 2 f_equal. unfold s. lia. }
  assert (Hq' : Zdigits2 q + e' <= k).
  { destruct (Z.eqb_spec q 0) as [-> | Hq1]; [cbn [Zdigits2]; lia |].
    destruct (@Zdigits2_bounds q ltac:(lia)) as (Hdq & Hlq & _).
    assert (Hpow : 2 ^ (Zdigits2 q - 1 + (e' + ey + 2148)) < 2 ^ (k + (ey + 2148))).
    { rewrite (Z.pow_add_r 2 (Zdigits2 q - 1) (e' + ey + 2148)),
        (Z.pow_add_r 2 k (ey + 2148)) by (clear - Hk Vy He' Hdq; lia).
      fold W.
      apply (Z.mul_lt_mono_pos_r (Zpos my)); [lia |].
      replace (2 ^ k * 2 ^ (ey + 2148) * Zpos my) with (2 ^ k * Y * 2 ^ 1074).
      - apply quotient_digits with q m' X; try assumption; lia.
      - unfold Y. replace (ey + 2148) with (ey + 1074 + 1074) by lia.
        rewrite (Z.pow_add_r 2 (ey + 1074) 1074) by lia. ring. }
    apply Z.pow_lt_mono_r_iff in Hpow; clear - Hpow Hk Vy He' Hdq; lia. }
  set (e1 := Z.max e' (SpecFloat.fexp prec emax (Zdigits2 q + e'))) in *.
  assert (He1 : -1074 <= e1 <= k - 53 /\ e' <= e1).
  { unfold e1, SpecFloat.fexp. change (SpecFloat.emin prec emax) with (-1074).
    change prec with 53. clear - Hq' He' Hk. lia. }
  clearbody e1.
  set (S := 2 ^ (e1 - e')) in *.
  assert (HS : 0 < S) by (apply Z.pow_pos_nonneg; lia).
  assert (HSW : 2 ^ (e1 + 1074) * 2 ^ (ey + 1074) = S * W).
  { unfold S, W. rewrite <- !Z.pow_add_r by lia. f_equal. lia. }
  assert (Hgoal : forall R, R = m2 * 2 ^ (e1 + 1074) ->
            0 <= R /\ 2 * Z.abs (R * Y - X * 2 ^ 1074) <= 2 ^ (k + 1021) * Y).
  { intros R ->. split; [apply Z.mul_nonneg_nonneg; [lia | apply Z.pow_nonneg; lia] |].
    rewrite HX.
    replace (m2 * 2 ^ (e1 + 1074) * Y - m' * W) with ((m2 * (S * Zpos my) - m') * W)
      by (unfold Y;
          transitivity (m2 * Zpos my * (2 ^ (e1 + 1074) * 2 ^ (ey + 1074)) - m' * W);
          [rewrite HSW; ring | ring]).
    rewrite Z.abs_mul, (Z.abs_eq W) by lia.
    assert (Hle : 2 ^ (e1 + 1074) <= 2 ^ (k + 1021)) by (apply Z.pow_le_mono_r; lia).
    assert (H1 : 2 * Z.abs (m2 * (S * Zpos my) - m') * W <= S * Zpos my * W)
      by (apply Z.mul_le_mono_nonneg_r; [lia | exact Herr]).
    assert (H2 : S * Zpos my * W = 2 ^ (e1 + 1074) * Y)
      by (unfold Y; transitivity (Zpos my * (2 ^ (e1 + 1074) * 2 ^ (ey + 1074)));
          [rewrite HSW; ring | ring]).
    assert (H3 : 2 ^ (e1 + 1074) * Y <= 2 ^ (k + 1021) * Y)
      by (apply Z.mul_le_mono_nonneg_r; [lia | assumption]).
    clear - H1 H2 H3. lia. }
  destruct (Z.eqb_spec m2 0) as [E0 | E0].
  - rewrite (Hzero E0). cbn [SFfinite rank]. split; [reflexivity |]. apply Hgoal. lia.
  - destruct Hpos as (m3 & e3 & Hm3 & He3 & _ & Hresult); [lia |].
    rewrite Hresult.
    replace (e3 <=? emax - prec) with true
      by (symmetry; apply Z.leb_le; change (emax - prec) with 971; lia).
    cbn [SFfinite]. split; [reflexivity |]. rewrite rank_finite. cbn [cond_Zopp].
    apply Hgoal.
    rewrite <- Hm3, <- Z.mul_assoc, <- Z.pow_add_r by lia. do 2 f_equal. lia.
Qed.

End Products.

Section NearestNumber.

Import Reference.

Local Open Scope Z_scope.

Lemma spacing_below (T K : Z) : 53 <= K -> Z.abs T < 2 ^ K -> spacing T <= 2 ^ (K - 53).
Proof.
  intros HK H. unfold spacing. apply Z.pow_le_mono_r; [lia |].
  destruct (Z.eqb_spec (Z.abs T) 0) as [E | E].
  - rewrite E. cbn. lia.
  - assert (Z.log2 (Z.abs T) < K) by (apply Z.log2_lt_pow2; lia). lia.
Qed.

Lemma spacing_relative (T : Z) : spacing T = 1 \/ 2 ^ 52 * spacing T <= Z.abs T.
Proof.
  unfold spacing. destruct (Z.leb_spec (Z.log2 (Z.abs T)) 52) as [H | H].
  - left. rewrite Z.max_l by lia. reflexivity.
  - right. rewrite Z.max_r by lia. rewrite <- Z.pow_add_r by lia.
    replace (52 + (Z.log2 (Z.abs T) - 52)) with (Z.log2 (Z.abs T)) by lia.
    apply Z.log2_spec. destruct (Z.abs T) eqn:E; try lia. cbn in H. lia.
Qed.

(** Half a spacing is at most one part in [2 ^ 53] of the value. *)
Lemma nearest_relative (T R : Z) :
  2 * Z.abs (R - T) <= spacing T -> 2 ^ 53 * Z.abs (R - T) <= Z.abs T.
Proof.
  intro H. destruct (spacing_relative T) as [E | E].
  - rewrite E in H. replace (R - T) with 0 by lia. cbn. lia.
  - change (2 ^ 53) with (2 ^ 52 * 2). lia.
Qed.

Lemma finite_is_a_number (x : number) : finite x = true -> is_nan x = false.
Proof.
  unfold finite. rewrite is_nan_Prim2SF. now destruct (Prim2SF x).
Qed.

Lemma sub_nearest (x y : number) :
  finite x = true -> finite y = true ->
  Z.abs (number_rank x - number_rank y) < 2 ^ 2097 ->
  finite (x - y)%float = true
  /\ 2 * Z.abs (number_rank (x - y)%float - (number_rank x - number_rank y))
     <= spacing (number_rank x - number_rank y)
  /\ (forall c, number_rank x - number_rank y = c * spacing (number_rank x - number_rank y) ->
      number_rank (x - y)%float = number_rank x - number_rank y).
Proof.
  unfold finite, number_rank. intros Fx Fy H. rewrite sub_spec.
  destruct (@SFsub_rank (Prim2SF x) (Prim2SF y) (Prim2SF_valid x) (Prim2SF_valid y) Fx Fy H)
    as (H1 & H2 & H3).
  split; [exact H3 |]. split; [exact H1 | exact H2].
Qed.

Lemma add_nearest (x y : number) :
  finite x = true -> finite y = true ->
  Z.abs (number_rank x + number_rank y) < 2 ^ 2097 ->
  finite (x + y)%float = true
  /\ 2 * Z.abs (number_rank (x + y)%float - (number_rank x + number_rank y))
     <= spacing (number_rank x + number_rank y)
  /\ (forall c, number_rank x + number_rank y = c * spacing (number_rank x + number_rank y) ->
      number_rank (x + y)%float = number_rank x + number_rank y).
Proof.
  unfold finite, number_rank. intros Fx Fy H. rewrite add_spec.
  destruct (@SFadd_rank (Prim2SF x) (Prim2SF y) (Prim2SF_valid x) (Prim2SF_valid y) Fx Fy H)
    as (H1 & H2 & H3).
  split; [exact H3 |]. split; [exact H1 | exact H2].
Qed.

Lemma mul_bound (x y : number) (k : Z) :
  finite x = true -> finite y = true ->
  0 <= number_rank x -> 0 <= number_rank y ->
  number_rank x * number_rank y < 2 ^ (k + 2148) -> -1021 <= k <= 1023 ->
  finite (x * y)%float = true
  /\ 0 <= number_rank (x * y)%float
  /\ 2 * Z.abs (number_rank (x * y)%float * 2 ^ 1074 - number_rank x * number_rank y)
     <= 2 ^ (k + 2095).
Proof.
  unfold finite, number_rank. intros Fx Fy Px Py H Hk. rewrite mul_spec.
  exact (@SFmul_rank (Prim2SF x) (Prim2SF y) k (Prim2SF_valid x) (Prim2SF_valid y)
           Fx Fy Px Py H Hk).
Qed.

Lemma div_bound (x y : number) (k : Z) :
  finite x = true -> finite y = true ->
  0 <= number_rank x -> 0 < number_rank y ->
  number_rank x < 2 ^ k * number_rank y -> 0 <= k <= 1023 ->
  finite (x / y)%float = true
  /\ 0 <= number_rank (x / y)%float
  /\ 2 * Z.abs (number_rank (x / y)%float * number_rank y - number_rank x * 2 ^ 1074)
     <= 2 ^ (k + 1021) * number_rank y.
Proof.
  unfold finite, number_rank. intros Fx Fy Px Py H Hk. rewrite div_spec.
  exact (@SFdiv_rank (Prim2SF x) (Prim2SF y) k (Prim2SF_valid x) (Prim2SF_valid y)
           Fx Fy Px Py H Hk).
Qed.

Lemma rank_abs (x : spec_float) : rank (SFabs x) = Z.abs (rank x).
Proof.
  pose proof top_positive as Htop.
  destruct x as [s | s | | s m e]; cbn [SFabs rank cond_Zopp]; try reflexivity.
  - destruct s; cbn [cond_Zopp]; lia.
  - assert (H : 0 <= Zpos m * 2 ^ (e + 1074))
      by (apply Z.mul_nonneg_nonneg; [lia | apply Z.pow_nonneg; lia]).
    destruct s; cbn [cond_Zopp]; lia.
Qed.

(** A number whose magnitude is at most that of a finite number is
    finite, and so is its rank. *)
Lemma magnitude_bound (x bound : number) :
  finite bound = true -> (Math_abs x <=? bound)%float = true ->
  finite x = true /\ Z.abs (number_rank x) <= number_rank bound.
Proof.
  intros Fb H. unfold Math_abs in H.
  assert (Hx : finite x = true).
  { rewrite FloatAxioms.leb_spec, abs_spec in H. unfold finite in *.
    destruct (Prim2SF x) as [s | s | | s m e]; try reflexivity.
    - destruct (Prim2SF bound) as [s' | s' | | s' m' e']; discriminate.
    - discriminate. }
  split; [exact Hx |].
  rewrite leb_rank in H.
  - apply Z.leb_le in H. unfold number_rank in *. now rewrite abs_spec, rank_abs in H.
  - rewrite is_nan_Prim2SF, abs_spec. unfold finite in Hx. now destruct (Prim2SF x).
  - now apply finite_is_a_number.
Qed.

End NearestNumber.

Section LeastAndGreatest.

Import Reference.

Local Open Scope Z_scope.

Lemma zero_rank (x : number) : is_zero x = true -> number_rank x = 0.
Proof.
  rewrite is_zero_Prim2SF. unfold number_rank. now destruct (Prim2SF x).
Qed.

Lemma NegZero_is_zero (x : number) : is_NegZero x = true -> is_zero x = true.
Proof.
  unfold is_NegZero. rewrite classify_spec, is_zero_Prim2SF. unfold SF64classify, SFclassify.
  destruct (Prim2SF x) as [[] | [] | | [] m e]; try discriminate; try reflexivity;
    destruct (Z.pos (digits2_pos m) =? prec); discriminate.
Qed.

Lemma PosZero_is_zero (x : number) : is_PosZero x = true -> is_zero x = true.
Proof.
  unfold is_PosZero. rewrite classify_spec, is_zero_Prim2SF. unfold SF64classify, SFclassify.
  destruct (Prim2SF x) as [[] | [] | | [] m e]; try discriminate; try reflexivity;
    destruct (Z.pos (digits2_pos m) =? prec); discriminate.
Qed.

(** [Math.min] of numbers, none of which is [NaN], is one of them or
    the starting value, and none has a lower rank. *)
Lemma Math_min_from_least (values : list number) (lowest : number) :
  is_nan lowest = false -> Forall (fun v => is_nan v = false) values ->
  (Math_min_from lowest values = lowest \/ In (Math_min_from lowest values) values)
  /\ number_rank (Math_min_from lowest values) <= number_rank lowest
  /\ Forall (fun v => number_rank (Math_min_from lowest values) <= number_rank v) values.
Proof.
  revert lowest. induction values as [| x rest IH]; intros lowest Hl Hall.
  - cbn [Math_min_from]. split; [now left |]. split; [lia | constructor].
  - inversion Hall as [| ? ? Hx Hrest]; subst. cbn [Math_min_from]. rewrite Hx.
    destruct (is_NegZero x && is_PosZero lowest)%bool eqn:Ezero.
    + apply andb_prop in Ezero. destruct Ezero as [E1 E2].
      apply NegZero_is_zero, zero_rank in E1. apply PosZero_is_zero, zero_rank in E2.
      destruct (IH x Hx Hrest) as (Hin & Hle & Hothers).
      split; [right; destruct Hin as [-> | Hin]; [now left | now right] |].
      split; [lia |]. constructor; [exact Hle | exact Hothers].
    + destruct (x <? lowest)%float eqn:Elt; rewrite ltb_rank in Elt by assumption.
      * apply Z.ltb_lt in Elt. destruct (IH x Hx Hrest) as (Hin & Hle & Hothers).
        split; [right; destruct Hin as [-> | Hin]; [now left | now right] |].
        split; [lia |]. constructor; [exact Hle | exact Hothers].
      * apply Z.ltb_ge in Elt. destruct (IH lowest Hl Hrest) as (Hin & Hle & Hothers).
        split; [destruct Hin as [-> | Hin]; [now left | right; now right] |].
        split; [lia |]. constructor; [lia | exact Hothers].
Qed.

Lemma Math_max_from_greatest (values : list number) (highest : number) :
  is_nan highest = false -> Forall (fun v => is_nan v = false) values ->
  (Math_max_from highest values = highest \/ In (Math_max_from highest values) values)
  /\ number_rank highest <= number_rank (Math_max_from highest values)
  /\ Forall (fun v => number_rank v <= number_rank (Math_max_from highest values)) values.
Proof.
  revert highest. induction values as [| x rest IH]; intros highest Hh Hall.
  - cbn [Math_max_from]. split; [now left |]. split; [lia | constructor].
  - inversion Hall as [| ? ? Hx Hrest]; subst. cbn [Math_max_from]. rewrite Hx.
    destruct (is_PosZero x && is_NegZero highest)%bool eqn:Ezero.
    + apply andb_prop in Ezero. destruct Ezero as [E1 E2].
      apply PosZero_is_zero, zero_rank in E1. apply NegZero_is_zero, zero_rank in E2.
      destruct (IH x Hx Hrest) as (Hin & Hle & Hothers).
      split; [right; destruct Hin as [-> | Hin]; [now left | now right] |].
      split; [lia |]. constructor; [exact Hle | exact Hothers].
    + destruct (highest <? x)%float eqn:Elt; rewrite ltb_rank in Elt by assumption.
      * apply Z.ltb_lt in Elt. destruct (IH x Hx Hrest) as (Hin & Hle & Hothers).
        split; [right; destruct Hin as [-> | Hin]; [now left | now right] |].
        split; [lia |]. constructor; [exact Hle | exact Hothers].
      * apply Z.ltb_ge in Elt. destruct (IH highest Hh Hrest) as (Hin & Hle & Hothers).
        split; [destruct Hin as [-> | Hin]; [now left | right; now right] |].
        split; [lia |]. constructor; [lia | exact Hothers].
Qed.

(** On finite numbers, of which there is at least one, [Math.min] and
    [Math.max] answer elements of the list that bound the others. *)
Lemma Math_min_finite (values : list number) :
  values <> [] -> Forall (fun v => finite v = true) values ->
  In (Math_min values) values
  /\ Forall (fun v => number_rank (Math_min values) <= number_rank v) values.
Proof.
  intros Hne Hall.
  assert (Hnan : Forall (fun v => is_nan v = false) values).
  { eapply Forall_impl; [| exact Hall]. intro v. apply finite_is_a_number. }
  destruct (@Math_min_from_least values infinity eq_refl Hnan) as (Hin & _ & Hle).
  fold (Math_min values) in Hin, Hle. split; [| exact Hle].
  destruct Hin as [E | Hin]; [exfalso | exact Hin].
  destruct values as [| v rest]; [congruence |].
  inversion Hall as [| ? ? Fv _]; subst. inversion Hle as [| ? ? Hv _]; subst.
  rewrite E in Hv. unfold finite, number_rank in *.
  change (Prim2SF infinity) with (S754_infinity false) in Hv. cbn [rank cond_Zopp] in Hv.
  pose proof (Prim2SF_valid v) as Vv. pose proof top_positive.
  destruct (Prim2SF v) as [s | s | | s m e]; try discriminate; cbn [rank] in Hv; [lia |].
  pose proof (@finite_below_top m e Vv). destruct s; cbn [cond_Zopp] in Hv; lia.
Qed.

Lemma Math_max_finite (values : list number) :
  values <> [] -> Forall (fun v => finite v = true) values ->
  In (Math_max values) values
  /\ Forall (fun v => number_rank v <= number_rank (Math_max values)) values.
Proof.
  intros Hne Hall.
  assert (Hnan : Forall (fun v => is_nan v = false) values).
  { eapply Forall_impl; [| exact Hall]. intro v. apply finite_is_a_number. }
  destruct (@Math_max_from_greatest values neg_infinity eq_refl Hnan) as (Hin & _ & Hle).
  fold (Math_max values) in Hin, Hle. split; [| exact Hle].
  destruct Hin as [E | Hin]; [exfalso | exact Hin].
  destruct values as [| v rest]; [congruence |].
  inversion Hall as [| ? ? Fv _]; subst. inversion Hle as [| ? ? Hv _]; subst.
  rewrite E in Hv. unfold finite, number_rank in *.
  change (Prim2SF neg_infinity) with (S754_infinity true) in Hv. cbn [rank cond_Zopp] in Hv.
  pose proof (Prim2SF_valid v) as Vv. pose proof top_positive.
  destruct (Prim2SF v) as [s | s | | s m e]; try discriminate; cbn [rank] in Hv; [lia |].
  pose proof (@finite_below_top m e Vv). destruct s; cbn [cond_Zopp] in Hv; lia.
Qed.

End LeastAndGreatest.

Section RoundTrip.

Import Reference.

Local Open Scope Z_scope.

(** The arithmetic of the round trip, on the ranks: [rd] and [rr] are
    the ranks of [v - min] and [max - min], [w] is the product of the
    ranks of the scaled value and of [max - min]. *)
Lemma difference_ranks (rv rlo rhi rd rr sd sr : Z) :
  Z.abs rv <= 2 ^ 1094 -> Z.abs rlo <= 2 ^ 1094 -> Z.abs rhi <= 2 ^ 1094 ->
  rlo <= rv <= rhi -> rlo < rhi ->
  2 * Z.abs (rd - (rv - rlo)) <= sd -> sd <= 2 ^ 1043 ->
  2 ^ 53 * Z.abs (rd - (rv - rlo)) <= Z.abs (rv - rlo) ->
  2 * Z.abs (rr - (rhi - rlo)) <= sr -> sr <= 2 ^ 1043 ->
  2 ^ 53 * Z.abs (rr - (rhi - rlo)) <= Z.abs (rhi - rlo) ->
  0 <= rd /\ 0 < rr /\ rd < 2 ^ 1 * rr
  /\ rd <= 2 ^ 1095 + 2 ^ 1042 /\ rr <= 2 ^ 1095 + 2 ^ 1042.
Proof. intros. lia. Qed.

Lemma product_bound (rd rr w : Z) :
  0 <= rd <= 2 ^ 1095 + 2 ^ 1042 -> 0 < rr <= 2 ^ 1095 + 2 ^ 1042 ->
  2 * Z.abs (w - rd * 2 ^ 1074) <= 2 ^ (1 + 1021) * rr ->
  w < 2 ^ (22 + 2148).
Proof. intros. lia. Qed.

Lemma round_trip_ranks (rv rlo rd rr rp rq sd sq w : Z) :
  Z.abs rv <= 2 ^ 1094 -> Z.abs rlo <= 2 ^ 1094 ->
  2 * Z.abs (rd - (rv - rlo)) <= sd -> sd <= 2 ^ 1043 ->
  0 < rr <= 2 ^ 1095 + 2 ^ 1042 ->
  2 * Z.abs (w - rd * 2 ^ 1074) <= 2 ^ (1 + 1021) * rr ->
  2 * Z.abs (rp * 2 ^ 1074 - w) <= 2 ^ (22 + 2095) ->
  Z.abs (rp + rlo) < 2 ^ 1095
  /\ (2 * Z.abs (rq - (rp + rlo)) <= sq -> sq <= 2 ^ 1042 ->
      Z.abs (rq - rv) <= 7 * 2 ^ 1041 + 2 ^ 989).
Proof. intros. lia. Qed.

Lemma rescale_close (v lo hi : number) :
  finite v = true -> finite lo = true -> finite hi = true ->
  Z.abs (number_rank v) <= 2 ^ 1094 ->
  Z.abs (number_rank lo) <= 2 ^ 1094 ->
  Z.abs (number_rank hi) <= 2 ^ 1094 ->
  number_rank lo <= number_rank v <= number_rank hi ->
  number_rank lo < number_rank hi ->
  finite ((v - lo) / (hi - lo) * (hi - lo) + lo)%float = true
  /\ Z.abs (number_rank ((v - lo) / (hi - lo) * (hi - lo) + lo)%float - number_rank v)
     <= 7 * 2 ^ 1041 + 2 ^ 989.
Proof.
  intros Fv Flo Fhi Bv Blo Bhi Hv Hlt.
  destruct (@sub_nearest v lo Fv Flo) as (Fd & Ed & _); [clear - Bv Blo; lia |].
  destruct (@sub_nearest hi lo Fhi Flo) as (Fr & Er & _); [clear - Bhi Blo; lia |].
  pose proof (nearest_relative _ _ Ed) as Rd. pose proof (nearest_relative _ _ Er) as Rr.
  assert (Sd : spacing (number_rank v - number_rank lo) <= 2 ^ 1043).
  { apply (@spacing_below _ 1096); [lia |]. clear - Bv Blo. lia. }
  assert (Sr : spacing (number_rank hi - number_rank lo) <= 2 ^ 1043).
  { apply (@spacing_below _ 1096); [lia |]. clear - Bhi Blo. lia. }
  destruct (@difference_ranks _ _ _ _ _ _ _ Bv Blo Bhi Hv Hlt Ed Sd Rd Er Sr Rr)
    as (Hd0 & Hr0 & Hratio & Hd1 & Hr1).
  set (d := (v - lo)%float) in *. set (r := (hi - lo)%float) in *.
  destruct (@div_bound d r 1 Fd Fr Hd0 Hr0 Hratio ltac:(lia)) as (Fs & Hs0 & Es).
  set (s := (d / r)%float) in *.
  assert (Hw : number_rank s * number_rank r < 2 ^ (22 + 2148)).
  { apply (@product_bound (number_rank d) (number_rank r)); [lia | lia | exact Es]. }
  destruct (@mul_bound s r 22 Fs Fr Hs0 ltac:(lia) Hw ltac:(lia)) as (Fp & Hp0 & Ep).
  set (p := (s * r)%float) in *.
  destruct (@round_trip_ranks (number_rank v) (number_rank lo) (number_rank d) (number_rank r)
              (number_rank p) (number_rank (p + lo)%float) _ (spacing (number_rank p + number_rank lo))
              _ Bv Blo Ed Sd ltac:(lia) Es Ep) as (Hq & Hfinal).
  destruct (@add_nearest p lo Fp Flo) as (Fq & Eq & _); [clear - Hq; lia |].
  split; [exact Fq |]. apply Hfinal; [exact Eq |].
  apply (@spacing_below _ 1095); [lia | exact Hq].
Qed.

Lemma tolerance_rank :
  (7 * 2 ^ 1041 + 2 ^ 989) * (2 ^ 53 + 1) <= 2 ^ 53 * number_rank 1e-9%float.
Proof. apply Z.leb_le. vm_compute. reflexivity. Qed.

Lemma close_is_within (q v : number) :
  finite q = true -> finite v = true ->
  Z.abs (number_rank q - number_rank v) <= 7 * 2 ^ 1041 + 2 ^ 989 ->
  within 1e-9%float q v = true.
Proof.
  intros Fq Fv H. unfold within.
  destruct (@sub_nearest q v Fq Fv) as (Ft & Et & _); [clear - H; lia |].
  apply nearest_relative in Et.
  unfold Math_abs. rewrite leb_rank.
  - apply Z.leb_le. unfold number_rank at 1. rewrite abs_spec, rank_abs.
    fold (number_rank (q - v)%float).
    pose proof tolerance_rank as Htol.
    set (N := number_rank 1e-9%float) in *. clearbody N.
    clear - H Et Htol. lia.
  - rewrite is_nan_Prim2SF, abs_spec. unfold finite in Ft.
    now destruct (Prim2SF (q - v)%float).
  - reflexivity.
Qed.

End RoundTrip.

Section WholeNumbers.

Import Reference.

Local Open Scope Z_scope.







End WholeNumbers.

(** ** The round trip of the scaling *)

Section WithinTolerance.

Local Open Scope Z_scope.

Lemma magnitude_within_2_20 (v : number) :
  (Math_abs v <=? 1048576)%float = true ->
  Reference.finite v = true /\ Z.abs (Reference.number_rank v) <= 2 ^ 1094.
Proof.
  intro H. apply magnitude_bound in H; [| reflexivity].
  replace (Reference.number_rank 1048576%float) with (2 ^ 1094) in H
    by (vm_compute; reflexivity).
  exact H.
Qed.

End WithinTolerance.

(** C3, as the code has it.  The program computes in binary64, where
    each operation rounds its result.  The round trip takes every value
    [v] of the series to [(v - min) / (max - min) * (max - min) + min],
    with [min] and [max] the least and the greatest value.  On a series
    of numbers of magnitude at most [2 ^ 20 = 1048576] whose least
    value is below its greatest one, every value comes back within
    [1e-9] of itself: the four roundings that matter add up to less
    than [7 * 2 ^ -33 + 2 ^ -85], and the test [|x - y| <= 1e-9], itself
    made in binary64, succeeds.  The distance grows with the size of
    the values, and no tolerance holds for every series. *)
Theorem round_trip_within_tolerance (data : list number) :
  forallb (fun v => (Math_abs v <=? 1048576)%float) data = true ->
  (Math_min data <? Math_max data)%float = true ->
  Reference.round_trip data
  = map (fun v => ((v - Math_min data) / (Math_max data - Math_min data)
                   * (Math_max data - Math_min data) + Math_min data)%float) data
  /\ Reference.all_within 1e-9%float (Reference.round_trip data) data = true.
Proof.
  intros Hall Hlt.
  split; [unfold Reference.round_trip, normalizeData, denormalizeData; apply map_map |].
  assert (Hne : data <> []) by (intros ->; discriminate Hlt).
  assert (Hbounds : Forall (fun v => Reference.finite v = true
                                     /\ (Z.abs (Reference.number_rank v) <= 2 ^ 1094)%Z) data).
  { apply Forall_forall. intros v Hv. apply magnitude_within_2_20.
    rewrite forallb_forall in Hall. now apply Hall. }
  assert (Hfinite : Forall (fun v => Reference.finite v = true) data).
  { eapply Forall_impl; [| exact Hbounds]. now intros v [Fv _]. }
  destruct (Math_min_finite Hne Hfinite) as [Hlo Hleast].
  destruct (Math_max_finite Hne Hfinite) as [Hhi Hgreatest].
  rewrite Forall_forall in Hbounds, Hleast, Hgreatest.
  destruct (Hbounds _ Hlo) as [Flo Blo]. destruct (Hbounds _ Hhi) as [Fhi Bhi].
  rewrite ltb_rank in Hlt by now apply finite_is_a_number.
  apply Z.ltb_lt in Hlt.
  unfold Reference.round_trip, normalizeData, denormalizeData, Reference.all_within.
  rewrite !length_map, Nat.eqb_refl, map_map, combine_map_self. cbn [andb].
  apply forallb_forall. intros pair Hpair.
  apply in_map_iff in Hpair. destruct Hpair as (v & <- & Hv). cbn [fst snd].
  destruct (Hbounds _ Hv) as [Fv Bv].
  destruct (@rescale_close v (Math_min data) (Math_max data) Fv Flo Fhi Bv Blo Bhi
              (conj (Hleast _ Hv) (Hgreatest _ Hv)) Hlt) as [Fq Hq].
  now apply close_is_within.
Qed.

Lemma round_trip_within_tolerance_witness :
  forallb (fun v => (Math_abs v <=? 1048576)%float)
    [-1048576; 333333; 1048576; 15; 999999.5; 0.1]%float = true
  /\ (Math_min [-1048576; 333333; 1048576; 15; 999999.5; 0.1]
      <? Math_max [-1048576; 333333; 1048576; 15; 999999.5; 0.1])%float = true
  /\ Reference.round_trip [-1048576; 333333; 1048576; 15; 999999.5; 0.1]%float
     = [-1048576; 333333; 1048576; 15; 999999.5; 0.10000000009313226]%float
  /\ Reference.all_within 1e-9%float
       (Reference.round_trip [-1048576; 333333; 1048576; 15; 999999.5; 0.1]%float)
       [-1048576; 333333; 1048576; 15; 999999.5; 0.1]%float = true.
Proof.
  split; [reflexivity |]. split; [reflexivity |]. split; [vm_compute; reflexivity |].
  apply (@round_trip_within_tolerance [-1048576; 333333; 1048576; 15; 999999.5; 0.1]%float);
    reflexivity.
Defined.

Example round_trip_of_the_ten_points :
  Reference.all_within 1e-9%float (Reference.round_trip Scenario.series10) Scenario.series10
  = true.
Proof. vm_compute. reflexivity. Qed.

(** The specification's C3 in binary64: two series whose least element is below
    the greatest one and whose round trip leaves the tolerance.  The
    first holds counts; its middle value comes back as
    [15165945.999999998].  In the second the value [1] comes back as
    [0]. *)
Lemma round_trip_leaves_tolerance :
  (Math_min [0; 15165946; 20000000] <? Math_max [0; 15165946; 20000000])%float = true
  /\ Reference.round_trip [0; 15165946; 20000000]%float
     = [0; 15165945.999999998; 20000000]%float
  /\ Reference.all_within 1e-9%float (Reference.round_trip [0; 15165946; 20000000]%float)
       [0; 15165946; 20000000]%float = false
  /\ (Math_min [-1e20; 1; 1e20] <? Math_max [-1e20; 1; 1e20])%float = true
  /\ Reference.round_trip [-1e20; 1; 1e20]%float = [-1e20; 0; 1e20]%float
  /\ Reference.all_within 1e-9%float (Reference.round_trip [-1e20; 1; 1e20]%float)
       [-1e20; 1; 1e20]%float = false.
Proof.
  repeat split; vm_compute; reflexivity.
Qed.

(** ** The forecast, year after year *)






(** ** The sort of the candidates *)

Section StableSort.

Context {A : Type}.
Variable comparefn : A -> A -> number.
Variable R : A -> Z.
Hypothesis comparefn_sign :
  forall a b, (0 <? comparefn a b)%float = (R a <? R b)%Z.

Local Open Scope Z_scope.

Let descending := Reference.descending R.

Lemma filter_none (f : A -> bool) (l : list A) :
  Forall (fun b => f b = false) l -> filter f l = [].
Proof.
  induction 1 as [| b l Hb _ IH]; [reflexivity |]. cbn [filter]. now rewrite Hb.
Qed.

Lemma sort_insert_perm (x : A) (sorted : list A) :
  Permutation (sort_insert comparefn x sorted) (x :: sorted).
Proof.
  induction sorted as [| y rest IH]; [reflexivity |].
  cbn [sort_insert]. destruct (0 <? comparefn y x)%float; [reflexivity |].
  rewrite IH. apply perm_swap.
Qed.

Lemma sort_insert_descending (x : A) (sorted : list A) :
  descending sorted -> descending (sort_insert comparefn x sorted).
Proof.
  induction sorted as [| y rest IH]; intro H.
  - repeat constructor.
  - apply StronglySorted_inv in H. destruct H as [Hrest Hy].
    cbn [sort_insert]. rewrite comparefn_sign.
    destruct (Z.ltb_spec (R y) (R x)) as [Hlt | Hge].
    + constructor; [constructor; assumption |].
      constructor; [lia |].
      eapply Forall_impl; [| exact Hy]. cbn. intros b Hb. lia.
    + constructor; [now apply IH |].
      rewrite (sort_insert_perm x rest). constructor; [lia | exact Hy].
Qed.

Lemma sort_insert_filter (k : Z) (x : A) (sorted : list A) :
  descending sorted ->
  filter (fun a => R a =? k) (sort_insert comparefn x sorted)
  = filter (fun a => R a =? k) sorted ++ filter (fun a => R a =? k) [x].
Proof.
  induction sorted as [| y rest IH]; intro H; [reflexivity |].
  apply StronglySorted_inv in H. destruct H as [Hrest Hy].
  cbn [sort_insert]. rewrite comparefn_sign.
  destruct (Z.ltb_spec (R y) (R x)) as [Hlt | Hge].
  - cbn [filter]. destruct (Z.eqb_spec (R x) k) as [Hk | Hk]; [| now rewrite app_nil_r].
    assert (Hnone : filter (fun a => R a =? k) rest = []).
    { apply filter_none. eapply Forall_impl; [| exact Hy].
      cbn. intros b Hb. apply Z.eqb_neq. lia. }
    rewrite Hnone. destruct (Z.eqb_spec (R y) k); [lia | reflexivity].
  - cbn [filter]. rewrite IH by assumption.
    destruct (R y =? k); reflexivity.
Qed.

Lemma sort_from (a sorted : list A) :
  descending sorted ->
  let result := fold_left (fun s x => sort_insert comparefn x s) a sorted in
  descending result
  /\ Permutation result (sorted ++ a)
  /\ forall k, filter (fun m => R m =? k) result
               = filter (fun m => R m =? k) sorted ++ filter (fun m => R m =? k) a.
Proof.
  revert sorted. induction a as [| x a IH]; intros sorted H; cbn [fold_left].
  - rewrite app_nil_r. repeat split; [assumption | reflexivity |].
    intro k. cbn [filter]. now rewrite app_nil_r.
  - destruct (IH (sort_insert comparefn x sorted) (sort_insert_descending x H))
      as (Hsorted & Hperm & Hfilter).
    split; [exact Hsorted |]. split.
    + rewrite Hperm, sort_insert_perm. cbn [app]. apply Permutation_middle.
    + intro k. rewrite Hfilter, sort_insert_filter by assumption.
      rewrite <- app_assoc. f_equal. cbn [filter].
      destruct (R x =? k); reflexivity.
Qed.

Lemma Array_sort_stable (a : list A) :
  descending (Array_sort comparefn a)
  /\ Permutation (Array_sort comparefn a) a
  /\ forall k, filter (fun m => R m =? k) (Array_sort comparefn a)
               = filter (fun m => R m =? k) a.
Proof.
  apply (sort_from a (sorted := [])). constructor.
Qed.

End StableSort.

(** ** The grid search *)

Section GridSearch.

Variable Number_toString : number -> string.
Variable tf_fit :
  nat -> nat -> number ->
  list (list number) * list number -> list (list number) * list number ->
  completion network.
Variable emigrationData : list EmigrationData.
Variable totalCombinations : nat.

Let step := fun (state : AutoTune.tuning * nat) (c : AutoTune.combination) =>
  (AutoTune.tuning_step Number_toString tf_fit emigrationData totalCombinations
     (fst state) c (snd state),
   S (snd state)).

Lemma tuning_step_effect (state : AutoTune.tuning) (c : AutoTune.combination) (i : nat) :
  let next := AutoTune.tuning_step Number_toString tf_fit emigrationData totalCombinations
                state c i in
  AutoTune.allModels next
  = AutoTune.allModels state
    ++ Reference.successful_models Number_toString tf_fit emigrationData [c]
  /\ exists report,
       AutoTune.reports next = AutoTune.reports state ++ [report]
       /\ AutoTune.current report = i + 1
       /\ AutoTune.total report = totalCombinations
       /\ AutoTune.currentConfig report = AutoTune.currentConfig_of Number_toString c.
Proof.
  unfold AutoTune.tuning_step, Reference.successful_models. cbn [flat_map].
  destruct (trainSingleModel _ _ _ _ _ _ _) as [model | message].
  - destruct (_ <? _)%float; cbn [AutoTune.allModels AutoTune.reports];
      (split; [now rewrite app_nil_r | eexists; repeat split]).
  - cbn [AutoTune.allModels AutoTune.reports].
    split; [now rewrite app_nil_r | eexists; repeat split].
Qed.

Lemma tuning_fold (l : list AutoTune.combination) (state : AutoTune.tuning) (i : nat) :
  let final := fst (fold_left step l (state, i)) in
  AutoTune.allModels final
  = AutoTune.allModels state
    ++ Reference.successful_models Number_toString tf_fit emigrationData l
  /\ exists more,
       AutoTune.reports final = AutoTune.reports state ++ more
       /\ map AutoTune.current more = seq (i + 1) (length l)
       /\ map AutoTune.total more = repeat totalCombinations (length l)
       /\ map AutoTune.currentConfig more
          = map (AutoTune.currentConfig_of Number_toString) l.
Proof.
  revert state i. induction l as [| c l IH]; intros state i; cbn [fold_left].
  - cbn [fst]. split; [now rewrite app_nil_r |].
    exists []. now rewrite app_nil_r.
  - pose proof (tuning_step_effect state c i) as Hstep. cbv zeta in Hstep.
    set (next := AutoTune.tuning_step Number_toString tf_fit emigrationData
                   totalCombinations state c i) in *.
    change (fold_left step l (step (state, i) c)) with (fold_left step l (next, S i)).
    destruct Hstep as (Hmodels & report & Hreports & H1 & H2 & H3).
    destruct (IH next (S i)) as (IHmodels & more & IHreports & I1 & I2 & I3).
    split.
    + rewrite IHmodels, Hmodels, <- app_assoc. f_equal.
      unfold Reference.successful_models. cbn [flat_map]. now rewrite app_nil_r.
    + exists (report :: more). split.
      * rewrite IHreports, Hreports, <- app_assoc. reflexivity.
      * cbn [map length seq repeat]. rewrite H1, H2, H3, I1, I2, I3.
        replace (S i + 1) with (S (i + 1)) by lia. repeat split.
Qed.

End GridSearch.

Lemma length_flat_map_constant {A B : Type} (f : A -> list B) (n : nat) (l : list A) :
  (forall x, length (f x) = n) -> length (flat_map f l) = length l * n.
Proof.
  intro H. induction l as [| x l IH]; [reflexivity |].
  cbn [flat_map length]. rewrite length_app, H, IH. lia.
Qed.

Lemma combinations_count (space : AutoTune.search_space) :
  length (AutoTune.combinations_of space)
  = length (AutoTune.lookbacks space) * (length (AutoTune.neuronCounts space)
                                         * length (AutoTune.dropouts space)).
Proof.
  unfold AutoTune.combinations_of.
  apply length_flat_map_constant. intro lb.
  apply length_flat_map_constant. intro neurons. apply length_map.
Qed.

Lemma StronglySorted_weaken {A : Type} (P Q : A -> A -> Prop) (l : list A) :
  (forall a b, P a b -> Q a b) -> StronglySorted P l -> StronglySorted Q l.
Proof.
  intros H. induction 1 as [| a l Hl IH Ha]; constructor; [assumption |].
  eapply Forall_impl; [| exact Ha]. intros b. apply H.
Qed.

Lemma tuning_reports_prefix (Number_toString : number -> string) tf_fit
  (emigrationData : list EmigrationData) (totalCombinations : nat)
  (combinations : list AutoTune.combination) (j : nat) :
  AutoTune.reports
    (Array_reduce (AutoTune.tuning_step Number_toString tf_fit emigrationData totalCombinations)
       (firstn j combinations) AutoTune.tuning_start)
  = firstn j
      (AutoTune.reports
         (Array_reduce (AutoTune.tuning_step Number_toString tf_fit emigrationData totalCombinations)
            combinations AutoTune.tuning_start)).
Proof.
  unfold Array_reduce.
  rewrite <- (firstn_skipn j combinations) at 2. rewrite fold_left_app.
  destruct (tuning_fold Number_toString tf_fit emigrationData totalCombinations
              (firstn j combinations) AutoTune.tuning_start 0)
    as (_ & first & Hfirst & Hcurrent & _).
  destruct (fold_left _ (firstn j combinations) (AutoTune.tuning_start, 0)) as [state i].
  cbn [fst] in Hfirst |- *.
  destruct (tuning_fold Number_toString tf_fit emigrationData totalCombinations
              (skipn j combinations) state i)
    as (_ & more & Hmore & Hcurrent' & _).
  rewrite Hmore, Hfirst. cbn [AutoTune.reports AutoTune.tuning_start app].
  assert (Hlen : length first = length (firstn j combinations)).
  { rewrite <- (length_map AutoTune.current), Hcurrent. apply length_seq. }
  assert (Hlen' : length more = length (skipn j combinations)).
  { rewrite <- (length_map AutoTune.current), Hcurrent'. apply length_seq. }
  rewrite length_firstn in Hlen. rewrite length_skipn in Hlen'.
  rewrite firstn_app.
  destruct (Nat.le_gt_cases j (length combinations)) as [Hj | Hj].
  - replace (j - length first) with 0 by lia. cbn [firstn].
    rewrite app_nil_r. symmetry. apply firstn_all2. lia.
  - assert (Hnone : more = []) by (apply length_zero_iff_nil; lia).
    rewrite Hnone, firstn_nil, app_nil_r. symmetry. apply firstn_all2. lia.
Qed.

(** C6, as the code has it.  The search space [{lookback: [3],
    lstmNeurons: [32, 50, 64, 100], dropout: [0.1]}] gives exactly 4
    configurations, the Cartesian product of the three lists in the
    order of the nested loops.  They are attempted one after the
    other: there is one progress report per configuration, numbered 1
    to 4 out of 4, and the reports made before an attempt depend on the
    earlier attempts only.  The models of the attempts that do not
    throw are returned sorted by [accuracy || 0] in descending order,
    the first one being the best.  Models of equal accuracy stay in the
    order of the attempts: the mean absolute error is not compared. *)
Theorem grid_search_order (Number_toString : number -> string) tf_fit
  (emigrationData : list EmigrationData) (previousBest : option LSTMModel) :
  emigrationData <> [] ->
  let combinations := AutoTune.combinations_of AutoTune.HYPERPARAMETERS in
  let successes :=
    Reference.successful_models Number_toString tf_fit emigrationData combinations in
  let key := fun m : LSTMModel => or_zero (accuracy m) in
  combinations
  = [ {| AutoTune.c_lookback := 3; AutoTune.c_neurons := 32; AutoTune.c_dropout := 0.1%float |};
      {| AutoTune.c_lookback := 3; AutoTune.c_neurons := 50; AutoTune.c_dropout := 0.1%float |};
      {| AutoTune.c_lookback := 3; AutoTune.c_neurons := 64; AutoTune.c_dropout := 0.1%float |};
      {| AutoTune.c_lookback := 3; AutoTune.c_neurons := 100; AutoTune.c_dropout := 0.1%float |} ]
  /\ (forall space,
        length (AutoTune.combinations_of space)
        = length (AutoTune.lookbacks space)
          * (length (AutoTune.neuronCounts space) * length (AutoTune.dropouts space)))
  /\ exists result,
       AutoTune.autoTuneModels Number_toString tf_fit AutoTune.HYPERPARAMETERS true emigrationData
         previousBest
       = Some result
       /\ map AutoTune.current (AutoTune.progress result) = [1; 2; 3; 4]
       /\ map AutoTune.total (AutoTune.progress result) = [4; 4; 4; 4]
       /\ map AutoTune.currentConfig (AutoTune.progress result)
          = map (AutoTune.currentConfig_of Number_toString) combinations
       /\ (forall j,
            AutoTune.reports
              (Array_reduce (AutoTune.tuning_step Number_toString tf_fit emigrationData 4)
                 (firstn j combinations) AutoTune.tuning_start)
            = firstn j (AutoTune.progress result))
       /\ Permutation (AutoTune.models result) successes
       /\ StronglySorted (fun a b => (key b <=? key a)%float = true) (AutoTune.models result)
       /\ (forall k : number,
            filter (fun m => (key m =? k)%float) (AutoTune.models result)
            = filter (fun m => (key m =? k)%float) successes)
       /\ AutoTune.bestModel result
          = match AutoTune.models result with
            | [] => previousBest
            | best :: _ => Some best
            end.
Proof.
  intros Hdata combinations successes key.
  split; [reflexivity |]. split; [apply combinations_count |].
  unfold AutoTune.autoTuneModels.
  destruct emigrationData as [| r rest]; [congruence |]. clear Hdata.
  cbn [negb orb length Nat.eqb].
  fold combinations. eexists. split; [reflexivity |].
  cbn [AutoTune.progress AutoTune.models AutoTune.bestModel].
  unfold AutoTune.tuning_loop, Array_reduce.
  destruct (tuning_fold Number_toString tf_fit (r :: rest) (length combinations)
              combinations AutoTune.tuning_start 0)
    as (Hmodels & more & Hreports & Hcurrent & Htotal & Hconfig).
  cbn [AutoTune.allModels AutoTune.reports AutoTune.tuning_start app] in Hmodels, Hreports.
  rewrite Hmodels, Hreports. fold successes.
  split; [exact Hcurrent |]. split; [exact Htotal |]. split; [exact Hconfig |].
  split.
  { intro j. rewrite <- Hreports.
    apply (tuning_reports_prefix Number_toString tf_fit (r :: rest) 4 combinations j). }
  destruct (Array_sort_stable AutoTune.by_accuracy
              (fun m => Reference.number_rank (key m)) by_accuracy_sign successes)
    as (Hsorted & Hperm & Hstable).
  split; [exact Hperm |]. split.
  { eapply StronglySorted_weaken; [| exact Hsorted]. cbn. intros a b Hab.
    unfold key. rewrite leb_rank by apply or_zero_is_a_number. now apply Z.leb_le. }
  split; [| reflexivity].
  intro k. destruct (is_nan k) eqn:Hk.
  - rewrite !filter_none; [reflexivity | |];
      apply Forall_forall; intros m _; now apply eqb_nan.
  - rewrite (filter_ext _ (fun m => (Reference.number_rank (key m) =? Reference.number_rank k)%Z)).
    2:{ intro m. apply eqb_rank; [apply or_zero_is_a_number | exact Hk]. }
    rewrite Hstable. apply filter_ext.
    intro m. symmetry. apply eqb_rank; [apply or_zero_is_a_number | exact Hk].
Qed.

Lemma grid_search_order_witness :
  Scenario.data20 <> []
  /\ exists result,
       AutoTune.autoTuneModels Scenario.decimal Scenario.stub_fit AutoTune.HYPERPARAMETERS true
         Scenario.data20 None
       = Some result
       /\ map AutoTune.current (AutoTune.progress result) = [1; 2; 3; 4]
       /\ StronglySorted
            (fun a b => (or_zero (accuracy b) <=? or_zero (accuracy a))%float = true)
            (AutoTune.models result).
Proof.
  assert (Hdata : Scenario.data20 <> []) by (vm_compute; discriminate).
  split; [exact Hdata |].
  destruct (@grid_search_order Scenario.decimal Scenario.stub_fit Scenario.data20 None Hdata)
    as (_ & _ & result & Hrun & Hcurrent & _ & _ & _ & _ & Hsorted & _).
  exists result. repeat split; assumption.
Defined.

(** The specification's C6 on twenty records, with a library whose networks for
    32 and 50 units both reach accuracy 0, the first with the larger
    mean absolute error (175 against 75), and which fails for 64 units:
    the model with 32 units stays before the one with 50 units. *)
Lemma equal_accuracy_keeps_attempt_order :
  exists result,
    AutoTune.autoTuneModels Scenario.decimal Scenario.stub_fit AutoTune.HYPERPARAMETERS true
      Scenario.data20 None
    = Some result
    /\ map (fun m => (lstmNeurons m, accuracy m, mae m)) (AutoTune.models result)
       = [ (100, Some 100%float, Some 0%float);
           (32, Some 0%float, Some 175%float);
           (50, Some 0%float, Some 75%float) ].
Proof.
  eexists. split; [vm_compute; reflexivity | vm_compute; reflexivity].
Qed.

(** * Further properties of the routes and of the other pages *)

Lemma firstn_snoc {A : Type} (l : list A) (m : nat) (t : A) :
  nth_error l m = Some t -> firstn (S m) l = firstn m l ++ [t].
Proof.
  revert m. induction l as [| a l IH]; intros m H.
  - destruct m; discriminate H.
  - destruct m as [| m].
    + cbn in H. injection H as ->. reflexivity.
    + cbn [nth_error] in H. cbn [firstn app]. f_equal. now apply IH.
Qed.

Lemma skipn_S_tl {A : Type} (data : list A) (k : nat) :
  skipn (S k) data = tl (skipn k data).
Proof.
  revert data. induction k as [| k IH]; intro data.
  - destruct data; reflexivity.
  - destruct data as [| a data]; [reflexivity |].
    change (skipn (S (S k)) (a :: data)) with (skipn (S k) data).
    change (skipn (S k) (a :: data)) with (skipn k data). apply IH.
Qed.

(** X1.  The windows slide over the series one value at a time: each
    window is the one before it without its first value and with the
    target of that window appended, and the first [lookback] values
    followed by the targets give the series back.  This holds for
    every series and every lookback, the sliding for a lookback of 1
    at least. *)
Theorem createSequences_slides {A : Type} (data : list A) (lookback : nat) :
  exists X y,
    createSequences data lookback = Normal (X, y)
    /\ firstn lookback data ++ y = data
    /\ (0 < lookback ->
        forall k window target next,
          nth_error X k = Some window ->
          nth_error y k = Some target ->
          nth_error X (S k) = Some next ->
          next = tl window ++ [target]).
Proof.
  eexists. eexists. split; [apply createSequences_closed_form |].
  split; [apply firstn_skipn |].
  intros HL k window target next Hw Ht Hn.
  rewrite nth_error_map, nth_error_seq in Hw, Hn.
  destruct (Nat.ltb_spec k (length data - lookback)); [| discriminate Hw].
  destruct (Nat.ltb_spec (S k) (length data - lookback)); [| discriminate Hn].
  injection Hw as <-. injection Hn as <-.
  rewrite nth_error_skipn in Ht.
  destruct lookback as [| m]; [lia |].
  change (firstn (S m) (skipn (S k) data) = tl (firstn (S m) (skipn k data)) ++ [target]).
  rewrite (skipn_S_tl data k).
  replace (S m + k) with (k + S m) in Ht by lia.
  rewrite <- nth_error_skipn in Ht.
  destruct (skipn k data) as [| a d]; [discriminate Ht |].
  cbn [nth_error tl firstn] in *.
  now apply firstn_snoc.
Qed.

Lemma splitIndex_small (n : nat) :
  n <= 1000 ->
  ToIntegerOrInfinity (Math_floor (of_nat n * 0.8)%float) = Z.of_nat (4 * n / 5).
Proof.
  intro H.
  assert (Hall : forallb (fun n => (ToIntegerOrInfinity (Math_floor (of_nat n * 0.8)%float)
                                     =? Z.of_nat (4 * n / 5))%Z)
                   (seq 0 1001) = true) by (vm_compute; reflexivity).
  rewrite forallb_forall in Hall.
  apply Z.eqb_eq, Hall, in_seq. lia.
Qed.

Lemma Array_slice_prefix {A : Type} (a : list A) (c : nat) :
  Array_slice a 0 (Z.of_nat c) = firstn c a.
Proof.
  unfold Array_slice, relative_index.
  change (0 <? 0)%Z with false. cbv iota.
  destruct (Z.ltb_spec (Z.of_nat c) 0); [lia |].
  rewrite (Z.min_l 0) by lia. rewrite Z.sub_0_r. change (Z.to_nat 0) with 0. cbn [skipn].
  destruct (Nat.le_gt_cases c (length a)).
  - rewrite Z.min_l by lia. now rewrite Nat2Z.id.
  - rewrite Z.min_r by lia. rewrite Nat2Z.id. rewrite !firstn_all2 by lia. reflexivity.
Qed.

Lemma split_sequences_small (normalized : list number) (lookback : nat) :
  length normalized <= 1000 ->
  split_sequences normalized lookback
  = bind (createSequences (firstn (4 * length normalized / 5) normalized) lookback) (fun trainSeq =>
    bind (createSequences (skipn (4 * length normalized / 5) normalized) lookback) (fun testSeq =>
    Normal (trainSeq, testSeq))).
Proof.
  intro H. unfold split_sequences.
  rewrite splitIndex_small by exact H.
  now rewrite Array_slice_prefix, Array_slice_suffix.
Qed.

Lemma training_windows_closed_form (Number_toString : number -> string)
  (emigrationData : list EmigrationData) (lookback : nat) :
  lookback + 10 <= length emigrationData ->
  length emigrationData <= 1000 ->
  let c := 4 * length emigrationData / 5 in
  let scaled := Reference.scaled_series emigrationData in
  training_windows Number_toString emigrationData lookback
  = Normal
      ((map (fun k => firstn lookback (skipn k (firstn c scaled))) (seq 0 (c - lookback)),
        skipn lookback (firstn c scaled)),
       (map (fun k => firstn lookback (skipn (c + k) scaled))
            (seq 0 (length emigrationData - c - lookback)),
        skipn (c + lookback) scaled),
       (Reference.series_min emigrationData, Reference.series_max emigrationData)).
Proof.
  intros Hguard Hsmall c scaled. unfold training_windows.
  rewrite extractTimeSeriesData_length.
  destruct (Nat.ltb_spec (length emigrationData) (lookback + 10)); [lia |].
  unfold Reference.series_min, Reference.series_max.
  assert (Hlen : length scaled = length emigrationData) by apply scaled_series_length.
  subst scaled. unfold Reference.scaled_series in *.
  destruct (normalizeData (extractTimeSeriesData emigrationData)) as [[normalized lo] hi].
  cbn [fst snd] in *.
  rewrite split_sequences_small by lia.
  rewrite !createSequences_closed_form. cbn [bind fst snd].
  rewrite Hlen. fold c.
  assert (Hc : c <= length emigrationData).
  { subst c. apply Nat.Div0.div_le_upper_bound. lia. }
  rewrite length_firstn, length_skipn, Hlen, Nat.min_l by exact Hc.
  do 3 f_equal.
  f_equal.
  - apply map_ext. intro k. now rewrite skipn_skipn, (Nat.add_comm k).
  - now rewrite skipn_skipn, (Nat.add_comm lookback).
Qed.

(** X2.  Past its guard, which asks for [lookback + 10] records, the
    trainer cuts the scaled series at [floor (0.8 * n)]: the windows it
    is fitted on are cut from the first part only and the windows it
    is tested on from the rest only, the most recent values.  There are [floor (0.8 * n) - lookback] training
    windows and [n - floor (0.8 * n) - lookback] test windows, which
    the guard does not keep above zero; the scale handed over is the
    least and the greatest total.  (For the series of up to 1000
    records, where the cut has been computed in binary64.) *)
Theorem training_split (Number_toString : number -> string)
  (emigrationData : list EmigrationData) (lookback : nat) :
  lookback + 10 <= length emigrationData ->
  length emigrationData <= 1000 ->
  exists trainSeq testSeq,
    training_windows Number_toString emigrationData lookback
    = Normal (trainSeq, testSeq,
              (Reference.series_min emigrationData, Reference.series_max emigrationData))
    /\ createSequences
         (firstn (4 * length emigrationData / 5) (Reference.scaled_series emigrationData))
         lookback
       = Normal trainSeq
    /\ createSequences
         (skipn (4 * length emigrationData / 5) (Reference.scaled_series emigrationData))
         lookback
       = Normal testSeq
    /\ length (fst trainSeq) = 4 * length emigrationData / 5 - lookback
    /\ length (fst testSeq)
       = length emigrationData - 4 * length emigrationData / 5 - lookback
    /\ snd testSeq
       = skipn (4 * length emigrationData / 5 + lookback)
           (Reference.scaled_series emigrationData).
Proof.
  intros Hguard Hsmall.
  pose proof (@training_windows_closed_form Number_toString emigrationData lookback Hguard Hsmall) as H.
  cbv zeta in H.
  assert (Hlen : length (Reference.scaled_series emigrationData) = length emigrationData)
    by apply scaled_series_length.
  assert (Hc : 4 * length emigrationData / 5 <= length emigrationData).
  { apply Nat.Div0.div_le_upper_bound. lia. }
  eexists. eexists. split; [exact H |].
  rewrite !createSequences_closed_form.
  rewrite length_firstn, length_skipn, Hlen, Nat.min_l by exact Hc.
  cbn [fst snd]. rewrite !length_map, !length_seq.
  repeat split.
  f_equal. f_equal.
  - apply map_ext. intro k. now rewrite skipn_skipn, (Nat.add_comm k).
  - now rewrite skipn_skipn, (Nat.add_comm lookback).
Qed.

Lemma training_split_witness :
  3 + 10 <= length Scenario.data20
  /\ length Scenario.data20 <= 1000
  /\ exists trainSeq testSeq,
       training_windows Scenario.decimal Scenario.data20 3
       = Normal (trainSeq, testSeq,
                 (Reference.series_min Scenario.data20, Reference.series_max Scenario.data20))
       /\ length (fst trainSeq) = 13
       /\ length (fst testSeq) = 1.
Proof.
  assert (H1 : 3 + 10 <= length Scenario.data20) by (vm_compute; lia).
  assert (H2 : length Scenario.data20 <= 1000) by (vm_compute; lia).
  split; [exact H1 |]. split; [exact H2 |].
  destruct (@training_split Scenario.decimal Scenario.data20 3 H1 H2)
    as (trainSeq & testSeq & Hrun & _ & _ & Htrain & Htest & _).
  exists trainSeq, testSeq. split; [exact Hrun |]. split; [exact Htrain | exact Htest].
Defined.

(** X3.  When the part kept for testing has no more values than the
    lookback, which the guard allows (13 to 15 records for a lookback
    of 3), there is no test window and no test target: the library is
    handed the training windows and an empty test set.  With a library
    that refuses an empty set, as [tf.tensor3d] does, no model comes
    out of such a series: the trainer throws the message of the
    library, and the handler of the manual route ends in its [catch]
    block with it, the list of models unchanged. *)
Theorem empty_test_part_fails_training (Number_toString : number -> string) tf_fit
  (emigrationData : list EmigrationData) (lookback neurons : nat) (dropout : number)
  (modelName message : string) :
  length emigrationData <= 1000 ->
  lookback + 10 <= length emigrationData ->
  length emigrationData - 4 * length emigrationData / 5 <= lookback ->
  (forall trainSeq, tf_fit lookback neurons dropout trainSeq ([], []) = Throw message) ->
  (exists trainSeq scale,
      training_windows Number_toString emigrationData lookback
      = Normal (trainSeq, ([], []), scale)
      /\ length (fst trainSeq) = 4 * length emigrationData / 5 - lookback)
  /\ trainSingleModel Number_toString tf_fit emigrationData lookback neurons dropout modelName
     = Throw message
  /\ (forall models index modelConfig,
      nth_error models index = Some modelConfig ->
      Trainer.lookback modelConfig = lookback ->
      lstmNeurons modelConfig = neurons ->
      Trainer.dropout modelConfig = dropout ->
      Manual.trainModel Number_toString tf_fit true emigrationData models index
      = Failed message).
Proof.
  intros Hsmall Hguard Hshort Hrefuses.
  pose proof (@training_windows_closed_form Number_toString emigrationData lookback
                Hguard Hsmall) as Hwindows.
  cbv zeta in Hwindows.
  replace (length emigrationData - 4 * length emigrationData / 5 - lookback) with 0
    in Hwindows by lia.
  rewrite (skipn_all2 (n := 4 * length emigrationData / 5 + lookback)) in Hwindows.
  2:{ rewrite scaled_series_length. lia. }
  cbn [seq map] in Hwindows.
  assert (Hrun : forall name,
             trainSingleModel Number_toString tf_fit emigrationData lookback neurons dropout name
             = Throw message).
  { intro name. unfold trainSingleModel. rewrite Hwindows. cbn [bind].
    now rewrite Hrefuses. }
  split; [| split].
  - eexists. eexists. split; [exact Hwindows |].
    cbn [fst]. now rewrite length_map, length_seq.
  - apply Hrun.
  - intros models index modelConfig Hmodel HL Hunits Hdropout.
    unfold Manual.trainModel. rewrite Hmodel, HL, Hunits, Hdropout, Hrun.
    destruct (length emigrationData) eqn:E; [lia | reflexivity].
Qed.

Lemma empty_test_part_fails_training_witness :
  length Scenario.data13 <= 1000
  /\ 3 + 10 <= length Scenario.data13
  /\ length Scenario.data13 - 4 * length Scenario.data13 / 5 <= 3
  /\ (forall trainSeq,
        Scenario.strict_fit 3 32 0.1%float trainSeq ([], [])
        = Throw "Error: tensor3d() requires shape to be provided when `values` are a flat array")
  /\ trainSingleModel Scenario.decimal Scenario.strict_fit Scenario.data13 3 32 0.1%float
       "L3_N32_D0.1"
     = Throw "Error: tensor3d() requires shape to be provided when `values` are a flat array".
Proof.
  assert (H1 : length Scenario.data13 <= 1000) by (vm_compute; lia).
  assert (H2 : 3 + 10 <= length Scenario.data13) by (vm_compute; lia).
  assert (H3 : length Scenario.data13 - 4 * length Scenario.data13 / 5 <= 3)
    by (vm_compute; lia).
  assert (H4 : forall trainSeq,
             Scenario.strict_fit 3 32 0.1%float trainSeq ([], [])
             = Throw "Error: tensor3d() requires shape to be provided when `values` are a flat array")
    by reflexivity.
  split; [exact H1 |]. split; [exact H2 |]. split; [exact H3 |]. split; [exact H4 |].
  exact (proj1 (proj2 (@empty_test_part_fails_training Scenario.decimal Scenario.strict_fit
                         Scenario.data13 3 32 0.1%float "L3_N32_D0.1" _ H1 H2 H3 H4))).
Defined.

(** ** The sign of the two metrics *)

Section SignBit.

Local Open Scope float_scope.

Let not_negative := Reference.not_negative.

Lemma not_negative_ltb (x : number) : not_negative x -> (x <? 0) = false.
Proof.
  unfold not_negative, Reference.not_negative. intro H.
  rewrite FloatAxioms.ltb_spec. change (Prim2SF 0) with (S754_zero false).
  destruct (Prim2SF x) as [s | s | | s m e]; cbn in H |- *; try rewrite H; reflexivity.
Qed.

Lemma zero_not_negative : not_negative 0.
Proof. reflexivity. Qed.

Lemma abs_not_negative (x : number) : not_negative (Math_abs x).
Proof.
  unfold not_negative, Reference.not_negative, Math_abs. rewrite abs_spec.
  destruct (Prim2SF x); reflexivity.
Qed.

Lemma binary_normalize_sign (m e : Z) :
  (0 <= m)%Z -> Reference.sign_clear (binary_normalize prec emax m e false).
Proof.
  intro H. destruct m as [| p | p]; [reflexivity | | lia].
  cbn [binary_normalize]. pose proof (binary_round_sign prec emax false p e) as Hs.
  destruct (binary_round prec emax false p e); cbn; auto.
Qed.

Lemma add_not_negative (x y : number) :
  not_negative x -> not_negative y -> not_negative (x + y).
Proof.
  unfold not_negative, Reference.not_negative. intros Hx Hy.
  rewrite FloatAxioms.add_spec. unfold SF64add.
  destruct (Prim2SF x) as [sx | sx | | sx mx ex], (Prim2SF y) as [sy | sy | | sy my ey];
    cbn in Hx, Hy; subst; cbn [SFadd Reference.sign_clear]; auto.
  apply binary_normalize_sign. cbn [cond_Zopp]. lia.
Qed.

Lemma div_not_negative (x y : number) :
  not_negative x -> not_negative y -> not_negative (x / y).
Proof.
  unfold not_negative, Reference.not_negative. intros Hx Hy.
  rewrite div_spec. unfold SF64div.
  destruct (Prim2SF x) as [sx | sx | | sx mx ex], (Prim2SF y) as [sy | sy | | sy my ey];
    cbn in Hx, Hy; subst; cbn [SFdiv Reference.sign_clear xorb]; auto.
  destruct (SFdiv_core_binary prec emax (Z.pos mx) ex (Z.pos my) ey) as [[mz ez] lz].
  pose proof (binary_round_aux_sign prec emax false mz ez lz) as Hs.
  destruct (binary_round_aux prec emax false mz ez lz); cbn; auto.
Qed.

Lemma mul_not_negative (x y : number) :
  not_negative x -> not_negative y -> not_negative (x * y).
Proof.
  unfold not_negative, Reference.not_negative. intros Hx Hy.
  rewrite mul_spec. unfold SF64mul.
  destruct (Prim2SF x) as [sx | sx | | sx mx ex], (Prim2SF y) as [sy | sy | | sy my ey];
    cbn in Hx, Hy; subst; cbn [SFmul Reference.sign_clear xorb]; auto.
  pose proof (binary_round_aux_sign prec emax false (Z.pos (mx * my)) (ex + ey) loc_Exact) as Hs.
  destruct (binary_round_aux prec emax false (Z.pos (mx * my)) (ex + ey) loc_Exact); cbn; auto.
Qed.

Lemma of_nat_not_negative (n : nat) : not_negative (of_nat n).
Proof.
  unfold not_negative, Reference.not_negative, of_nat, of_Z.
  destruct (Z.of_nat n) as [| p | p] eqn:E; [reflexivity | | lia].
  rewrite of_uint63_spec. apply binary_normalize_sign.
  apply Uint63.to_Z_bounded.
Qed.

Lemma Math_max_with_zero (y : number) : not_negative (Math_max [0; y]).
Proof.
  unfold not_negative, Reference.not_negative, Math_max.
  cbn [Math_max_from]. change (is_nan 0) with false. cbv iota.
  change (is_PosZero 0 && is_NegZero neg_infinity)%bool with false. cbv iota.
  change (neg_infinity <? 0) with true. cbv iota.
  destruct (is_nan y) eqn:Hnan; [reflexivity |].
  change (is_NegZero 0) with false. rewrite andb_false_r.
  destruct (0 <? y) eqn:Hlt; [| reflexivity].
  rewrite FloatAxioms.ltb_spec in Hlt. change (Prim2SF 0) with (S754_zero false) in Hlt.
  destruct (Prim2SF y) as [s | s | | s m e]; cbn in Hlt |- *;
    try discriminate Hlt; destruct s; try discriminate Hlt; reflexivity.
Qed.

Lemma Array_reduce_invariant {A B : Type} (P : B -> Prop) (f : B -> A -> nat -> B)
  (a : list A) (init : B) :
  P init -> (forall acc x i, P acc -> P (f acc x i)) -> P (Array_reduce f a init).
Proof.
  intros Hinit Hstep. unfold Array_reduce.
  generalize 0%nat as i. revert init Hinit.
  induction a as [| x a IH]; intros init Hinit i; [exact Hinit |].
  cbn [fold_left fst snd]. apply IH. now apply Hstep.
Qed.

End SignBit.

(** X4.  The mean absolute error computed on the test windows is never
    below zero, whatever the predictions and the targets, their
    lengths included: it is [NaN] or a number whose sign bit is
    clear. *)
Theorem mean_absolute_error_not_negative (denormPred denormActual : list number) :
  Reference.not_negative (mean_absolute_error denormPred denormActual)
  /\ (mean_absolute_error denormPred denormActual <? 0)%float = false.
Proof.
  assert (H : Reference.not_negative (mean_absolute_error denormPred denormActual)).
  { unfold mean_absolute_error.
    apply div_not_negative; [| apply of_nat_not_negative].
    apply (Array_reduce_invariant Reference.not_negative); [reflexivity |].
    intros acc x i Hacc. apply add_not_negative; [exact Hacc | apply abs_not_negative]. }
  split; [exact H | now apply not_negative_ltb].
Qed.

(** X5.  Neither a term of the accuracy nor the accuracy itself is ever
    below zero: a prediction that is off by more than the actual
    value counts for 0, not for a negative share. *)
Theorem accuracy_percent_not_negative (denormPred denormActual : list number) :
  Forall (fun term => (term <? 0)%float = false) (percentageErrors denormPred denormActual)
  /\ Reference.not_negative (accuracy_percent denormPred denormActual)
  /\ (accuracy_percent denormPred denormActual <? 0)%float = false.
Proof.
  assert (Hterms : Forall Reference.not_negative (percentageErrors denormPred denormActual)).
  { unfold percentageErrors, Array_map. apply Forall_map, Forall_forall.
    intros xi _. apply Math_max_with_zero. }
  assert (H : Reference.not_negative (accuracy_percent denormPred denormActual)).
  { unfold accuracy_percent.
    apply mul_not_negative; [| reflexivity].
    apply div_not_negative; [| apply of_nat_not_negative].
    rewrite Array_reduce_fold.
    generalize (percentageErrors denormPred denormActual) Hterms.
    assert (Hsum : forall terms start,
               Reference.not_negative start -> Forall Reference.not_negative terms ->
               Reference.not_negative (fold_left (fun sum acc => (sum + acc)%float) terms start)).
    { induction terms as [| t terms IH]; intros start Hstart Hall; [exact Hstart |].
      cbn [fold_left]. inversion Hall as [| ? ? Ht Hrest]; subst.
      apply IH; [now apply add_not_negative | exact Hrest]. }
    intros terms Hall. apply Hsum; [reflexivity | exact Hall]. }
  split; [| split; [exact H | now apply not_negative_ltb]].
  eapply Forall_impl; [| exact Hterms]. intros term. apply not_negative_ltb.
Qed.

(** ** A value that is not a number in the series *)

Lemma Math_min_from_NaN (values : list number) (lowest x : number) :
  In x values -> is_nan x = true -> Math_min_from lowest values = nan.
Proof.
  intros Hin Hx. revert lowest. induction values as [| v values IH]; intro lowest.
  - destruct Hin.
  - cbn [Math_min_from]. destruct (is_nan v) eqn:Hv; [reflexivity |].
    destruct Hin as [-> | Hin]; [congruence |].
    destruct (is_NegZero v && is_PosZero lowest); [now apply IH |].
    destruct (v <? lowest)%float; now apply IH.
Qed.

Lemma Math_max_from_NaN (values : list number) (highest x : number) :
  In x values -> is_nan x = true -> Math_max_from highest values = nan.
Proof.
  intros Hin Hx. revert highest. induction values as [| v values IH]; intro highest.
  - destruct Hin.
  - cbn [Math_max_from]. destruct (is_nan v) eqn:Hv; [reflexivity |].
    destruct Hin as [-> | Hin]; [congruence |].
    destruct (is_PosZero v && is_NegZero highest); [now apply IH |].
    destruct (highest <? v)%float; now apply IH.
Qed.

Lemma over_NaN (x : number) : (x / nan)%float = nan.
Proof.
  apply Prim2SF_inj. rewrite div_spec. change (Prim2SF nan) with S754_nan.
  unfold SF64div. destruct (Prim2SF x); reflexivity.
Qed.

(** X6.  One value that is not a number spoils the scaling of the whole
    series: the least and the greatest value are then [NaN], and so
    is every scaled value, also those of the years whose total is a
    number. *)
Theorem normalizeData_NaN_spreads (data : list number) (x : number) :
  In x data -> is_nan x = true ->
  normalizeData data = (repeat nan (length data), nan, nan).
Proof.
  intros Hin Hx. unfold normalizeData.
  unfold Math_min, Math_max.
  rewrite (Math_min_from_NaN data infinity x Hin Hx).
  rewrite (Math_max_from_NaN data neg_infinity x Hin Hx).
  do 2 f_equal. clear. induction data as [| v data IH]; [reflexivity |].
  cbn [map length repeat]. rewrite IH. f_equal.
  change (nan - nan)%float with nan. apply over_NaN.
Qed.

Lemma normalizeData_NaN_spreads_witness :
  In nan [10; nan; 30]%float
  /\ is_nan nan = true
  /\ normalizeData [10; nan; 30]%float = ([nan; nan; nan], nan, nan).
Proof.
  assert (Hin : In nan [10; nan; 30]%float) by (right; left; reflexivity).
  split; [exact Hin |]. split; [reflexivity |].
  exact (@normalizeData_NaN_spreads [10; nan; 30]%float nan Hin eq_refl).
Defined.

(** ** The historical rows of the forecast table *)

Lemma recentHistorical_of (trainedModel : network) (lookback : nat)
  (emigrationData : list EmigrationData) (forecastYears : nat)
  (forecastData recentHistorical : list row) :
  forecast_tables trainedModel lookback emigrationData forecastYears
  = Normal (forecastData, recentHistorical) ->
  recentHistorical
  = Array_map (fun yearData index =>
                 {| year := Year yearData;
                    actual := Some (Math_round
                                      (at_index (map Reference.year_total emigrationData)
                                         (Z.of_nat (length emigrationData) - 10
                                          + Z.of_nat index)));
                    predicted := None;
                    type := "historical" |})
              (Array_slice_from emigrationData (-10)).
Proof.
  unfold forecast_tables, normalizeData. cbv beta iota zeta.
  rewrite extractTimeSeriesData_totals.
  destruct (forecast_loop _ _ _ _); [| discriminate]. cbn [bind].
  destruct (nth_error emigrationData (length emigrationData - 1)); [| discriminate].
  intro H. injection H as _ <-. now rewrite length_map.
Qed.

Lemma recentHistorical_last_ten (trainedModel : network) (lookback : nat)
  (emigrationData : list EmigrationData) (forecastYears : nat)
  (forecastData recentHistorical : list row) :
  10 <= length emigrationData ->
  forecast_tables trainedModel lookback emigrationData forecastYears
  = Normal (forecastData, recentHistorical) ->
  recentHistorical
  = map (fun yearData =>
           {| year := Year yearData;
              actual := Some (Math_round (Reference.year_total yearData));
              predicted := None;
              type := "historical" |})
        (skipn (length emigrationData - 10) emigrationData).
Proof.
  intros Hten Hrun. rewrite (recentHistorical_of _ _ _ _ Hrun).
  change (-10)%Z with (- Z.of_nat 10)%Z. rewrite Array_slice_last by lia.
  apply nth_error_ext. intro i.
  rewrite Array_map_nth, nth_error_map, nth_error_skipn.
  destruct (nth_error emigrationData (length emigrationData - 10 + i)) as [yearData |] eqn:E;
    [| reflexivity].
  cbn [option_map]. do 3 f_equal.
  replace (Z.of_nat (length emigrationData) - 10 + Z.of_nat i)%Z
    with (Z.of_nat (length emigrationData - 10 + i)) by lia.
  rewrite at_index_of_nat. f_equal.
  apply (nth_error_nth _ _ nan). now rewrite nth_error_map, E.
Qed.

(** X8.  With ten records or more, the historical rows of the forecast
    table are the last ten years, each with its own total, rounded. *)
Theorem recent_history_aligned (trainedModel : network) (lookback : nat)
  (emigrationData : list EmigrationData) (forecastYears : nat)
  (forecastData recentHistorical : list row) :
  10 <= length emigrationData ->
  forecast_tables trainedModel lookback emigrationData forecastYears
  = Normal (forecastData, recentHistorical) ->
  recentHistorical
  = map (fun yearData =>
           {| year := Year yearData;
              actual := Some (Math_round (Reference.year_total yearData));
              predicted := None;
              type := "historical" |})
        (skipn (length emigrationData - 10) emigrationData).
Proof.
  apply recentHistorical_last_ten.
Qed.

Lemma recent_history_aligned_witness :
  10 <= length Scenario.data13
  /\ exists forecastData recentHistorical,
       forecast_tables (Scenario.constant_network 0.5%float) 3 Scenario.data13 2
       = Normal (forecastData, recentHistorical)
       /\ map year recentHistorical
          = [2011; 2012; 2013; 2014; 2015; 2016; 2017; 2018; 2019; 2020]%float
       /\ map actual recentHistorical
          = [Some 15; Some 20; Some 18; Some 25; Some 30; Some 28; Some 35; Some 40;
             Some 38; Some 45]%float.
Proof.
  assert (Hten : 10 <= length Scenario.data13) by (vm_compute; lia).
  split; [exact Hten |].
  destruct (forecast_tables (Scenario.constant_network 0.5%float) 3 Scenario.data13 2)
    as [[forecastData recentHistorical] | message] eqn:Hrun.
  - exists forecastData, recentHistorical. split; [reflexivity |].
    rewrite (@recent_history_aligned _ _ _ _ _ _ Hten Hrun).
    split; vm_compute; reflexivity.
  - exfalso. vm_compute in Hrun. discriminate Hrun.
Defined.

(** X9.  With fewer than ten records the historical rows are out of
    step: there is one row per record, with the year of the record,
    but its value is the total of the record [10 - n] places earlier,
    and [NaN] when there is none. *)
Theorem short_history_is_shifted (trainedModel : network) (lookback : nat)
  (emigrationData : list EmigrationData) (forecastYears : nat)
  (forecastData recentHistorical : list row) :
  length emigrationData < 10 ->
  forecast_tables trainedModel lookback emigrationData forecastYears
  = Normal (forecastData, recentHistorical) ->
  map year recentHistorical = map Year emigrationData
  /\ forall i r,
       nth_error recentHistorical i = Some r ->
       actual r
       = Some (if i <? 10 - length emigrationData then nan
               else match nth_error emigrationData (i - (10 - length emigrationData)) with
                    | Some earlier => Math_round (Reference.year_total earlier)
                    | None => nan
                    end).
Proof.
  intros Hfew Hrun. rewrite (recentHistorical_of _ _ _ _ Hrun).
  change (-10)%Z with (- Z.of_nat 10)%Z. rewrite Array_slice_whole by lia.
  split.
  - apply nth_error_ext. intro i.
    rewrite !nth_error_map, Array_map_nth.
    destruct (nth_error emigrationData i); reflexivity.
  - intros i r Hr. rewrite Array_map_nth in Hr.
    destruct (nth_error emigrationData i) as [yearData |] eqn:E; [| discriminate Hr].
    cbn [option_map] in Hr. injection Hr as <-. cbn [actual]. f_equal.
    unfold at_index.
    destruct (Nat.ltb_spec i (10 - length emigrationData)) as [Hi | Hi].
    + destruct (Z.ltb_spec (Z.of_nat (length emigrationData) - 10 + Z.of_nat i) 0); [| lia].
      reflexivity.
    + destruct (Z.ltb_spec (Z.of_nat (length emigrationData) - 10 + Z.of_nat i) 0); [lia |].
      replace (Z.to_nat (Z.of_nat (length emigrationData) - 10 + Z.of_nat i))
        with (i - (10 - length emigrationData)) by lia.
      destruct (nth_error emigrationData (i - (10 - length emigrationData))) as [earlier |] eqn:E'.
      * f_equal. apply (nth_error_nth _ _ nan). now rewrite nth_error_map, E'.
      * apply nth_error_None in E'.
        assert (Hi' : i < length emigrationData) by (apply nth_error_Some; congruence).
        lia.
Qed.

Lemma short_history_is_shifted_witness :
  length (firstn 8 Scenario.data10) < 10
  /\ exists forecastData recentHistorical,
       forecast_tables (Scenario.constant_network 0.5%float) 3 (firstn 8 Scenario.data10) 1
       = Normal (forecastData, recentHistorical)
       /\ map year recentHistorical = [2011; 2012; 2013; 2014; 2015; 2016; 2017; 2018]%float
       /\ map actual recentHistorical
          = [Some nan; Some nan; Some 10; Some 12; Some 11; Some 15; Some 20; Some 18]%float.
Proof.
  assert (Hfew : length (firstn 8 Scenario.data10) < 10) by (vm_compute; lia).
  split; [exact Hfew |].
  destruct (forecast_tables (Scenario.constant_network 0.5%float) 3 (firstn 8 Scenario.data10) 1)
    as [[forecastData recentHistorical] | message] eqn:Hrun.
  - exists forecastData, recentHistorical. split; [reflexivity |].
    destruct (@short_history_is_shifted _ _ _ _ _ _ Hfew Hrun) as [Hyears _].
    split; [rewrite Hyears; reflexivity |].
    vm_compute in Hrun. injection Hrun as _ <-. reflexivity.
  - exfalso. vm_compute in Hrun. discriminate Hrun.
Defined.

(** ** What the tuning route exports *)

Lemma Forall_Array_map {A B : Type} (P : B -> Prop) (f : A -> nat -> B) (a : list A) :
  (forall x i, P (f x i)) -> Forall P (Array_map f a).
Proof.
  intro H. unfold Array_map. apply Forall_map, Forall_forall. intros xi _. apply H.
Qed.

Lemma forecast_tables_types (net : network) (L : nat) (emigrationData : list EmigrationData)
  (N : nat) (forecastData recentHistorical : list row) :
  forecast_tables net L emigrationData N = Normal (forecastData, recentHistorical) ->
  Forall (fun r => type r = "historical"%string) recentHistorical
  /\ Forall (fun r => type r = "forecast"%string) forecastData
  /\ length recentHistorical = Nat.min 10 (length emigrationData)
  /\ length forecastData = N.
Proof.
  intro Hrun.
  assert (Hdata : emigrationData <> []).
  { intro E. subst emigrationData.
    destruct (forecast_tables_empty net L N) as [message Hempty]. congruence. }
  destruct (last_element_exists Hdata) as [lastRecord Hlast].
  destruct (forecast_tables_closed_form net L emigrationData Hlast)
    as (hist & _ & _ & Hclosed).
  pose proof (recentHistorical_of _ _ _ _ Hrun) as Hhist.
  rewrite Hclosed in Hrun. injection Hrun as <- <-.
  split; [| split; [| split]].
  - rewrite Hhist. apply Forall_Array_map. reflexivity.
  - apply Forall_map, Forall_forall. reflexivity.
  - rewrite Hhist, Array_map_length.
    destruct (Nat.le_gt_cases 10 (length emigrationData)).
    + change (-10)%Z with (- Z.of_nat 10)%Z. rewrite Array_slice_last by lia.
      rewrite length_skipn. lia.
    + change (-10)%Z with (- Z.of_nat 10)%Z. rewrite Array_slice_whole by lia. lia.
  - now rewrite length_map, length_seq.
Qed.

Lemma Array_slice_but_last {A : Type} (a : list A) : Array_slice a 0 (-1) = removelast a.
Proof.
  rewrite removelast_firstn_len.
  unfold Array_slice, relative_index. change (0 <? 0)%Z with false. cbv iota.
  change (-1 <? 0)%Z with true. cbv iota.
  rewrite (Z.min_l 0) by lia. rewrite Z.sub_0_r. change (Z.to_nat 0) with 0. cbn [skipn].
  f_equal. lia.
Qed.

Lemma last_as_nth {A : Type} (l : list A) (d : A) : last l d = nth (length l - 1) l d.
Proof.
  induction l as [| x l IH]; [reflexivity |].
  destruct l as [| y l]; [reflexivity |].
  change (last (x :: y :: l) d) with (last (y :: l) d). rewrite IH.
  cbn [length]. rewrite !Nat.sub_succ, !Nat.sub_0_r. reflexivity.
Qed.

Lemma filter_all {A : Type} (f : A -> bool) (l : list A) :
  Forall (fun x => f x = true) l -> filter f l = l.
Proof.
  induction 1 as [| x l Hx _ IH]; [reflexivity |]. cbn [filter]. now rewrite Hx, IH.
Qed.

(** X10.  In the tuning route the table behind the chart is the
    historical rows but the last, one row of type [connection] that
    repeats the last historical year with its total as prediction,
    and the forecast rows.  The export drops the connection row and
    puts nothing in its place: the file holds the header, every
    historical row but the last one, and the forecast rows, so the
    last year on record is missing from it. *)
Theorem tuning_export_skips_last_year (Number_toString : number -> string)
  (bestModel : option LSTMModel) (emigrationData : list EmigrationData) (forecastYears : nat)
  (results : ForecastResults) :
  AutoTune.generateForecast bestModel emigrationData forecastYears = Shown results ->
  exists lastHistorical,
    historical results = removelast (historical results) ++ [lastHistorical]
    /\ combined results
       = removelast (historical results)
         ++ [ {| year := year lastHistorical;
                 actual := actual lastHistorical;
                 predicted := actual lastHistorical;
                 type := "connection" |} ]
         ++ forecasts results
    /\ AutoTune.exportForecast Number_toString (Some results)
       = Some (String.concat newline
                 (csv_header
                  :: map (csv_line Number_toString)
                       (removelast (historical results) ++ forecasts results)))
    /\ length (removelast (historical results) ++ forecasts results)
       = Nat.min 10 (length emigrationData) - 1 + forecastYears.
Proof.
  unfold AutoTune.generateForecast. intro Hrun.
  destruct bestModel as [best |]; [| discriminate Hrun].
  destruct (trainedModel best) as [net |]; [| discriminate Hrun].
  destruct (forecast_tables net (lookback best) emigrationData forecastYears)
    as [[forecastData recentHistorical] | message] eqn:Htables; [| discriminate Hrun].
  destruct (forecast_tables_types _ _ _ _ Htables) as (Hhist & Hfore & Hlen & HN).
  destruct (nth_error recentHistorical (length recentHistorical - 1)) as [lastHistorical |] eqn:Hlast;
    [| discriminate Hrun].
  injection Hrun as <-. cbn [historical combined forecasts].
  exists lastHistorical.
  assert (Hsplit : recentHistorical = removelast recentHistorical ++ [lastHistorical]).
  { assert (Hne : recentHistorical <> []) by (intro E; subst; discriminate Hlast).
    rewrite (app_removelast_last lastHistorical Hne) at 1. f_equal. f_equal.
    rewrite last_as_nth. now apply nth_error_nth. }
  split; [exact Hsplit |]. rewrite Array_slice_but_last.
  split; [reflexivity |]. split.
  - unfold AutoTune.exportForecast. cbn [combined]. do 3 f_equal.
    rewrite !filter_app. cbn [filter type String.eqb Ascii.eqb Bool.eqb negb app].
    rewrite (filter_all _ (l := forecastData)).
    2:{ eapply Forall_impl; [| exact Hfore]. intros r Hr. now rewrite Hr. }
    rewrite (filter_all _ (l := removelast recentHistorical)); [reflexivity |].
    rewrite Hsplit in Hhist. apply Forall_app in Hhist. destruct Hhist as [Hinit _].
    eapply Forall_impl; [| exact Hinit]. intros r Hr. now rewrite Hr.
  - rewrite length_app, HN. f_equal.
    apply (f_equal (@length row)) in Hsplit. rewrite length_app in Hsplit.
    cbn [length] in Hsplit. lia.
Qed.

Lemma tuning_export_skips_last_year_witness :
  exists results,
    AutoTune.generateForecast
      (Some (Scenario.trained_model 3 (Scenario.constant_network 0.5%float) (10%float, 35%float)))
      Scenario.data10 2
    = Shown results
    /\ map year (historical results)
       = [2011; 2012; 2013; 2014; 2015; 2016; 2017; 2018; 2019; 2020]%float
    /\ AutoTune.exportForecast Scenario.decimal (Some results)
       = Some (String.concat newline
                 [ "Year,Emigrants,Type"; "2011,10,historical"; "2012,12,historical";
                   "2013,11,historical"; "2014,15,historical"; "2015,20,historical";
                   "2016,18,historical"; "2017,25,historical"; "2018,30,historical";
                   "2019,28,historical"; "2021,23,forecast"; "2022,23,forecast" ]%string).
Proof.
  destruct (AutoTune.generateForecast
              (Some (Scenario.trained_model 3 (Scenario.constant_network 0.5%float)
                       (10%float, 35%float)))
              Scenario.data10 2) as [results | message | message | message] eqn:Hrun.
  - exists results. split; [reflexivity |].
    destruct (@tuning_export_skips_last_year Scenario.decimal _ _ _ _ Hrun)
      as (lastHistorical & _ & _ & Hexport & _).
    rewrite Hexport.
    vm_compute in Hrun. injection Hrun as <-. split; vm_compute; reflexivity.
  - exfalso. vm_compute in Hrun. discriminate Hrun.
  - exfalso. vm_compute in Hrun. discriminate Hrun.
  - exfalso. vm_compute in Hrun. discriminate Hrun.
Defined.

(** ** A year without emigrants in the exported table *)

Lemma tuning_rows_kept (bestModel : option LSTMModel) (emigrationData : list EmigrationData)
  (forecastYears : nat) (results : ForecastResults) :
  AutoTune.generateForecast bestModel emigrationData forecastYears = Shown results ->
  (exists best net,
      bestModel = Some best /\ trainedModel best = Some net
      /\ forecast_tables net (lookback best) emigrationData forecastYears
         = Normal (forecasts results, historical results))
  /\ filter (fun r => negb (String.eqb (type r) "connection")) (combined results)
     = removelast (historical results) ++ forecasts results.
Proof.
  unfold AutoTune.generateForecast. intro Hrun.
  destruct bestModel as [best |]; [| discriminate Hrun].
  destruct (trainedModel best) as [net |] eqn:Hnet; [| discriminate Hrun].
  destruct (forecast_tables net (lookback best) emigrationData forecastYears)
    as [[forecastData recentHistorical] | message] eqn:Htables; [| discriminate Hrun].
  destruct (forecast_tables_types _ _ _ _ Htables) as (Hhist & Hfore & _ & _).
  destruct (nth_error recentHistorical (length recentHistorical - 1)) as [lastHistorical |] eqn:Hlast;
    [| discriminate Hrun].
  injection Hrun as <-. cbn [historical combined forecasts].
  split; [exists best, net; repeat split; assumption |].
  rewrite Array_slice_but_last, !filter_app.
  cbn [filter type String.eqb Ascii.eqb Bool.eqb negb app].
  rewrite (filter_all _ (l := forecastData)).
  2:{ eapply Forall_impl; [| exact Hfore]. intros r Hr. now rewrite Hr. }
  rewrite (filter_all _ (l := removelast recentHistorical)); [reflexivity |].
  apply Forall_forall. intros r Hr. rewrite Forall_forall in Hhist.
  rewrite removelast_firstn_len in Hr. apply In_nth_error in Hr. destruct Hr as [i Hi].
  rewrite nth_error_firstn in Hi. destruct (i <? _); [| discriminate Hi].
  apply nth_error_In in Hi. now rewrite (Hhist r Hi).
Qed.

Lemma nth_error_removelast {A : Type} (l : list A) (i : nat) :
  S i < length l -> nth_error (removelast l) i = nth_error l i.
Proof.
  intro H. rewrite removelast_firstn_len, nth_error_firstn.
  destruct (Nat.ltb_spec i (Nat.pred (length l))); [reflexivity | lia].
Qed.

Section Exported.

Variable Number_toString : number -> string.

Lemma historical_line (r : row) (a : number) :
  actual r = Some a -> is_zero a = true ->
  predicted r = None -> type r = "historical"%string ->
  csv_line Number_toString r
  = (Number_toString (year r) ++ ",,historical")%string.
Proof.
  intros Ha Hzero Hp Ht. unfold csv_line, value_cell.
  now rewrite Ha, zero_or_else, Hp, Ht by assumption.
Qed.

Lemma zero_total_line (yearData : EmigrationData) :
  is_zero (Reference.year_total yearData) = true ->
  csv_line Number_toString
    {| year := Year yearData;
       actual := Some (Math_round (Reference.year_total yearData));
       predicted := None;
       type := "historical" |}
  = (Number_toString (Year yearData) ++ ",,historical")%string.
Proof.
  intro Hzero. apply historical_line with (a := Math_round (Reference.year_total yearData));
    try reflexivity.
  now rewrite Math_round_zero.
Qed.

(** C10.  In the exported file a line is the year, the value
    [actual || predicted] and the type of a row, separated by commas.
    When the actual value is [0], the value printed is the predicted
    one, and nothing is printed when there is none: the line is
    [year,predicted,type], respectively [year,,type], never
    [year,0,type].  The file of either route is the header
    [Year,Emigrants,Type] followed by one line per exported row, and in
    both routes an exported row with an actual value is a historical
    row without a prediction.  So with ten records or more, the line
    of a year among the last ten whose total is [0], which rounds to
    [0], is [year,,historical]; the tuning route exports no line for
    the last year. *)
Theorem zero_actual_is_exported_as_prediction :
  (forall (r : row) (a p : number),
      actual r = Some a -> is_zero a = true -> predicted r = Some p ->
      csv_line Number_toString r
      = (Number_toString (year r) ++ "," ++ Number_toString p ++ "," ++ type r)%string)
  /\ (forall (r : row) (a : number),
      actual r = Some a -> is_zero a = true -> predicted r = None ->
      csv_line Number_toString r = (Number_toString (year r) ++ ",," ++ type r)%string)
  /\ (forall v : number, is_zero v = true -> is_zero (Math_round v) = true)
  /\ (forall models selectedModelIndex emigrationData forecastYears results,
      Manual.generateForecast models selectedModelIndex emigrationData forecastYears
      = Shown results ->
      exists lines,
        Manual.exportForecast Number_toString (Some results)
        = Some (String.concat newline ("Year,Emigrants,Type"%string :: lines))
        /\ length lines = length (combined results)
        /\ (forall i r a,
            nth_error (combined results) i = Some r ->
            actual r = Some a -> is_zero a = true ->
            nth_error lines i = Some (Number_toString (year r) ++ ",,historical")%string)
        /\ (forall k yearData,
            10 <= length emigrationData ->
            nth_error emigrationData (length emigrationData - 10 + k) = Some yearData ->
            is_zero (Reference.year_total yearData) = true ->
            nth_error lines k
            = Some (Number_toString (Year yearData) ++ ",,historical")%string))
  /\ (forall bestModel emigrationData forecastYears results,
      AutoTune.generateForecast bestModel emigrationData forecastYears = Shown results ->
      exists lines,
        AutoTune.exportForecast Number_toString (Some results)
        = Some (String.concat newline ("Year,Emigrants,Type"%string :: lines))
        /\ length lines
           = length (filter (fun r => negb (String.eqb (type r) "connection"))
                       (combined results))
        /\ (forall i r a,
            nth_error (filter (fun r => negb (String.eqb (type r) "connection"))
                         (combined results)) i = Some r ->
            actual r = Some a -> is_zero a = true ->
            nth_error lines i = Some (Number_toString (year r) ++ ",,historical")%string)
        /\ (forall k yearData,
            10 <= length emigrationData -> k < 9 ->
            nth_error emigrationData (length emigrationData - 10 + k) = Some yearData ->
            is_zero (Reference.year_total yearData) = true ->
            nth_error lines k
            = Some (Number_toString (Year yearData) ++ ",,historical")%string)).
Proof.
  split; [| split; [| split; [| split]]].
  - intros r a p Ha Hzero Hp. unfold csv_line, value_cell.
    now rewrite Ha, zero_or_else, Hp by assumption.
  - intros r a Ha Hzero Hp. unfold csv_line, value_cell.
    now rewrite Ha, zero_or_else, Hp by assumption.
  - intros v Hzero. now rewrite Math_round_zero.
  - intros models selectedModelIndex emigrationData forecastYears results Hrun.
    exists (map (csv_line Number_toString) (combined results)).
    split; [reflexivity |]. split; [apply length_map |].
    unfold Manual.generateForecast in Hrun.
    destruct selectedModelIndex as [index |]; [| discriminate].
    destruct (nth_error models index) as [model |]; [| discriminate].
    destruct (trained model); [| discriminate].
    destruct (trainedModel model) as [net |]; [| discriminate].
    destruct (normalizationParams model); [| discriminate].
    destruct (forecast_tables net (lookback model) emigrationData forecastYears)
      as [[forecastData recentHistorical] |] eqn:Htables; [| discriminate].
    injection Hrun as <-. cbn [combined].
    split.
    + intros i r a Hr Ha Hzero. rewrite nth_error_map, Hr. cbn [option_map]. f_equal.
      destruct (forecast_tables_rows _ _ _ _ Htables) as [Hh Hf].
      destruct (exported_rows_with_actual r Hh Hf (nth_error_In _ _ Hr) Ha) as [Hp Ht].
      now apply historical_line with (a := a).
    + intros k yearData Hten Hk Hzero.
      rewrite (recentHistorical_last_ten _ _ _ _ Hten Htables).
      rewrite nth_error_map, nth_error_app1.
      2:{ rewrite length_map. apply nth_error_Some. rewrite nth_error_skipn, Hk. discriminate. }
      rewrite nth_error_map, nth_error_skipn, Hk. cbn [option_map]. f_equal.
      now apply zero_total_line.
  - intros bestModel emigrationData forecastYears results Hrun.
    exists (map (csv_line Number_toString)
              (filter (fun r => negb (String.eqb (type r) "connection")) (combined results))).
    split; [reflexivity |]. split; [apply length_map |].
    destruct (tuning_rows_kept _ _ _ Hrun) as [(best & net & _ & _ & Htables) Hkept].
    split.
    + intros i r a Hr Ha Hzero. rewrite nth_error_map, Hr. cbn [option_map]. f_equal.
      destruct (forecast_tables_rows _ _ _ _ Htables) as [Hh Hf].
      rewrite Hkept in Hr. apply nth_error_In in Hr.
      assert (Hin : In r (historical results ++ forecasts results)).
      { apply in_app_or in Hr. apply in_or_app. destruct Hr as [Hr | Hr]; [left | now right].
        rewrite removelast_firstn_len in Hr. apply In_nth_error in Hr. destruct Hr as [j Hj].
        rewrite nth_error_firstn in Hj. destruct (j <? _); [| discriminate Hj].
        eapply nth_error_In. exact Hj. }
      destruct (exported_rows_with_actual r Hh Hf Hin Ha) as [Hp Ht].
      now apply historical_line with (a := a).
    + intros k yearData Hten Hk9 Hk Hzero. rewrite Hkept.
      pose proof (recentHistorical_last_ten _ _ _ _ Hten Htables) as Hhist.
      assert (Hlen : length (historical results) = 10).
      { rewrite Hhist, length_map, length_skipn. lia. }
      rewrite nth_error_map, nth_error_app1
        by (rewrite removelast_firstn_len, length_firstn; lia).
      rewrite nth_error_removelast by lia.
      rewrite Hhist, nth_error_map, nth_error_skipn, Hk. cbn [option_map]. f_equal.
      now apply zero_total_line.
Qed.

End Exported.

Lemma zero_actual_is_exported_as_prediction_witness :
  actual {| year := 2013%float; actual := Some 0%float; predicted := Some 7%float;
            type := "historical" |}
  = Some 0%float
  /\ is_zero 0%float = true
  /\ csv_line Scenario.decimal
       {| year := 2013%float; actual := Some 0%float; predicted := Some 7%float;
          type := "historical" |}
     = "2013,7,historical"%string
  /\ exists results,
       Manual.generateForecast
         [Scenario.trained_model 3 (Scenario.constant_network 0.5%float) (0%float, 35%float)]
         (Some 0) Scenario.data10_gap 2
       = Shown results
       /\ Manual.exportForecast Scenario.decimal (Some results)
          = Some (String.concat newline
                    [ "Year,Emigrants,Type"; "2011,10,historical"; "2012,12,historical";
                      "2013,,historical"; "2014,15,historical"; "2015,20,historical";
                      "2016,18,historical"; "2017,25,historical"; "2018,30,historical";
                      "2019,28,historical"; "2020,35,historical"; "2021,18,forecast";
                      "2022,18,forecast" ]%string).
Proof.
  split; [reflexivity |]. split; [reflexivity |].
  split.
  - rewrite (proj1 (zero_actual_is_exported_as_prediction Scenario.decimal)
               {| year := 2013%float; actual := Some 0%float; predicted := Some 7%float;
                  type := "historical" |}
               0%float 7%float eq_refl eq_refl eq_refl).
    vm_compute. reflexivity.
  - eexists. split; [vm_compute; reflexivity |]. vm_compute. reflexivity.
Defined.

(** ** The windows the network is applied to when forecasting *)

Lemma forecast_loop_agree (net net' : network) (K remaining : nat)
  (currentSequence predictions : list number) :
  (forall window, length window = K -> net window = net' window) ->
  0 < K -> length currentSequence = K ->
  forecast_loop net remaining currentSequence predictions
  = forecast_loop net' remaining currentSequence predictions.
Proof.
  intros Hagree HK. revert currentSequence predictions.
  induction remaining as [| remaining IH]; intros currentSequence predictions Hlen;
    [reflexivity |].
  cbn [forecast_loop]. rewrite (Hagree currentSequence Hlen).
  destruct currentSequence as [| v rest] eqn:E; [reflexivity |]. rewrite <- E. apply IH.
  rewrite Array_slice_from_1, length_app. cbn [length].
  subst currentSequence. cbn [length tl] in *. lia.
Qed.

Lemma forecast_tables_without_records (net net' : network) (L forecastYears : nat) :
  forecast_tables net L [] forecastYears = forecast_tables net' L [] forecastYears.
Proof.
  destruct forecastYears as [| forecastYears]; [reflexivity |].
  unfold forecast_tables, normalizeData. cbv beta iota zeta.
  change (extractTimeSeriesData []) with (@nil number). cbn [map].
  unfold Array_slice_from, Array_slice. rewrite skipn_nil, firstn_nil.
  reflexivity.
Qed.

(** X11.  While forecasting, the network is only ever applied to windows
    of one length: the lookback [L] when [1 <= L <= n], and the length
    [n] of the whole series when [L] is 0 or exceeds [n].  Two networks
    that agree on the windows of that length give the same tables. *)
Theorem forecast_window_length (net net' : network) (L : nat)
  (emigrationData : list EmigrationData) (forecastYears : nat) :
  (forall window,
      length window = (if L =? 0 then length emigrationData
                       else Nat.min L (length emigrationData)) ->
      net window = net' window) ->
  forecast_tables net L emigrationData forecastYears
  = forecast_tables net' L emigrationData forecastYears.
Proof.
  intro Hagree.
  destruct emigrationData as [| r rest] eqn:E; [apply forecast_tables_without_records |].
  rewrite <- E in *. unfold forecast_tables.
  pose proof (scaled_series_length emigrationData) as Hlen.
  unfold Reference.scaled_series in Hlen.
  destruct (normalizeData (extractTimeSeriesData emigrationData)) as [[normalized lowest] highest].
  cbn [fst] in Hlen.
  rewrite (@forecast_loop_agree net net'
             (if L =? 0 then length emigrationData else Nat.min L (length emigrationData))
             forecastYears (Array_slice_from normalized (- Z.of_nat L)) [] Hagree);
    [reflexivity | |].
  - rewrite E. cbn [length]. destruct L; cbn [Nat.eqb]; lia.
  - rewrite forecast_seed_length. now rewrite Hlen.
Qed.

Lemma forecast_window_length_witness :
  (forall window,
      length window = (if 3 =? 0 then length Scenario.data10
                       else Nat.min 3 (length Scenario.data10)) ->
      Scenario.constant_network 0.5%float window
      = (fun w => if length w =? 3 then 0.5%float else 0.9%float) window)
  /\ forecast_tables (Scenario.constant_network 0.5%float) 3 Scenario.data10 4
     = forecast_tables (fun w => if length w =? 3 then 0.5%float else 0.9%float) 3
         Scenario.data10 4.
Proof.
  assert (H : forall window,
             length window = (if 3 =? 0 then length Scenario.data10
                              else Nat.min 3 (length Scenario.data10)) ->
             Scenario.constant_network 0.5%float window
             = (fun w => if length w =? 3 then 0.5%float else 0.9%float) window).
  { intros window Hw. cbn in Hw. cbn beta. rewrite Hw. reflexivity. }
  split; [exact H |].
  exact (@forecast_window_length _ _ 3 Scenario.data10 4 H).
Defined.

(** ** When a forecast is shown *)

(** X12.  A forecast is shown only for a model that holds a trained
    network (in the manual route: a selected model, marked as trained,
    with a network and stored scaling parameters) and on at least one
    record; it then has one forecast row per requested year and at most
    ten historical rows.  On an empty data set the handler fails
    instead, for such a model, whatever the horizon. *)
Theorem forecast_guards :
  (forall models selectedModelIndex emigrationData forecastYears results,
      Manual.generateForecast models selectedModelIndex emigrationData forecastYears
      = Shown results ->
      exists index model net params,
        selectedModelIndex = Some index
        /\ nth_error models index = Some model
        /\ trained model = true
        /\ trainedModel model = Some net
        /\ normalizationParams model = Some params
        /\ emigrationData <> []
        /\ length (forecasts results) = forecastYears
        /\ length (historical results) = Nat.min 10 (length emigrationData)
        /\ combined results = historical results ++ forecasts results)
  /\ (forall bestModel emigrationData forecastYears results,
      AutoTune.generateForecast bestModel emigrationData forecastYears = Shown results ->
      exists best net,
        bestModel = Some best
        /\ trainedModel best = Some net
        /\ emigrationData <> []
        /\ length (forecasts results) = forecastYears
        /\ length (historical results) = Nat.min 10 (length emigrationData))
  /\ (forall models index model net params forecastYears,
      nth_error models index = Some model ->
      trained model = true -> trainedModel model = Some net ->
      normalizationParams model = Some params ->
      exists message,
        Manual.generateForecast models (Some index) [] forecastYears = Failed message)
  /\ (forall best net forecastYears,
      trainedModel best = Some net ->
      exists message,
        AutoTune.generateForecast (Some best) [] forecastYears = Failed message).
Proof.
  split; [| split; [| split]].
  - intros models selectedModelIndex emigrationData forecastYears results Hrun.
    unfold Manual.generateForecast in Hrun.
    destruct selectedModelIndex as [index |]; [| discriminate Hrun].
    destruct (nth_error models index) as [model |] eqn:Hmodel; [| discriminate Hrun].
    destruct (trained model) eqn:Htrained; [| discriminate Hrun].
    destruct (trainedModel model) as [net |] eqn:Hnet; [| discriminate Hrun].
    destruct (normalizationParams model) as [params |] eqn:Hparams; [| discriminate Hrun].
    destruct (forecast_tables net (lookback model) emigrationData forecastYears)
      as [[forecastData recentHistorical] | message] eqn:Htables; [| discriminate Hrun].
    injection Hrun as <-. cbn [forecasts historical combined].
    destruct (forecast_tables_types _ _ _ _ Htables) as (_ & _ & Hlen & HN).
    exists index, model, net, params. repeat split; try assumption.
    intro E. subst emigrationData.
    destruct (forecast_tables_empty net (lookback model) forecastYears) as [message Hempty].
    congruence.
  - intros bestModel emigrationData forecastYears results Hrun.
    unfold AutoTune.generateForecast in Hrun.
    destruct bestModel as [best |]; [| discriminate Hrun].
    destruct (trainedModel best) as [net |] eqn:Hnet; [| discriminate Hrun].
    destruct (forecast_tables net (lookback best) emigrationData forecastYears)
      as [[forecastData recentHistorical] | message] eqn:Htables; [| discriminate Hrun].
    destruct (nth_error recentHistorical (length recentHistorical - 1)); [| discriminate Hrun].
    injection Hrun as <-. cbn [forecasts historical].
    destruct (forecast_tables_types _ _ _ _ Htables) as (_ & _ & Hlen & HN).
    exists best, net. repeat split; try assumption.
    intro E. subst emigrationData.
    destruct (forecast_tables_empty net (lookback best) forecastYears) as [message Hempty].
    congruence.
  - intros models index model net params forecastYears Hmodel Htrained Hnet Hparams.
    unfold Manual.generateForecast. rewrite Hmodel, Htrained, Hnet, Hparams.
    destruct (forecast_tables_empty net (lookback model) forecastYears) as [message ->].
    eexists. reflexivity.
  - intros best net forecastYears Hnet.
    unfold AutoTune.generateForecast. rewrite Hnet.
    destruct (forecast_tables_empty net (lookback best) forecastYears) as [message ->].
    eexists. reflexivity.
Qed.

(** ** From training to forecasting *)

Lemma trainSingleModel_result (Number_toString : number -> string) tf_fit
  (emigrationData : list EmigrationData) (L neurons : nat) (rate : number)
  (name : string) (model : LSTMModel) :
  trainSingleModel Number_toString tf_fit emigrationData L neurons rate name = Normal model ->
  L + 10 <= length emigrationData
  /\ modelName model = name
  /\ lookback model = L
  /\ lstmNeurons model = neurons
  /\ dropout model = rate
  /\ trained model = true
  /\ normalizationParams model
     = Some (Reference.series_min emigrationData, Reference.series_max emigrationData)
  /\ exists net, trainedModel model = Some net.
Proof.
  intro Hrun.
  destruct (Nat.lt_ge_cases (length emigrationData) (L + 10)) as [Hfew | Hguard].
  { unfold trainSingleModel in Hrun.
    rewrite training_windows_guard in Hrun by exact Hfew. discriminate Hrun. }
  split; [exact Hguard |].
  unfold trainSingleModel, training_windows in Hrun.
  rewrite extractTimeSeriesData_length in Hrun.
  destruct (Nat.ltb_spec (length emigrationData) (L + 10)); [lia |].
  unfold Reference.series_min, Reference.series_max.
  destruct (normalizeData (extractTimeSeriesData emigrationData)) as [[normalized lowest] highest].
  destruct (split_sequences normalized L) as [[trainSeq testSeq] | message];
    [| discriminate Hrun].
  cbn [bind fst snd] in Hrun.
  destruct (tf_fit L neurons rate trainSeq testSeq) as [lstmModel | message];
    [| discriminate Hrun].
  cbn [bind] in Hrun. injection Hrun as <-. cbn.
  repeat split. now exists lstmModel.
Qed.

Lemma forecast_tables_returns (net : network) (L : nat) (emigrationData : list EmigrationData)
  (N : nat) :
  emigrationData <> [] ->
  exists forecastData recentHistorical,
    forecast_tables net L emigrationData N = Normal (forecastData, recentHistorical)
    /\ length forecastData = N
    /\ recentHistorical <> [].
Proof.
  intro Hdata. destruct (last_element_exists Hdata) as [lastRecord Hlast].
  destruct (forecast_tables_closed_form net L emigrationData Hlast)
    as (hist & Hne & _ & Hclosed).
  eexists. exists hist. split; [apply Hclosed |].
  split; [now rewrite length_map, length_seq | exact Hne].
Qed.

Lemma tuning_forecast_shown (best : LSTMModel) (net : network)
  (emigrationData : list EmigrationData) (N : nat) :
  trainedModel best = Some net -> emigrationData <> [] ->
  exists results,
    AutoTune.generateForecast (Some best) emigrationData N = Shown results
    /\ length (forecasts results) = N.
Proof.
  intros Hnet Hdata. unfold AutoTune.generateForecast. rewrite Hnet.
  destruct (forecast_tables_returns net (lookback best) N Hdata)
    as (forecastData & recentHistorical & Hrun & HN & Hne).
  rewrite Hrun.
  destruct (last_element_exists Hne) as [lastHistorical Hlast]. rewrite Hlast.
  eexists. split; [reflexivity | exact HN].
Qed.

(** X13.  A model returned by the trainer carries the configuration it
    was asked for, is marked as trained, and stores as scaling
    parameters the least and greatest yearly totals of the data it was
    trained on; the data then hold at least [lookback + 10] records.
    On the same data the tuning route shows a forecast for it, with one
    row per requested year. *)
Theorem trained_model_forecasts (Number_toString : number -> string) tf_fit
  (emigrationData : list EmigrationData) (L neurons : nat) (rate : number)
  (name : string) (model : LSTMModel) (forecastYears : nat) :
  trainSingleModel Number_toString tf_fit emigrationData L neurons rate name = Normal model ->
  L + 10 <= length emigrationData
  /\ (modelName model, lookback model, lstmNeurons model, dropout model)
     = (name, L, neurons, rate)
  /\ trained model = true
  /\ normalizationParams model
     = Some (Reference.series_min emigrationData, Reference.series_max emigrationData)
  /\ exists results,
       AutoTune.generateForecast (Some model) emigrationData forecastYears = Shown results
       /\ length (forecasts results) = forecastYears.
Proof.
  intro Hrun.
  destruct (trainSingleModel_result _ _ _ _ _ _ _ Hrun)
    as (Hguard & Hname & HL & Hneurons & Hrate & Htrained & Hparams & net & Hnet).
  split; [exact Hguard |]. split; [now rewrite Hname, HL, Hneurons, Hrate |].
  split; [exact Htrained |]. split; [exact Hparams |].
  apply (tuning_forecast_shown _ _ Hnet).
  intro E. subst emigrationData. cbn [length] in Hguard. lia.
Qed.

Lemma trained_model_forecasts_witness :
  exists model,
    trainSingleModel Scenario.decimal Scenario.stub_fit Scenario.data20 3 32 0.1%float
      "L3_N32_D0.1"
    = Normal model
    /\ normalizationParams model = Some (10%float, 35%float)
    /\ exists results,
         AutoTune.generateForecast (Some model) Scenario.data20 5 = Shown results
         /\ length (forecasts results) = 5.
Proof.
  destruct (trainSingleModel Scenario.decimal Scenario.stub_fit Scenario.data20 3 32 0.1%float
              "L3_N32_D0.1") as [model | message] eqn:Hrun.
  - exists model. split; [reflexivity |].
    destruct (@trained_model_forecasts _ _ _ _ _ _ _ _ 5 Hrun)
      as (_ & _ & _ & Hparams & Hforecast).
    split; [| exact Hforecast].
    rewrite Hparams. vm_compute. reflexivity.
  - exfalso. vm_compute in Hrun. discriminate Hrun.
Defined.

Lemma replace_at_nth {A : Type} (a : list A) (index : nat) (x : A) (j : nat) :
  nth_error (Manual.replace_at a index x) j
  = if j =? index then option_map (fun _ => x) (nth_error a j) else nth_error a j.
Proof.
  revert index j. induction a as [| y a IH]; intros index j.
  - cbn [Manual.replace_at]. destruct j; destruct (_ =? _); reflexivity.
  - destruct index as [| index], j as [| j]; cbn [Manual.replace_at nth_error Nat.eqb];
      try reflexivity.
    apply IH.
Qed.

Lemma replace_at_length {A : Type} (a : list A) (index : nat) (x : A) :
  length (Manual.replace_at a index x) = length a.
Proof.
  revert index. induction a as [| y a IH]; intro index; [reflexivity |].
  destruct index; cbn [Manual.replace_at length]; [reflexivity | now rewrite IH].
Qed.

(** X14.  In the manual route, training the model at [index] replaces
    that entry and no other: the list keeps its length and every other
    model.  The new entry has the name and the hyper-parameters of the
    configuration, is marked as trained, and once selected it gives a
    forecast on the same data, with one row per requested year. *)
Theorem trainModel_updates_one_entry (Number_toString : number -> string) tf_fit
  (dataLoaded : bool) (emigrationData : list EmigrationData)
  (models models' : list LSTMModel) (index forecastYears : nat) :
  Manual.trainModel Number_toString tf_fit dataLoaded emigrationData models index
  = Shown models' ->
  length models' = length models
  /\ (forall j, j <> index -> nth_error models' j = nth_error models j)
  /\ exists modelConfig model,
       nth_error models index = Some modelConfig
       /\ nth_error models' index = Some model
       /\ (modelName model, lookback model, lstmNeurons model, dropout model)
          = (modelName modelConfig, lookback modelConfig, lstmNeurons modelConfig,
             dropout modelConfig)
       /\ trained model = true
       /\ lookback model + 10 <= length emigrationData
       /\ exists results,
            Manual.generateForecast models' (Some index) emigrationData forecastYears
            = Shown results
            /\ length (forecasts results) = forecastYears.
Proof.
  unfold Manual.trainModel. intro Hrun.
  destruct (negb dataLoaded || (length emigrationData =? 0)); [discriminate Hrun |].
  destruct (nth_error models index) as [modelConfig |] eqn:Hconfig; [| discriminate Hrun].
  destruct (trainSingleModel _ _ _ _ _ _ _) as [model | message] eqn:Htrain;
    [| discriminate Hrun].
  injection Hrun as <-.
  destruct (trainSingleModel_result _ _ _ _ _ _ _ Htrain)
    as (Hguard & Hname & HL & Hneurons & Hrate & Htrained & Hparams & net & Hnet).
  split; [apply replace_at_length |]. split.
  { intros j Hj. rewrite replace_at_nth.
    destruct (Nat.eqb_spec j index); [contradiction | reflexivity]. }
  exists modelConfig, model. split; [reflexivity |].
  assert (Hnew : nth_error (Manual.replace_at models index model) index = Some model).
  { rewrite replace_at_nth, Nat.eqb_refl, Hconfig. reflexivity. }
  split; [exact Hnew |]. split; [now rewrite Hname, HL, Hneurons, Hrate |].
  split; [exact Htrained |]. split; [now rewrite HL |].
  unfold Manual.generateForecast. rewrite Hnew, Htrained, Hnet, Hparams.
  assert (Hdata : emigrationData <> []).
  { intro E. subst emigrationData. cbn [length] in Hguard. lia. }
  destruct (forecast_tables_returns net (lookback model) forecastYears Hdata)
    as (forecastData & recentHistorical & Htables & HN & _).
  rewrite Htables. eexists. split; [reflexivity | exact HN].
Qed.

Lemma trainModel_updates_one_entry_witness :
  exists models',
    Manual.trainModel Scenario.decimal Scenario.stub_fit true Scenario.data20
      [Scenario.trained_model 3 (Scenario.constant_network 0.5%float) (0%float, 1%float);
       Scenario.trained_model 3 (Scenario.constant_network 0.5%float) (0%float, 1%float)] 1
    = Shown models'
    /\ length models' = 2
    /\ nth_error models' 0
       = Some (Scenario.trained_model 3 (Scenario.constant_network 0.5%float) (0%float, 1%float)).
Proof.
  destruct (Manual.trainModel Scenario.decimal Scenario.stub_fit true Scenario.data20
              [Scenario.trained_model 3 (Scenario.constant_network 0.5%float) (0%float, 1%float);
               Scenario.trained_model 3 (Scenario.constant_network 0.5%float) (0%float, 1%float)]
              1) as [models' | message | message | message] eqn:Hrun.
  - exists models'.
    destruct (@trainModel_updates_one_entry _ _ _ _ _ _ _ 5 Hrun) as (Hlen & Hothers & _).
    split; [reflexivity |]. split; [exact Hlen |].
    rewrite (Hothers 0) by discriminate. reflexivity.
  - exfalso. vm_compute in Hrun. discriminate Hrun.
  - exfalso. vm_compute in Hrun. discriminate Hrun.
  - exfalso. vm_compute in Hrun. discriminate Hrun.
Defined.

(** ** What the search returns *)

Lemma successful_models_origin (Number_toString : number -> string) tf_fit
  (emigrationData : list EmigrationData) (combinations : list AutoTune.combination) :
  Forall (fun m =>
            exists c,
              In c combinations
              /\ trainSingleModel Number_toString tf_fit emigrationData
                   (AutoTune.c_lookback c) (AutoTune.c_neurons c) (AutoTune.c_dropout c)
                   (AutoTune.configName_of Number_toString c)
                 = Normal m)
         (Reference.successful_models Number_toString tf_fit emigrationData combinations)
  /\ length (Reference.successful_models Number_toString tf_fit emigrationData combinations)
     <= length combinations.
Proof.
  induction combinations as [| c combinations [IH IHlen]]; [split; [constructor | apply le_n] |].
  unfold Reference.successful_models in *. cbn [flat_map].
  destruct (trainSingleModel Number_toString tf_fit emigrationData
              (AutoTune.c_lookback c) (AutoTune.c_neurons c) (AutoTune.c_dropout c)
              (AutoTune.configName_of Number_toString c)) as [model | message] eqn:E;
    cbn [app length]; (split; [| lia]).
  - constructor.
    + exists c. split; [now left | exact E].
    + eapply Forall_impl; [| exact IH]. intros m (c' & Hin & Hrun).
      exists c'. split; [now right | exact Hrun].
  - eapply Forall_impl; [| exact IH]. intros m (c' & Hin & Hrun).
    exists c'. split; [now right | exact Hrun].
Qed.

Lemma autoTuneModels_result (Number_toString : number -> string) tf_fit
  (space : AutoTune.search_space) (dataLoaded : bool)
  (emigrationData : list EmigrationData) (previousBest : option LSTMModel)
  (result : AutoTune.tuned) :
  AutoTune.autoTuneModels Number_toString tf_fit space dataLoaded emigrationData previousBest
  = Some result ->
  dataLoaded = true
  /\ emigrationData <> []
  /\ Permutation (AutoTune.models result)
       (Reference.successful_models Number_toString tf_fit emigrationData
          (AutoTune.combinations_of space))
  /\ length (AutoTune.progress result) = length (AutoTune.combinations_of space)
  /\ AutoTune.bestModel result
     = match AutoTune.models result with
       | [] => previousBest
       | best :: _ => Some best
       end.
Proof.
  unfold AutoTune.autoTuneModels. intro Hrun.
  destruct dataLoaded; [| discriminate Hrun].
  destruct emigrationData as [| r rest]; [discriminate Hrun |].
  cbn [negb orb length Nat.eqb] in Hrun. injection Hrun as <-.
  cbn [AutoTune.models AutoTune.progress AutoTune.bestModel].
  split; [reflexivity |]. split; [discriminate |].
  unfold AutoTune.tuning_loop, Array_reduce.
  destruct (tuning_fold Number_toString tf_fit (r :: rest)
              (length (AutoTune.combinations_of space))
              (AutoTune.combinations_of space) AutoTune.tuning_start 0)
    as (Hmodels & more & Hreports & Hcurrent & _).
  cbn [AutoTune.allModels AutoTune.reports AutoTune.tuning_start app] in Hmodels, Hreports.
  rewrite Hmodels, Hreports.
  destruct (Array_sort_stable AutoTune.by_accuracy
              (fun m => Reference.number_rank (or_zero (accuracy m))) by_accuracy_sign
              (Reference.successful_models Number_toString tf_fit (r :: rest)
                 (AutoTune.combinations_of space)))
    as (_ & Hperm & _).
  split; [exact Hperm |]. split; [| reflexivity].
  rewrite <- (length_map AutoTune.current), Hcurrent. apply length_seq.
Qed.

(** X15.  Every model the search returns is marked as trained, holds a
    network, and carries the hyper-parameters and the name of one
    configuration of the search space, which asks for no more than
    [length - 10] values of lookback.  There are at most as many models
    as configurations, and one progress report per configuration.  When
    one model at least was trained, the best model is the first of the
    list and a forecast can be made from it on the same data. *)
Theorem tuned_models_are_trained (Number_toString : number -> string) tf_fit
  (space : AutoTune.search_space) (dataLoaded : bool)
  (emigrationData : list EmigrationData) (previousBest : option LSTMModel)
  (result : AutoTune.tuned) :
  AutoTune.autoTuneModels Number_toString tf_fit space dataLoaded emigrationData previousBest
  = Some result ->
  Forall (fun m =>
            trained m = true
            /\ (exists net, trainedModel m = Some net)
            /\ (exists c,
                  In c (AutoTune.combinations_of space)
                  /\ (lookback m, lstmNeurons m, dropout m)
                     = (AutoTune.c_lookback c, AutoTune.c_neurons c, AutoTune.c_dropout c)
                  /\ modelName m = AutoTune.configName_of Number_toString c)
            /\ lookback m + 10 <= length emigrationData)
         (AutoTune.models result)
  /\ length (AutoTune.models result) <= length (AutoTune.combinations_of space)
  /\ length (AutoTune.progress result) = length (AutoTune.combinations_of space)
  /\ (AutoTune.models result <> [] ->
      exists best,
        AutoTune.bestModel result = Some best
        /\ nth_error (AutoTune.models result) 0 = Some best
        /\ forall forecastYears,
             exists results,
               AutoTune.generateForecast (Some best) emigrationData forecastYears
               = Shown results
               /\ length (forecasts results) = forecastYears).
Proof.
  intro Hrun.
  destruct (autoTuneModels_result _ _ _ _ _ _ Hrun)
    as (_ & Hdata & Hperm & Hprogress & Hbest).
  destruct (successful_models_origin Number_toString tf_fit emigrationData
              (AutoTune.combinations_of space)) as [Horigin Hcount].
  assert (Hall : Forall (fun m =>
                           trained m = true
                           /\ (exists net, trainedModel m = Some net)
                           /\ (exists c,
                                 In c (AutoTune.combinations_of space)
                                 /\ (lookback m, lstmNeurons m, dropout m)
                                    = (AutoTune.c_lookback c, AutoTune.c_neurons c,
                                       AutoTune.c_dropout c)
                                 /\ modelName m = AutoTune.configName_of Number_toString c)
                           /\ lookback m + 10 <= length emigrationData)
                        (AutoTune.models result)).
  { eapply Permutation_Forall; [apply Permutation_sym, Hperm |].
    eapply Forall_impl; [| exact Horigin]. intros m (c & Hin & Htrain).
    destruct (trainSingleModel_result _ _ _ _ _ _ _ Htrain)
      as (Hguard & Hname & HL & Hneurons & Hrate & Htrained & _ & Hnet).
    split; [exact Htrained |]. split; [exact Hnet |]. split; [| now rewrite HL].
    exists c. split; [exact Hin |]. split; [now rewrite HL, Hneurons, Hrate | exact Hname]. }
  split; [exact Hall |].
  split; [rewrite (Permutation_length Hperm); exact Hcount |].
  split; [exact Hprogress |].
  intro Hne. destruct (AutoTune.models result) as [| best others]; [congruence |].
  exists best. split; [exact Hbest |]. split; [reflexivity |].
  intro forecastYears. inversion Hall as [| ? ? (_ & (net & Hnet) & _) _]; subst.
  now apply (tuning_forecast_shown _ _ Hnet).
Qed.

Lemma tuned_models_are_trained_witness :
  exists result,
    AutoTune.autoTuneModels Scenario.decimal Scenario.stub_fit AutoTune.HYPERPARAMETERS true
      Scenario.data20 None
    = Some result
    /\ Forall (fun m => trained m = true) (AutoTune.models result)
    /\ length (AutoTune.models result) <= 4.
Proof.
  destruct (AutoTune.autoTuneModels Scenario.decimal Scenario.stub_fit AutoTune.HYPERPARAMETERS
              true Scenario.data20 None) as [result |] eqn:Hrun.
  - exists result. split; [reflexivity |].
    destruct (@tuned_models_are_trained _ _ _ _ _ _ _ Hrun) as (Hall & Hlen & _).
    split; [| exact Hlen].
    eapply Forall_impl; [| exact Hall]. intros m H. apply H.
  - exfalso. vm_compute in Hrun. discriminate Hrun.
Defined.

Section ShortSeries.

Variable Number_toString : number -> string.
Variable tf_fit :
  nat -> nat -> number ->
  list (list number) * list number -> list (list number) * list number ->
  completion network.
Variable emigrationData : list EmigrationData.
Variable totalCombinations : nat.

Lemma tuning_step_without_success (state : AutoTune.tuning) (c : AutoTune.combination)
  (i : nat) :
  length emigrationData < AutoTune.c_lookback c + 10 ->
  let next := AutoTune.tuning_step Number_toString tf_fit emigrationData totalCombinations
                state c i in
  AutoTune.allModels next = AutoTune.allModels state
  /\ AutoTune.bestAccuracy next = AutoTune.bestAccuracy state
  /\ AutoTune.bestConfig next = AutoTune.bestConfig state
  /\ exists report,
       AutoTune.reports next = AutoTune.reports state ++ [report]
       /\ AutoTune.bestSoFar report
          = if (0 <? AutoTune.bestAccuracy state)%float
            then Some (AutoTune.bestAccuracy state, AutoTune.bestConfig state)
            else None.
Proof.
  intro Hc. unfold AutoTune.tuning_step, trainSingleModel.
  rewrite training_windows_guard by exact Hc. cbn [bind].
  cbn [AutoTune.allModels AutoTune.reports AutoTune.bestAccuracy AutoTune.bestConfig].
  repeat split. eexists. split; reflexivity.
Qed.

Lemma tuning_without_success (l : list AutoTune.combination) (state : AutoTune.tuning)
  (i : nat) :
  Forall (fun c => length emigrationData < AutoTune.c_lookback c + 10) l ->
  let final :=
    fst (fold_left
           (fun (st : AutoTune.tuning * nat) c =>
              (AutoTune.tuning_step Number_toString tf_fit emigrationData totalCombinations
                 (fst st) c (snd st), S (snd st)))
           l (state, i)) in
  AutoTune.allModels final = AutoTune.allModels state
  /\ exists more,
       AutoTune.reports final = AutoTune.reports state ++ more
       /\ length more = length l
       /\ Forall (fun report =>
                    AutoTune.bestSoFar report
                    = if (0 <? AutoTune.bestAccuracy state)%float
                      then Some (AutoTune.bestAccuracy state, AutoTune.bestConfig state)
                      else None)
                 more.
Proof.
  intro Hshort. revert state i.
  induction Hshort as [| c l Hc _ IH]; intros state i; cbn [fold_left fst snd].
  - split; [reflexivity |]. exists []. rewrite app_nil_r. repeat split. constructor.
  - pose proof (@tuning_step_without_success state c i Hc) as Hstep. cbv zeta in Hstep.
    set (next := AutoTune.tuning_step Number_toString tf_fit emigrationData
                   totalCombinations state c i) in *.
    destruct Hstep as (Hmodels & Haccuracy & Hconfig & report & Hreports & Hreport).
    destruct (IH next (S i)) as (IHmodels & more & IHreports & Hlen & Hbest).
    rewrite Haccuracy, Hconfig in Hbest.
    split; [now rewrite IHmodels |].
    exists (report :: more). split; [rewrite IHreports, Hreports, <- app_assoc; reflexivity |].
    split; [cbn [length]; now rewrite Hlen |].
    constructor; [exact Hreport | exact Hbest].
Qed.

End ShortSeries.

(** X16.  When the data hold fewer records than [lookback + 10] for every
    lookback of the search space (fewer than 13 for the space of the
    page), the search still reports every configuration but trains
    nothing: the list of models is empty, no report names a best model
    so far, and the best model of the page stays what it was.  Without
    data the search does not start. *)
Theorem search_on_short_series (Number_toString : number -> string) tf_fit
  (space : AutoTune.search_space) (emigrationData : list EmigrationData)
  (previousBest : option LSTMModel) :
  emigrationData <> [] ->
  (forall lb, In lb (AutoTune.lookbacks space) -> length emigrationData < lb + 10) ->
  (exists result,
     AutoTune.autoTuneModels Number_toString tf_fit space true emigrationData previousBest
     = Some result
     /\ AutoTune.models result = []
     /\ AutoTune.bestModel result = previousBest
     /\ length (AutoTune.progress result) = length (AutoTune.combinations_of space)
     /\ Forall (fun report => AutoTune.bestSoFar report = None) (AutoTune.progress result))
  /\ AutoTune.autoTuneModels Number_toString tf_fit space false emigrationData previousBest
     = None
  /\ AutoTune.autoTuneModels Number_toString tf_fit space true [] previousBest = None.
Proof.
  intros Hdata Hshort. split; [| split; reflexivity].
  unfold AutoTune.autoTuneModels.
  destruct emigrationData as [| r rest] eqn:E; [congruence |]. rewrite <- E in *.
  replace (negb true || (length emigrationData =? 0)) with false
    by (rewrite E; reflexivity).
  eexists. split; [reflexivity |].
  cbn [AutoTune.models AutoTune.bestModel AutoTune.progress].
  unfold AutoTune.tuning_loop, Array_reduce.
  assert (Hall : Forall (fun c => length emigrationData < AutoTune.c_lookback c + 10)
                   (AutoTune.combinations_of space)).
  { apply Forall_forall. intros c Hc. unfold AutoTune.combinations_of in Hc.
    apply in_flat_map in Hc. destruct Hc as (lb & Hlb & Hc).
    apply in_flat_map in Hc. destruct Hc as (neurons & _ & Hc).
    apply in_map_iff in Hc. destruct Hc as (rate & <- & _).
    cbn [AutoTune.c_lookback]. now apply Hshort. }
  destruct (@tuning_without_success Number_toString tf_fit emigrationData
              (length (AutoTune.combinations_of space)) (AutoTune.combinations_of space)
              AutoTune.tuning_start 0 Hall)
    as (Hmodels & more & Hreports & Hlen & Hbest).
  cbn [AutoTune.allModels AutoTune.reports AutoTune.tuning_start app
         AutoTune.bestAccuracy AutoTune.bestConfig] in Hmodels, Hreports, Hbest.
  rewrite Hmodels, Hreports. repeat split; assumption.
Qed.

Lemma search_on_short_series_witness :
  Scenario.data10 <> []
  /\ (forall lb, In lb (AutoTune.lookbacks AutoTune.HYPERPARAMETERS) ->
      length Scenario.data10 < lb + 10)
  /\ exists result,
       AutoTune.autoTuneModels Scenario.decimal Scenario.stub_fit AutoTune.HYPERPARAMETERS true
         Scenario.data10 None
       = Some result
       /\ AutoTune.models result = []
       /\ AutoTune.bestModel result = None
       /\ length (AutoTune.progress result) = 4.
Proof.
  assert (Hdata : Scenario.data10 <> []) by (vm_compute; discriminate).
  assert (Hshort : forall lb, In lb (AutoTune.lookbacks AutoTune.HYPERPARAMETERS) ->
                              length Scenario.data10 < lb + 10).
  { intros lb [<- | []]. vm_compute. lia. }
  split; [exact Hdata |]. split; [exact Hshort |].
  destruct (@search_on_short_series Scenario.decimal Scenario.stub_fit AutoTune.HYPERPARAMETERS
              Scenario.data10 None Hdata Hshort)
    as ((result & Hrun & Hmodels & Hbest & Hlen & _) & _).
  exists result. repeat split; assumption.
Defined.

(** ** The list of models of the manual route *)

Lemma fst_combine_seq {A : Type} (a : list A) (start : nat) :
  map fst (combine a (seq start (length a))) = a.
Proof.
  revert start. induction a as [| x a IH]; intro start; [reflexivity |].
  cbn [length seq combine map fst]. now rewrite IH.
Qed.

Lemma Array_filter_but_one {A : Type} (a : list A) (index : nat) :
  ModelList.Array_filter (fun _ i => negb (i =? index)) a
  = firstn index a ++ skipn (S index) a.
Proof.
  unfold ModelList.Array_filter.
  enough (H : forall start,
             map fst (filter (fun xi : A * nat => negb (snd xi =? start + index))
                        (combine a (seq start (length a))))
             = firstn index a ++ skipn (S index) a) by apply (H 0).
  revert index. induction a as [| x a IH]; intros index start.
  - now rewrite firstn_nil, skipn_nil.
  - cbn [length seq combine filter snd].
    destruct index as [| index].
    + rewrite Nat.add_0_r, Nat.eqb_refl. cbn [negb firstn skipn app].
      rewrite filter_all; [apply fst_combine_seq |].
      apply Forall_forall. intros [y j] Hin. apply in_combine_r in Hin.
      apply in_seq in Hin. cbn [snd].
      destruct (Nat.eqb_spec j start); [lia | reflexivity].
    + destruct (Nat.eqb_spec start (start + S index)); [lia |].
      cbn [negb map fst firstn skipn app]. f_equal.
      replace (start + S index) with (S start + index) by lia. apply IH.
Qed.

Lemma nth_error_without {A : Type} (a : list A) (index j : nat) :
  nth_error (firstn index a ++ skipn (S index) a) j
  = nth_error a (if j <? index then j else S j).
Proof.
  destruct (Nat.ltb_spec j index) as [Hj | Hj].
  - destruct (Nat.le_gt_cases (length a) j) as [Hlen | Hlen].
    + rewrite (proj2 (nth_error_None a j)) by exact Hlen.
      apply nth_error_None. rewrite length_app, length_firstn, length_skipn. lia.
    + rewrite nth_error_app1 by (rewrite length_firstn; lia).
      rewrite nth_error_firstn. destruct (Nat.ltb_spec j index); [reflexivity | lia].
  - destruct (Nat.le_gt_cases (length a) index) as [Hlen | Hlen].
    + rewrite (proj2 (nth_error_None a (S j))) by lia.
      apply nth_error_None. rewrite length_app, length_firstn, length_skipn. lia.
    + rewrite nth_error_app2 by (rewrite length_firstn; lia).
      rewrite length_firstn, nth_error_skipn. f_equal. lia.
Qed.

(** X17.  Deleting the model at [index], once confirmed and released,
    removes that entry and no other: the models before it keep their
    place and the models after it move up by one.  The selection and
    the forecast on display are cleared only when the selected model is
    the deleted one.  A selection further down the list is left as it
    is, so it then designates the model that followed the selected
    one, or no model at all. *)
Theorem deleteModel_removes_one_entry (confirmed : bool)
  (release : LSTMModel -> completion unit) (state state' : ModelList.page) (index : nat) :
  ModelList.deleteModel confirmed release state index = ModelList.Deleted state' ->
  index < length (ModelList.models state)
  /\ ModelList.models state'
     = firstn index (ModelList.models state) ++ skipn (S index) (ModelList.models state)
  /\ length (ModelList.models state') = length (ModelList.models state) - 1
  /\ (forall j,
        nth_error (ModelList.models state') j
        = nth_error (ModelList.models state) (if j <? index then j else S j))
  /\ (ModelList.selectedModelIndex state = Some index ->
      ModelList.selectedModelIndex state' = None /\ ModelList.forecastResults state' = None)
  /\ (ModelList.selectedModelIndex state <> Some index ->
      ModelList.selectedModelIndex state' = ModelList.selectedModelIndex state
      /\ ModelList.forecastResults state' = ModelList.forecastResults state)
  /\ (forall selected,
        ModelList.selectedModelIndex state = Some selected -> index < selected ->
        ModelList.selectedModelIndex state' = Some selected
        /\ nth_error (ModelList.models state') selected
           = nth_error (ModelList.models state) (S selected)).
Proof.
  unfold ModelList.deleteModel. intro Hrun.
  destruct confirmed; [| discriminate Hrun]. cbn [negb] in Hrun.
  destruct (nth_error (ModelList.models state) index) as [modelConfig |] eqn:Hmodel;
    [| discriminate Hrun].
  destruct (release modelConfig); [| discriminate Hrun].
  injection Hrun as <-.
  cbn [ModelList.models ModelList.selectedModelIndex ModelList.forecastResults].
  rewrite Array_filter_but_one.
  assert (Hindex : index < length (ModelList.models state)).
  { apply nth_error_Some. congruence. }
  split; [exact Hindex |]. split; [reflexivity |].
  split; [rewrite length_app, length_firstn, length_skipn; lia |].
  split; [intro j; apply nth_error_without |].
  split; [| split].
  - intros ->. now rewrite Nat.eqb_refl.
  - intro Hother. destruct (ModelList.selectedModelIndex state) as [i |]; [| now split].
    destruct (Nat.eqb_spec i index); [subst; congruence | now split].
  - intros selected -> Hbelow.
    destruct (Nat.eqb_spec selected index); [lia |]. split; [reflexivity |].
    rewrite nth_error_without. destruct (Nat.ltb_spec selected index); [lia | reflexivity].
Qed.

Lemma deleteModel_removes_one_entry_witness :
  exists state',
    ModelList.deleteModel true (fun _ => Normal tt)
      {| ModelList.models :=
           [Scenario.trained_model 1 (Scenario.constant_network 0.1%float) (0%float, 1%float);
            Scenario.trained_model 2 (Scenario.constant_network 0.2%float) (0%float, 1%float);
            Scenario.trained_model 3 (Scenario.constant_network 0.3%float) (0%float, 1%float)];
         ModelList.selectedModelIndex := Some 1;
         ModelList.forecastResults := None |} 0
    = ModelList.Deleted state'
    /\ map lookback (ModelList.models state') = [2; 3]
    /\ ModelList.selectedModelIndex state' = Some 1
    /\ option_map lookback (nth_error (ModelList.models state') 1) = Some 3.
Proof.
  eexists. split; [reflexivity |].
  destruct (@deleteModel_removes_one_entry true (fun _ => Normal tt)
              {| ModelList.models :=
                   [Scenario.trained_model 1 (Scenario.constant_network 0.1%float)
                      (0%float, 1%float);
                    Scenario.trained_model 2 (Scenario.constant_network 0.2%float)
                      (0%float, 1%float);
                    Scenario.trained_model 3 (Scenario.constant_network 0.3%float)
                      (0%float, 1%float)];
                 ModelList.selectedModelIndex := Some 1;
                 ModelList.forecastResults := None |} _ 0 eq_refl)
    as (_ & Hmodels & _ & _ & _ & _ & Hselected).
  split; [rewrite Hmodels; reflexivity |].
  destruct (Hselected 1 eq_refl) as [Hsame Hnext]; [lia |].
  split; [exact Hsame | rewrite Hnext; reflexivity].
Defined.

(** X18.  Editing a cell of the table changes the field of that model
    and nothing else: the other models, and for the edited one the
    metrics, the trained mark and the network stay as they were.  So
    a trained model whose lookback is edited is still forecast from,
    by the network fitted for the former lookback, on windows cut for
    the new one. *)
Theorem updateModel_keeps_training (models models' : list LSTMModel) (index : nat)
  (e : ModelList.edit) :
  ModelList.updateModel models index e = Some models' ->
  exists model model',
    nth_error models index = Some model
    /\ nth_error models' index = Some model'
    /\ model' = ModelList.with_field model e
    /\ (trained model', trainedModel model', mae model', accuracy model',
        normalizationParams model')
       = (trained model, trainedModel model, mae model, accuracy model,
          normalizationParams model)
    /\ length models' = length models
    /\ (forall j, j <> index -> nth_error models' j = nth_error models j)
    /\ (forall value net params emigrationData forecastYears,
          e = ModelList.EditLookback value ->
          trained model = true -> trainedModel model = Some net ->
          normalizationParams model = Some params ->
          Manual.generateForecast models' (Some index) emigrationData forecastYears
          = match forecast_tables net value emigrationData forecastYears with
            | Throw message => Failed message
            | Normal (forecastData, recentHistorical) =>
                Shown {| forecasts := forecastData;
                         historical := recentHistorical;
                         combined := recentHistorical ++ forecastData |}
            end).
Proof.
  unfold ModelList.updateModel. intro Hrun.
  destruct (nth_error models index) as [model |] eqn:Hmodel; [| discriminate Hrun].
  injection Hrun as <-.
  assert (Hnew : nth_error (Manual.replace_at models index (ModelList.with_field model e)) index
                 = Some (ModelList.with_field model e)).
  { rewrite replace_at_nth, Nat.eqb_refl, Hmodel. reflexivity. }
  exists model, (ModelList.with_field model e).
  split; [reflexivity |]. split; [exact Hnew |]. split; [reflexivity |].
  split; [reflexivity |]. split; [apply replace_at_length |]. split.
  - intros j Hj. rewrite replace_at_nth.
    destruct (Nat.eqb_spec j index); [contradiction | reflexivity].
  - intros value net params emigrationData forecastYears -> Htrained Hnet Hparams.
    unfold Manual.generateForecast. rewrite Hnew.
    cbn [ModelList.with_field trained trainedModel normalizationParams lookback].
    now rewrite Htrained, Hnet, Hparams.
Qed.

Lemma updateModel_keeps_training_witness :
  exists models',
    ModelList.updateModel
      [Scenario.trained_model 3 (Scenario.constant_network 0.5%float) (10%float, 35%float)]
      0 (ModelList.EditLookback 7)
    = Some models'
    /\ map lookback models' = [7]
    /\ map trained models' = [true].
Proof.
  eexists. split; [reflexivity |].
  destruct (@updateModel_keeps_training
              [Scenario.trained_model 3 (Scenario.constant_network 0.5%float)
                 (10%float, 35%float)] _ 0 (ModelList.EditLookback 7) eq_refl)
    as (model & model' & _ & _ & _ & _ & _ & _ & _).
  split; reflexivity.
Defined.

Lemma addModel_length (Number_toString : number -> string) (models : list LSTMModel) :
  length (ModelList.addModel Number_toString models) = length models + 1.
Proof. unfold ModelList.addModel. now rewrite length_app. Qed.

(** X19.  Adding a model appends one untrained model with the default
    hyper-parameters and leaves the others alone; selecting it for a
    forecast only gives the alert asking to train it.  Its name is
    made from the number of models at that moment, so names are not
    unique: after two additions, the deletion of an earlier model and
    one more addition, the last two models bear the same name. *)
Theorem addModel_names_by_count (Number_toString : number -> string)
  (models : list LSTMModel) :
  length (ModelList.addModel Number_toString models) = length models + 1
  /\ firstn (length models) (ModelList.addModel Number_toString models) = models
  /\ (exists model,
        nth_error (ModelList.addModel Number_toString models) (length models) = Some model
        /\ modelName model
           = ("Model #" ++ Number_toString (of_nat (length models + 1)))%string
        /\ (lookback model, lstmNeurons model, dropout model) = (3, 50, 0.2%float)
        /\ trained model = false
        /\ forall emigrationData forecastYears,
             Manual.generateForecast (ModelList.addModel Number_toString models)
               (Some (length models)) emigrationData forecastYears
             = Alerted "Please train the model first!")
  /\ (forall index,
        index <= length models ->
        exists earlier later,
          let twice :=
            ModelList.addModel Number_toString (ModelList.addModel Number_toString models) in
          let again :=
            ModelList.addModel Number_toString
              (ModelList.Array_filter (fun _ i => negb (i =? index)) twice) in
          nth_error again (length models) = Some earlier
          /\ nth_error again (length models + 1) = Some later
          /\ modelName earlier = modelName later).
Proof.
  split; [unfold ModelList.addModel; rewrite length_app; reflexivity |].
  split; [unfold ModelList.addModel; rewrite firstn_app, Nat.sub_diag, firstn_all;
          cbn [firstn]; apply app_nil_r |].
  split.
  - eexists. split.
    { unfold ModelList.addModel. rewrite nth_error_app2 by lia.
      rewrite Nat.sub_diag. reflexivity. }
    cbn [modelName lookback lstmNeurons dropout trained].
    repeat split. intros emigrationData forecastYears.
    unfold Manual.generateForecast, ModelList.addModel.
    rewrite nth_error_app2 by lia. rewrite Nat.sub_diag. reflexivity.
  - intros index Hindex. cbv zeta. rewrite Array_filter_but_one.
    unfold ModelList.addModel at 1.
    set (twice := ModelList.addModel Number_toString
                    (ModelList.addModel Number_toString models)).
    assert (Htwice : length twice = length models + 2).
    { unfold twice, ModelList.addModel. rewrite !length_app. cbn [length]. lia. }
    assert (Hkept : length (firstn index twice ++ skipn (S index) twice) = length models + 1).
    { rewrite length_app, length_firstn, length_skipn. lia. }
    rewrite Hkept.
    eexists. eexists. split; [| split].
    + rewrite nth_error_app1 by lia. rewrite nth_error_without.
      destruct (Nat.ltb_spec (length models) index); [lia |].
      unfold twice, ModelList.addModel at 1.
      rewrite nth_error_app2 by (rewrite addModel_length; lia).
      rewrite addModel_length.
      replace (S (length models) - (length models + 1)) with 0 by lia. reflexivity.
    + unfold ModelList.addModel at 1.
      rewrite nth_error_app2 by lia. rewrite Hkept, Nat.sub_diag. reflexivity.
    + reflexivity.
Qed.

(** ** The identifier under which a model is saved *)

Section CleanId.

Variable String_toLowerCase : string -> string.

Let allowed (c : ascii) : Prop :=
  ModelList.is_a_z_0_9 c = true \/ c = ModelList.underscore.

Lemma underscore_outside_class (c : ascii) :
  ModelList.is_a_z_0_9 c = true -> Ascii.eqb c ModelList.underscore = false.
Proof.
  intro H. destruct (Ascii.eqb_spec c ModelList.underscore) as [-> |]; [| reflexivity].
  discriminate H.
Qed.

Lemma replace_runs_allowed (inside : bool) (s : string) :
  Forall allowed (list_ascii_of_string (ModelList.replace_runs inside s)).
Proof.
  revert inside. induction s as [| c s IH]; intro inside; cbn [ModelList.replace_runs].
  - constructor.
  - destruct (ModelList.is_a_z_0_9 c) eqn:Hc.
    + cbn [list_ascii_of_string]. constructor; [now left | apply IH].
    + destruct inside; [apply IH |].
      cbn [list_ascii_of_string]. constructor; [now right | apply IH].
Qed.

Lemma replace_runs_class (inside : bool) (s : string) :
  filter ModelList.is_a_z_0_9 (list_ascii_of_string (ModelList.replace_runs inside s))
  = filter ModelList.is_a_z_0_9 (list_ascii_of_string s).
Proof.
  revert inside. induction s as [| c s IH]; intro inside; cbn [ModelList.replace_runs];
    [reflexivity |].
  cbn [list_ascii_of_string filter].
  destruct (ModelList.is_a_z_0_9 c) eqn:Hc.
  - cbn [list_ascii_of_string filter]. rewrite Hc. f_equal. apply IH.
  - destruct inside; [apply IH |].
    cbn [list_ascii_of_string filter].
    change (ModelList.is_a_z_0_9 ModelList.underscore) with false. cbv iota. apply IH.
Qed.

Lemma replace_runs_spaced (inside : bool) (s : string) :
  Reference.spaced inside (ModelList.replace_runs inside s) = true.
Proof.
  revert inside. induction s as [| c s IH]; intro inside; cbn [ModelList.replace_runs];
    [reflexivity |].
  destruct (ModelList.is_a_z_0_9 c) eqn:Hc.
  - cbn [Reference.spaced]. rewrite (underscore_outside_class c Hc). apply IH.
  - destruct inside; [apply IH |].
    cbn [Reference.spaced]. rewrite Ascii.eqb_refl. cbn [negb andb]. apply IH.
Qed.

Lemma spaced_weaken (s : string) :
  Reference.spaced true s = true -> Reference.spaced false s = true.
Proof.
  destruct s as [| c s]; [reflexivity |]. cbn [Reference.spaced].
  destruct (Ascii.eqb c ModelList.underscore); [discriminate | trivial].
Qed.

Lemma drop_leading_fixed (s : string) :
  Reference.spaced true s = true -> ModelList.drop_leading s = s.
Proof.
  destruct s as [| c s]; [reflexivity |]. cbn [Reference.spaced ModelList.drop_leading].
  destruct (Ascii.eqb c ModelList.underscore); [discriminate | reflexivity].
Qed.

Lemma drop_leading_spaced (s : string) :
  Reference.spaced false s = true -> Reference.spaced true (ModelList.drop_leading s) = true.
Proof.
  destruct s as [| c s]; [reflexivity |]. intro H.
  cbn [ModelList.drop_leading]. cbn [Reference.spaced] in H.
  destruct (Ascii.eqb c ModelList.underscore) eqn:Hc.
  - cbn [negb andb] in H. now rewrite drop_leading_fixed.
  - cbn [Reference.spaced]. now rewrite Hc.
Qed.

Lemma drop_leading_allowed (s : string) :
  Forall allowed (list_ascii_of_string s) ->
  Forall allowed (list_ascii_of_string (ModelList.drop_leading s)).
Proof.
  induction s as [| c s IH]; intro H; [exact H |].
  cbn [ModelList.drop_leading].
  destruct (Ascii.eqb c ModelList.underscore); [| exact H].
  apply IH. cbn [list_ascii_of_string] in H. now inversion H.
Qed.

Lemma drop_leading_class (s : string) :
  filter ModelList.is_a_z_0_9 (list_ascii_of_string (ModelList.drop_leading s))
  = filter ModelList.is_a_z_0_9 (list_ascii_of_string s).
Proof.
  induction s as [| c s IH]; [reflexivity |].
  cbn [ModelList.drop_leading].
  destruct (Ascii.eqb_spec c ModelList.underscore) as [-> |]; [| reflexivity].
  cbn [list_ascii_of_string filter].
  change (ModelList.is_a_z_0_9 ModelList.underscore) with false. exact IH.
Qed.

Lemma drop_trailing_cons (c : ascii) (s : string) :
  ModelList.drop_trailing (String c s)
  = match ModelList.drop_trailing s with
    | EmptyString =>
        if Ascii.eqb c ModelList.underscore then EmptyString else String c EmptyString
    | kept => String c kept
    end.
Proof. reflexivity. Qed.

Lemma drop_trailing_allowed (s : string) :
  Forall allowed (list_ascii_of_string s) ->
  Forall allowed (list_ascii_of_string (ModelList.drop_trailing s)).
Proof.
  induction s as [| c s IH]; intro H; [exact H |].
  cbn [list_ascii_of_string] in H. inversion H as [| ? ? Hc Hs]; subst.
  rewrite drop_trailing_cons. specialize (IH Hs).
  destruct (ModelList.drop_trailing s) as [| d kept].
  - destruct (Ascii.eqb c ModelList.underscore); [constructor |].
    cbn [list_ascii_of_string]. constructor; [exact Hc | constructor].
  - cbn [list_ascii_of_string] in *. constructor; [exact Hc | exact IH].
Qed.

Lemma drop_trailing_class (s : string) :
  filter ModelList.is_a_z_0_9 (list_ascii_of_string (ModelList.drop_trailing s))
  = filter ModelList.is_a_z_0_9 (list_ascii_of_string s).
Proof.
  induction s as [| c s IH]; [reflexivity |].
  rewrite drop_trailing_cons. cbn [list_ascii_of_string filter]. rewrite <- IH.
  destruct (ModelList.drop_trailing s) as [| d kept].
  - destruct (Ascii.eqb_spec c ModelList.underscore) as [-> |]; [reflexivity |].
    reflexivity.
  - reflexivity.
Qed.

Lemma drop_trailing_spaced (preceded : bool) (s : string) :
  Reference.spaced preceded s = true ->
  Reference.spaced preceded (ModelList.drop_trailing s) = true.
Proof.
  revert preceded. induction s as [| c s IH]; intros preceded H; [exact H |].
  rewrite drop_trailing_cons. cbn [Reference.spaced] in H.
  destruct (Ascii.eqb c ModelList.underscore) eqn:Hc.
  - apply andb_prop in H. destruct H as [Hpreceded Hs]. specialize (IH true Hs).
    destruct (ModelList.drop_trailing s) as [| d kept]; [reflexivity |].
    cbn [Reference.spaced]. rewrite Hc, Hpreceded. exact IH.
  - specialize (IH false H).
    destruct (ModelList.drop_trailing s) as [| d kept].
    + cbn [Reference.spaced]. now rewrite Hc.
    + cbn [Reference.spaced]. rewrite Hc. exact IH.
Qed.

Lemma drop_trailing_end (s front : string) :
  ModelList.drop_trailing s <> (front ++ "_")%string.
Proof.
  revert front. induction s as [| c s IH]; intro front.
  - destruct front; discriminate.
  - rewrite drop_trailing_cons.
    destruct (ModelList.drop_trailing s) as [| d kept] eqn:E.
    + destruct (Ascii.eqb_spec c ModelList.underscore) as [-> | Hc].
      * destruct front; discriminate.
      * destruct front as [| f front]; cbn [String.append].
        -- intro H. injection H as H. now apply Hc.
        -- destruct front; discriminate.
    + destruct front as [| f front]; cbn [String.append]; [discriminate |].
      intro H. injection H as _ H. now apply (IH front).
Qed.

Lemma spaced_no_pair (preceded : bool) (front rest : string) :
  Reference.spaced preceded (front ++ "__" ++ rest)%string = false.
Proof.
  revert preceded. induction front as [| c front IH]; intro preceded.
  - cbn. now rewrite andb_false_r.
  - cbn [String.append Reference.spaced].
    destruct (Ascii.eqb c ModelList.underscore); [| apply IH].
    rewrite IH. apply andb_false_r.
Qed.

(** X20.  The identifier under which a model is saved is made of the
    characters [a-z], [0-9] and the underscore only, does not begin or
    end with an underscore and has no two underscores in a row; its
    letters and digits are those of the lower-cased name, in the same
    order.  The name is refused exactly when its lower-cased form has
    no letter and no digit.  (So two names that differ by their case,
    their spaces or their punctuation only are saved under one
    identifier.) *)
Theorem cleanId_is_a_slug (modelName : string) :
  Forall (fun c => ModelList.is_a_z_0_9 c = true \/ c = ModelList.underscore)
    (list_ascii_of_string (ModelList.cleanId String_toLowerCase modelName))
  /\ (forall rest,
        ModelList.cleanId String_toLowerCase modelName <> String ModelList.underscore rest)
  /\ (forall front,
        ModelList.cleanId String_toLowerCase modelName <> (front ++ "_")%string)
  /\ (forall front rest,
        ModelList.cleanId String_toLowerCase modelName <> (front ++ "__" ++ rest)%string)
  /\ filter ModelList.is_a_z_0_9
       (list_ascii_of_string (ModelList.cleanId String_toLowerCase modelName))
     = filter ModelList.is_a_z_0_9 (list_ascii_of_string (String_toLowerCase modelName))
  /\ (ModelList.name_refused String_toLowerCase modelName = true
      <-> filter ModelList.is_a_z_0_9 (list_ascii_of_string (String_toLowerCase modelName))
          = []).
Proof.
  set (lowered := String_toLowerCase modelName).
  assert (Hspaced : Reference.spaced true (ModelList.cleanId String_toLowerCase modelName)
                    = true).
  { unfold ModelList.cleanId. apply drop_trailing_spaced, drop_leading_spaced.
    apply replace_runs_spaced. }
  assert (Hallowed : Forall allowed
                       (list_ascii_of_string
                          (ModelList.cleanId String_toLowerCase modelName))).
  { unfold ModelList.cleanId. apply drop_trailing_allowed, drop_leading_allowed.
    apply replace_runs_allowed. }
  assert (Hclass : filter ModelList.is_a_z_0_9
                     (list_ascii_of_string (ModelList.cleanId String_toLowerCase modelName))
                   = filter ModelList.is_a_z_0_9 (list_ascii_of_string lowered)).
  { unfold ModelList.cleanId.
    rewrite drop_trailing_class, drop_leading_class. apply replace_runs_class. }
  assert (Hstart : forall rest,
             ModelList.cleanId String_toLowerCase modelName
             <> String ModelList.underscore rest).
  { intros rest E. rewrite E in Hspaced. discriminate Hspaced. }
  split; [exact Hallowed |]. split; [exact Hstart |].
  split; [intro front; apply drop_trailing_end |].
  split.
  { intros front rest E. rewrite E, spaced_no_pair in Hspaced. discriminate Hspaced. }
  split; [exact Hclass |].
  unfold ModelList.name_refused. fold lowered. rewrite <- Hclass.
  destruct (ModelList.cleanId String_toLowerCase modelName) as [| c id] eqn:E.
  - split; reflexivity.
  - split; [discriminate |]. intro Hnone. exfalso.
    cbn [list_ascii_of_string filter] in Hnone.
    inversion Hallowed as [| ? ? [Hc | Hc] _]; subst.
    + rewrite Hc in Hnone. discriminate Hnone.
    + now apply (Hstart id).
Qed.

End CleanId.

Example cleanId_of_some_names :
  map (ModelList.cleanId Scenario.lowercase)
    ["Model #1"; "model 1"; "  MODEL--1!"; "L3_N32_D0.1"; "__"; "#!?"; ""]%string
  = ["model_1"; "model_1"; "model_1"; "l3_n32_d0_1"; ""; ""; ""]%string.
Proof. vm_compute. reflexivity. Qed.

(** ** The forecast period of the tuning route *)

Lemma truthy_is_a_number (x : number) : truthy x = true -> is_nan x = false.
Proof.
  unfold truthy. destruct (is_nan x); [discriminate | reflexivity].
Qed.

Section ForecastPeriod.

Local Open Scope float_scope.

Lemma onForecastYearsChange_cases (parsed : number) :
  let chosen := if truthy parsed then parsed else 1%float in
  let raised := if (1 <? chosen)%float then chosen else 1%float in
  is_nan chosen = false
  /\ TuningPage.onForecastYearsChange parsed
     = if (raised <? 10)%float then raised else 10%float.
Proof.
  intros chosen raised.
  assert (Hchosen : is_nan chosen = false).
  { subst chosen. destruct (truthy parsed) eqn:E; [now apply truthy_is_a_number | reflexivity]. }
  split; [exact Hchosen |].
  unfold TuningPage.onForecastYearsChange. fold chosen.
  assert (Hmax : Math_max [1%float; chosen] = raised).
  { unfold Math_max. cbn [Math_max_from].
    change (is_nan 1) with false. cbv iota.
    change (is_PosZero 1 && is_NegZero neg_infinity) with false. cbv iota.
    change (neg_infinity <? 1)%float with true. cbv iota.
    rewrite Hchosen. change (is_NegZero 1) with false. rewrite andb_false_r.
    reflexivity. }
  rewrite Hmax.
  assert (Hraised : is_nan raised = false).
  { subst raised. destruct (1 <? chosen)%float; [exact Hchosen | reflexivity]. }
  unfold Math_min. cbn [Math_min_from].
  change (is_nan 10) with false. cbv iota.
  change (is_NegZero 10 && is_PosZero infinity) with false. cbv iota.
  change (10 <? infinity)%float with true. cbv iota.
  rewrite Hraised. change (is_PosZero 10) with false. rewrite andb_false_r.
  reflexivity.
Qed.

(** X21.  Whatever is typed in the "Forecast Period" field of the tuning
    route, the number of years kept is a number between 1 and 10: it is
    the number read when that lies between 1 and 10, it is 1 when
    nothing could be read ([NaN]) or when 0 was read, and it is 10
    for anything greater. *)
Theorem forecast_period_is_clamped (parsed : number) :
  is_nan (TuningPage.onForecastYearsChange parsed) = false
  /\ (1 <=? TuningPage.onForecastYearsChange parsed)%float = true
  /\ (TuningPage.onForecastYearsChange parsed <=? 10)%float = true
  /\ ((1 <=? parsed)%float = true -> (parsed <=? 10)%float = true ->
      (TuningPage.onForecastYearsChange parsed =? parsed)%float = true)
  /\ (truthy parsed = false -> TuningPage.onForecastYearsChange parsed = 1%float)
  /\ ((10 <? parsed)%float = true -> TuningPage.onForecastYearsChange parsed = 10%float).
Proof.
  destruct (onForecastYearsChange_cases parsed) as [Hchosen ->]. cbv zeta in *.
  assert (Hone : is_nan 1 = false) by reflexivity.
  assert (Hten : is_nan 10 = false) by reflexivity.
  assert (Horder : (Reference.number_rank 1%float < Reference.number_rank 10%float)%Z).
  { apply Z.ltb_lt. rewrite <- ltb_rank by reflexivity. reflexivity. }
  set (chosen := if truthy parsed then parsed else 1%float) in *.
  assert (Hraised : is_nan (if (1 <? chosen)%float then chosen else 1%float) = false).
  { destruct (1 <? chosen)%float; [exact Hchosen | reflexivity]. }
  set (raised := if (1 <? chosen)%float then chosen else 1%float) in *.
  assert (Hresult : is_nan (if (raised <? 10)%float then raised else 10%float) = false).
  { destruct (raised <? 10)%float; [exact Hraised | reflexivity]. }
  assert (Hlow : (Reference.number_rank 1%float <= Reference.number_rank raised)%Z).
  { subst raised. destruct (1 <? chosen)%float eqn:E; [| lia].
    rewrite ltb_rank in E by assumption. apply Z.ltb_lt in E. lia. }
  split; [exact Hresult |]. split; [| split; [| split; [| split]]].
  - rewrite leb_rank by assumption. apply Z.leb_le.
    destruct (raised <? 10)%float; lia.
  - rewrite leb_rank by assumption. apply Z.leb_le.
    destruct (raised <? 10)%float eqn:E; [| lia].
    rewrite ltb_rank in E by assumption. apply Z.ltb_lt in E. lia.
  - intros H1 H10.
    assert (Hparsed : is_nan parsed = false).
    { destruct (is_nan parsed) eqn:E; [| reflexivity].
      apply is_nan_true in E. subst parsed. discriminate H1. }
    assert (Htruthy : truthy parsed = true).
    { unfold truthy. rewrite Hparsed. cbn [orb].
      destruct (is_zero parsed) eqn:E; [| reflexivity].
      rewrite is_zero_Prim2SF in E. rewrite FloatAxioms.leb_spec in H1.
      change (Prim2SF 1) with (S754_finite false 4503599627370496 (-52)) in H1.
      destruct (Prim2SF parsed); try discriminate E. discriminate H1. }
    rewrite leb_rank in H1, H10 by assumption. apply Z.leb_le in H1, H10.
    rewrite eqb_rank by assumption. apply Z.eqb_eq.
    subst raised chosen. rewrite Htruthy in *.
    destruct (1 <? parsed)%float eqn:E1.
    + destruct (parsed <? 10)%float eqn:E2; [reflexivity |].
      rewrite ltb_rank in E2 by assumption. apply Z.ltb_ge in E2. lia.
    + rewrite ltb_rank in E1 by assumption. apply Z.ltb_ge in E1.
      change (1 <? 10)%float with true. cbv iota. lia.
  - intro Hfalsy. subst raised chosen. rewrite Hfalsy. reflexivity.
  - intro Hbig.
    assert (Hparsed : is_nan parsed = false).
    { destruct (is_nan parsed) eqn:E; [| reflexivity].
      apply is_nan_true in E. subst parsed. discriminate Hbig. }
    assert (Htruthy : truthy parsed = true).
    { unfold truthy. rewrite Hparsed. cbn [orb].
      destruct (is_zero parsed) eqn:E; [| reflexivity].
      rewrite is_zero_Prim2SF in E. rewrite FloatAxioms.ltb_spec in Hbig.
      change (Prim2SF 10) with (S754_finite false 5629499534213120 (-49)) in Hbig.
      destruct (Prim2SF parsed); try discriminate E. discriminate Hbig. }
    rewrite ltb_rank in Hbig by assumption. apply Z.ltb_lt in Hbig.
    subst raised chosen. rewrite Htruthy in *.
    destruct (1 <? parsed)%float eqn:E1.
    + destruct (parsed <? 10)%float eqn:E2; [| reflexivity].
      rewrite ltb_rank in E2 by assumption. apply Z.ltb_lt in E2. lia.
    + rewrite ltb_rank in E1 by assumption. apply Z.ltb_ge in E1. lia.
Qed.

End ForecastPeriod.

Example onForecastYearsChange_of_some_inputs :
  map TuningPage.onForecastYearsChange [nan; 0; -3; 1; 5; 10; 11; 2.5; infinity]%float
  = [1; 1; 1; 1; 5; 10; 10; 2.5; 10]%float.
Proof. vm_compute. reflexivity. Qed.

(** ** The cache of the queries *)

Section Maps.

Context {V : Type}.

Lemma Map_get_set (m : Dashboard.JSMap V) (key : string) (value : V) :
  Dashboard.Map_get (Dashboard.Map_set m key value) key = Some value.
Proof.
  induction m as [| [k v] m IH]; cbn [Dashboard.Map_set Dashboard.Map_get].
  - now rewrite String.eqb_refl.
  - destruct (String.eqb k key) eqn:E; cbn [Dashboard.Map_get]; rewrite E; [reflexivity | exact IH].
Qed.

Lemma Map_get_set_other (m : Dashboard.JSMap V) (key other : string) (value : V) :
  other <> key ->
  Dashboard.Map_get (Dashboard.Map_set m key value) other = Dashboard.Map_get m other.
Proof.
  intro Hother. induction m as [| [k v] m IH]; cbn [Dashboard.Map_set Dashboard.Map_get].
  - destruct (String.eqb_spec key other); [congruence | reflexivity].
  - destruct (String.eqb_spec k key) as [-> | Hk]; cbn [Dashboard.Map_get].
    + destruct (String.eqb_spec key other); [congruence | reflexivity].
    + destruct (String.eqb k other); [reflexivity | exact IH].
Qed.

Lemma Map_has_keys (m : Dashboard.JSMap V) (key : string) :
  Dashboard.Map_has m key = true <-> In key (map fst m).
Proof.
  unfold Dashboard.Map_has.
  induction m as [| [k v] m IH]; cbn [Dashboard.Map_get map fst In].
  - split; [discriminate | contradiction].
  - destruct (String.eqb_spec k key) as [-> | Hk].
    + split; [now left | reflexivity].
    + rewrite IH. split; [now right | intros [E | H]; [contradiction | exact H]].
Qed.

Lemma Map_set_new (m : Dashboard.JSMap V) (key : string) (value : V) :
  Dashboard.Map_has m key = false -> Dashboard.Map_set m key value = m ++ [(key, value)].
Proof.
  unfold Dashboard.Map_has.
  induction m as [| [k v] m IH]; cbn [Dashboard.Map_set Dashboard.Map_get app]; [reflexivity |].
  destruct (String.eqb k key); [discriminate |]. intro H. now rewrite IH.
Qed.

Lemma Map_set_keys (m : Dashboard.JSMap V) (key : string) (value : V) :
  map fst (Dashboard.Map_set m key value)
  = if Dashboard.Map_has m key then map fst m else map fst m ++ [key].
Proof.
  unfold Dashboard.Map_has.
  induction m as [| [k v] m IH]; cbn [Dashboard.Map_set Dashboard.Map_get map fst app];
    [reflexivity |].
  destruct (String.eqb k key) eqn:E; [reflexivity |].
  cbn [map fst]. rewrite IH.
  destruct (Dashboard.Map_get m key); reflexivity.
Qed.

Lemma Map_set_Forall (P : string * V -> Prop) (m : Dashboard.JSMap V) (key : string)
  (value : V) :
  Forall P m -> P (key, value) -> Forall P (Dashboard.Map_set m key value).
Proof.
  intros Hm Hnew. induction Hm as [| [k v] m Hk Hrest IH]; cbn [Dashboard.Map_set].
  - constructor; [exact Hnew | constructor].
  - destruct (String.eqb_spec k key) as [-> | Hne].
    + constructor; [exact Hnew | exact Hrest].
    + constructor; [exact Hk | exact IH].
Qed.

Lemma Map_set_NoDup (m : Dashboard.JSMap V) (key : string) (value : V) :
  NoDup (map fst m) -> NoDup (map fst (Dashboard.Map_set m key value)).
Proof.
  intro H. rewrite Map_set_keys.
  destruct (Dashboard.Map_has m key) eqn:E; [exact H |].
  apply NoDup_app; [exact H | repeat constructor; intros [] | ].
  intros k Hk [<- | []].
  apply Map_has_keys in Hk. congruence.
Qed.

End Maps.

Section QueryCache.

Variable document : Type.

Lemma cached_after_store (now later : Z) (c : Dashboard.cache document) (key : string)
  (data : list document) :
  Dashboard.cached later (Dashboard.store now c key data) key
  = if (later - now <? Dashboard.CACHE_DURATION)%Z then Some data else None.
Proof.
  unfold Dashboard.cached, Dashboard.store, Dashboard.Map_has.
  cbn [Dashboard.dataCache Dashboard.cacheTimestamp].
  rewrite !Map_get_set. reflexivity.
Qed.

Lemma cached_elsewhere (now later : Z) (c : Dashboard.cache document) (key other : string)
  (data : list document) :
  other <> key ->
  Dashboard.cached later (Dashboard.store now c key data) other = Dashboard.cached later c other.
Proof.
  intro H. unfold Dashboard.cached, Dashboard.store, Dashboard.Map_has.
  cbn [Dashboard.dataCache Dashboard.cacheTimestamp].
  now rewrite !Map_get_set_other by exact H.
Qed.

(** X22.  When a call of [fetchCachedData] at the time [now] has to
    query the store and the query succeeds, the documents are kept: a
    call for the same collection less than five minutes (300000 ms)
    after [now] returns them without querying, whatever the store
    would answer, and leaves the cache as it is; from five minutes on
    the store is queried again.  The entries of the other collections
    are not touched, a query that fails changes nothing, and the two
    maps keep the same keys. *)
Theorem fetched_documents_are_reused
  (getDocs : string -> completion (list document)) (now : Z)
  (c : Dashboard.cache document) (collectionPath : string) (data : list document) :
  Dashboard.cached now c collectionPath = None ->
  getDocs collectionPath = Normal data ->
  exists c',
    Dashboard.fetchCachedData getDocs now c collectionPath = (Normal data, c')
    /\ (forall later getDocs',
          (later - now < 300000)%Z ->
          Dashboard.fetchCachedData getDocs' later c' collectionPath = (Normal data, c'))
    /\ (forall later getDocs' data',
          (300000 <= later - now)%Z ->
          getDocs' collectionPath = Normal data' ->
          fst (Dashboard.fetchCachedData getDocs' later c' collectionPath) = Normal data')
    /\ (forall later getDocs' message,
          (300000 <= later - now)%Z ->
          getDocs' collectionPath = Throw message ->
          Dashboard.fetchCachedData getDocs' later c' collectionPath = (Throw message, c'))
    /\ (forall later other,
          other <> collectionPath ->
          Dashboard.cached later c' other = Dashboard.cached later c other)
    /\ ((forall key,
           Dashboard.Map_has (Dashboard.dataCache c) key
           = Dashboard.Map_has (Dashboard.cacheTimestamp c) key) ->
        forall key,
          Dashboard.Map_has (Dashboard.dataCache c') key
          = Dashboard.Map_has (Dashboard.cacheTimestamp c') key).
Proof.
  intros Hmiss Hquery. exists (Dashboard.store now c collectionPath data).
  split; [unfold Dashboard.fetchCachedData; now rewrite Hmiss, Hquery |].
  split; [| split; [| split; [| split]]].
  5:{ intros Hsame key. unfold Dashboard.store, Dashboard.Map_has.
      cbn [Dashboard.dataCache Dashboard.cacheTimestamp].
      destruct (String.eqb_spec key collectionPath) as [-> | Hother].
      - now rewrite !Map_get_set.
      - rewrite !Map_get_set_other by exact Hother. apply Hsame. }
  - intros later getDocs' Hfresh. unfold Dashboard.fetchCachedData.
    rewrite cached_after_store.
    destruct (Z.ltb_spec (later - now) Dashboard.CACHE_DURATION) as [_ | Hold];
      [reflexivity |].
    change Dashboard.CACHE_DURATION with 300000%Z in Hold. lia.
  - intros later getDocs' data' Hold Hquery'. unfold Dashboard.fetchCachedData.
    rewrite cached_after_store.
    destruct (Z.ltb_spec (later - now) Dashboard.CACHE_DURATION) as [Hfresh | _].
    { change Dashboard.CACHE_DURATION with 300000%Z in Hfresh. lia. }
    now rewrite Hquery'.
  - intros later getDocs' message Hold Hquery'. unfold Dashboard.fetchCachedData.
    rewrite cached_after_store.
    destruct (Z.ltb_spec (later - now) Dashboard.CACHE_DURATION) as [Hfresh | _].
    { change Dashboard.CACHE_DURATION with 300000%Z in Hfresh. lia. }
    now rewrite Hquery'.
  - intros later other Hother. now apply cached_elsewhere.
Qed.

End QueryCache.

Lemma fetched_documents_are_reused_witness :
  Dashboard.cached 1000 {| Dashboard.dataCache := []; Dashboard.cacheTimestamp := [] |}
    "emigrantData_age" = (None : option (list EmigrationData))
  /\ Scenario.answering Scenario.data10 "emigrantData_age" = Normal Scenario.data10
  /\ exists c',
       Dashboard.fetchCachedData (Scenario.answering Scenario.data10) 1000
         {| Dashboard.dataCache := []; Dashboard.cacheTimestamp := [] |} "emigrantData_age"
       = (Normal Scenario.data10, c')
       /\ Dashboard.fetchCachedData Scenario.offline 300999 c' "emigrantData_age"
          = (Normal Scenario.data10, c')
       /\ Dashboard.fetchCachedData Scenario.offline 301000 c' "emigrantData_age"
          = (Throw "offline", c').
Proof.
  split; [reflexivity |]. split; [reflexivity |].
  destruct (@fetched_documents_are_reused EmigrationData (Scenario.answering Scenario.data10)
              1000 {| Dashboard.dataCache := []; Dashboard.cacheTimestamp := [] |}
              "emigrantData_age" Scenario.data10 eq_refl eq_refl)
    as (c' & Hrun & Hfresh & _ & Hold & _ & _).
  exists c'. split; [exact Hrun |]. split.
  - apply Hfresh. lia.
  - apply Hold; [lia | reflexivity].
Defined.

(** ** The totals behind the charts *)

Section Positive.

Local Open Scope Z_scope.

Lemma add_positive (x y : number) :
  x = 0%float \/ (0 <? x)%float = true ->
  (0 <? y)%float = true ->
  (0 <? x + y)%float = true.
Proof.
  intros Hx Hy.
  assert (Hx' : Prim2SF x = S754_zero false \/ (0 <? x)%float = true).
  { destruct Hx as [-> | Hx]; [now left | now right]. }
  clear Hx. revert Hx' Hy.
  rewrite !FloatAxioms.ltb_spec, FloatAxioms.add_spec.
  change (Prim2SF 0) with (S754_zero false).
  pose proof (Prim2SF_valid x) as Vx. pose proof (Prim2SF_valid y) as Vy.
  destruct (Prim2SF x) as [sx | sx | | sx mx ex];
    destruct (Prim2SF y) as [sy | sy | | sy my ey];
    intros [Hx | Hx] Hy; try discriminate Hx; try discriminate Hy;
    try (destruct sx; try discriminate Hx); try (destruct sy; try discriminate Hy);
    try reflexivity.
  cbn [valid_binary] in Vx, Vy.
  unfold SF64add, SFadd. cbn [cond_Zopp].
  set (ez := Z.min ex ey).
  assert (Hez : SpecFloat.emin prec emax <= ez).
  { pose proof (@bounded_exponent prec emax mx ex Vx) as [Bx _].
    pose proof (@bounded_exponent prec emax my ey Vy) as [By _].
    unfold ez. lia. }
  cbn [Z.add binary_normalize].
  pose proof (@binary_round_positive prec emax eq_refl false
                (fst (shl_align mx ex ez) + fst (shl_align my ey ez)) ez Hez) as H.
  destruct (binary_round prec emax false _ ez) as [s | s | | s m e]; try contradiction;
    subst s; reflexivity.
Qed.

Lemma positive_is_truthy (x : number) : (0 <? x)%float = true -> truthy x = true.
Proof.
  unfold truthy. rewrite FloatAxioms.ltb_spec, is_nan_Prim2SF, is_zero_Prim2SF.
  change (Prim2SF 0) with (S754_zero false).
  destruct (Prim2SF x); try discriminate; reflexivity.
Qed.

Lemma or_zero_of_total (total : option number) :
  match total with
  | Some t => (0 <? t)%float = true
  | None => True
  end ->
  or_zero total = 0%float \/ (0 <? or_zero total)%float = true.
Proof.
  destruct total as [t |]; [| now left].
  intro Ht. right. unfold or_zero, or_else. now rewrite (@positive_is_truthy t Ht).
Qed.

End Positive.

Lemma Map_get_In {V : Type} (m : Dashboard.JSMap V) (key : string) (value : V) :
  Dashboard.Map_get m key = Some value -> In (key, value) m.
Proof.
  induction m as [| [k v] m IH]; cbn [Dashboard.Map_get]; [discriminate |].
  destruct (String.eqb_spec k key) as [-> | Hk].
  - intro H. injection H as ->. now left.
  - intro H. right. now apply IH.
Qed.

Section Aggregation.

Let sound (entry : string * number) : Prop :=
  (0 <? snd entry)%float = true /\ fst entry <> "Year"%string.

Let kept (aggregated : Dashboard.JSMap number) : Prop :=
  Forall sound aggregated /\ NoDup (map fst aggregated).

(** The body of the inner loop, and the counts it adds under a key. *)
Let add_entry (aggregated : Dashboard.JSMap number) (entry : string * value) :
  Dashboard.JSMap number :=
  if String.eqb (fst entry) "Year" then aggregated
  else
    match Dashboard.emigrants_or_null (snd entry) with
    | Some emigrants =>
        if truthy emigrants && (0 <? emigrants)%float
        then Dashboard.Map_set aggregated (fst entry)
               (or_zero (Dashboard.Map_get aggregated (fst entry)) + emigrants)%float
        else aggregated
    | None => aggregated
    end.

Let counts_of_entry (key : string) (entry : string * value) : list number :=
  if String.eqb (fst entry) "Year" then []
  else if String.eqb (fst entry) key
  then match Dashboard.emigrants_or_null (snd entry) with
       | Some emigrants =>
           if truthy emigrants && (0 <? emigrants)%float then [emigrants] else []
       | None => []
       end
  else [].

Let selects (yearFilter : option number) (doc : EmigrationData) : bool :=
  match yearFilter with
  | None => true
  | Some selected => (Year doc =? selected)%float
  end.

(** What the map holds under a key once the counts [counts] have been
    added under it. *)
Let holds (key : string) (aggregated : Dashboard.JSMap number) (counts : list number) : Prop :=
  Dashboard.Map_get aggregated key
  = match counts with
    | [] => None
    | c :: rest => Some (fold_left PrimFloat.add (c :: rest) 0%float)
    end.

Lemma aggregate_entry (aggregated : Dashboard.JSMap number) (entry : string * value) :
  kept aggregated -> kept (add_entry aggregated entry).
Proof.
  intros [Hsound Hkeys]. unfold add_entry.
  destruct (String.eqb_spec (fst entry) "Year") as [| Hkey]; [now split |].
  destruct (Dashboard.emigrants_or_null (snd entry)) as [emigrants |]; [| now split].
  destruct (truthy emigrants && (0 <? emigrants)%float) eqn:E; [| now split].
  apply andb_prop in E. destruct E as [_ Hpositive].
  split; [| now apply Map_set_NoDup].
  apply Map_set_Forall; [exact Hsound |].
  split; [| exact Hkey]. cbn [snd].
  apply add_positive; [| exact Hpositive].
  apply or_zero_of_total.
  destruct (Dashboard.Map_get aggregated (fst entry)) as [t |] eqn:Hget; [| exact I].
  apply Map_get_In in Hget. rewrite Forall_forall in Hsound.
  exact (proj1 (Hsound _ Hget)).
Qed.

Lemma aggregate_entry_holds (key : string) (aggregated : Dashboard.JSMap number)
  (entry : string * value) (counts : list number) :
  kept aggregated -> holds key aggregated counts ->
  holds key (add_entry aggregated entry) (counts ++ counts_of_entry key entry).
Proof.
  intros [Hsound _] Hholds. unfold add_entry, counts_of_entry.
  destruct (String.eqb (fst entry) "Year"); [now rewrite app_nil_r |].
  destruct (Dashboard.emigrants_or_null (snd entry)) as [emigrants |].
  2:{ destruct (String.eqb (fst entry) key); now rewrite app_nil_r. }
  destruct (truthy emigrants && (0 <? emigrants)%float).
  2:{ destruct (String.eqb (fst entry) key); now rewrite app_nil_r. }
  destruct (String.eqb_spec (fst entry) key) as [-> | Hother].
  - unfold holds in *. rewrite Map_get_set.
    destruct counts as [| c counts]; [now rewrite Hholds |].
    rewrite Hholds.
    assert (Hpositive : (0 <? fold_left PrimFloat.add (c :: counts) 0)%float = true).
    { apply Map_get_In in Hholds. rewrite Forall_forall in Hsound.
      exact (proj1 (Hsound _ Hholds)). }
    unfold or_zero, or_else. rewrite (@positive_is_truthy _ Hpositive).
    cbn [app]. f_equal. change (c :: counts ++ [emigrants]) with ((c :: counts) ++ [emigrants]).
    now rewrite fold_left_app.
  - unfold holds in *. rewrite app_nil_r.
    rewrite Map_get_set_other by (intro E; now apply Hother). exact Hholds.
Qed.

Lemma aggregate_entries (key : string) (entries : list (string * value))
  (aggregated : Dashboard.JSMap number) (counts : list number) :
  kept aggregated -> holds key aggregated counts ->
  kept (fold_left add_entry entries aggregated)
  /\ holds key (fold_left add_entry entries aggregated)
       (counts ++ flat_map (counts_of_entry key) entries).
Proof.
  revert aggregated counts.
  induction entries as [| entry entries IH]; intros aggregated counts Hkept Hholds.
  - cbn [fold_left flat_map]. rewrite app_nil_r. now split.
  - cbn [fold_left flat_map]. rewrite app_assoc.
    apply IH; [now apply aggregate_entry | now apply aggregate_entry_holds].
Qed.

Lemma aggregate_documents (key : string) (data : list EmigrationData) (yearFilter : option number)
  (aggregated : Dashboard.JSMap number) (counts : list number) :
  kept aggregated -> holds key aggregated counts ->
  let final :=
    fold_left
      (fun aggregated doc =>
         if selects yearFilter doc
         then fold_left add_entry (Object_entries doc) aggregated
         else aggregated)
      data aggregated in
  kept final
  /\ holds key final
       (counts
        ++ flat_map (fun doc =>
                       if selects yearFilter doc
                       then flat_map (counts_of_entry key) (Object_entries doc)
                       else [])
                    data).
Proof.
  revert aggregated counts.
  induction data as [| doc data IH]; intros aggregated counts Hkept Hholds.
  - cbn [fold_left flat_map]. rewrite app_nil_r. now split.
  - cbn [fold_left flat_map]. rewrite app_assoc.
    destruct (selects yearFilter doc).
    + destruct (@aggregate_entries key (Object_entries doc) aggregated counts Hkept Hholds)
        as [Hkept' Hholds'].
      now apply IH.
    + rewrite app_nil_r. now apply IH.
Qed.

Lemma aggregate_selected (data : list EmigrationData) (selected : number)
  (step : Dashboard.JSMap number -> EmigrationData -> Dashboard.JSMap number)
  (aggregated : Dashboard.JSMap number) :
  fold_left (fun aggregated doc =>
               if (Year doc =? selected)%float then step aggregated doc else aggregated)
            data aggregated
  = fold_left (fun aggregated doc => if true then step aggregated doc else aggregated)
      (filter (fun doc => (Year doc =? selected)%float) data) aggregated.
Proof.
  revert aggregated. induction data as [| doc data IH]; intro aggregated; [reflexivity |].
  cbn [fold_left filter]. destruct (Year doc =? selected)%float; cbn [fold_left]; apply IH.
Qed.

Lemma aggregateData_kept (data : list EmigrationData) (yearFilter : option number) :
  Forall (fun entry => (0 <? snd entry)%float = true /\ fst entry <> "Year"%string)
    (Dashboard.aggregateData data yearFilter)
  /\ NoDup (map fst (Dashboard.aggregateData data yearFilter)).
Proof.
  refine (proj1 (@aggregate_documents EmptyString data yearFilter [] [] _ _)).
  - split; constructor.
  - reflexivity.
Qed.

(** X23.  The totals behind the charts add, for each category, the counts
    that are numbers above zero and only those, in the order of the
    documents: a category with no such count has no entry, and the
    total of the others is the sum of theirs.  So every total is above
    zero, none is kept under the key [Year], and each category has one
    entry.  With a year selected the totals are those of the documents
    of that year alone. *)
Theorem aggregateData_adds_positive_counts (data : list EmigrationData)
  (yearFilter : option number) :
  (forall key,
      Dashboard.Map_get (Dashboard.aggregateData data yearFilter) key
      = match Reference.counts_under key data yearFilter with
        | [] => None
        | c :: rest => Some (fold_left PrimFloat.add (c :: rest) 0%float)
        end)
  /\ Forall (fun entry => (0 <? snd entry)%float = true /\ fst entry <> "Year"%string)
       (Dashboard.aggregateData data yearFilter)
  /\ NoDup (map fst (Dashboard.aggregateData data yearFilter))
  /\ (forall selected,
        Dashboard.aggregateData data (Some selected)
        = Dashboard.aggregateData (filter (fun doc => (Year doc =? selected)%float) data) None).
Proof.
  split.
  { intro key.
    refine (proj2 (@aggregate_documents key data yearFilter [] [] _ _)).
    - split; constructor.
    - reflexivity. }
  destruct (aggregateData_kept data yearFilter) as [Hsound Hkeys].
  split; [exact Hsound |]. split; [exact Hkeys |].
  intro selected. unfold Dashboard.aggregateData.
  apply (aggregate_selected data selected
           (fun aggregated doc => fold_left add_entry (Object_entries doc) aggregated)).
Qed.

End Aggregation.

Example aggregateData_of_a_mixed_year :
  Dashboard.aggregateData [Scenario.mixed_year; Scenario.mixed_year] None
  = [("CANADA"%string, 6%float)]
  /\ extractTimeSeriesData [Scenario.mixed_year; Scenario.mixed_year] = [(-2)%float; (-2)%float].
Proof. split; vm_compute; reflexivity. Qed.

(** ** Rankings *)

Section SortWhereOrdered.

Context {A : Type}.
Variable comparefn : A -> A -> number.
Variable R : A -> Z.
Variable P : A -> Prop.
Hypothesis comparefn_sign_on :
  forall a b, P a -> P b -> (0 <? comparefn a b)%float = (R a <? R b)%Z.

Local Open Scope Z_scope.

Lemma sort_insert_Forall (x : A) (sorted : list A) :
  P x -> Forall P sorted -> Forall P (sort_insert comparefn x sorted).
Proof.
  intros Hx Hsorted.
  eapply Permutation_Forall; [apply Permutation_sym, sort_insert_perm |].
  now constructor.
Qed.

Lemma sort_insert_descending_on (x : A) (sorted : list A) :
  P x -> Forall P sorted ->
  Reference.descending R sorted ->
  Reference.descending R (sort_insert comparefn x sorted).
Proof.
  unfold Reference.descending. intros Hx.
  induction sorted as [| y rest IH]; intros HP H.
  - repeat constructor.
  - apply StronglySorted_inv in H. destruct H as [Hrest Hy].
    inversion HP as [| ? ? Py Prest]; subst.
    cbn [sort_insert]. rewrite comparefn_sign_on by assumption.
    destruct (Z.ltb_spec (R y) (R x)) as [Hlt | Hge].
    + constructor; [constructor; assumption |].
      constructor; [lia |].
      eapply Forall_impl; [| exact Hy]. cbn. intros b Hb. lia.
    + constructor; [now apply IH |].
      rewrite (sort_insert_perm comparefn x rest). constructor; [lia | exact Hy].
Qed.

Lemma sort_from_on (a sorted : list A) :
  Forall P a -> Forall P sorted ->
  Reference.descending R sorted ->
  Reference.descending R (fold_left (fun s x => sort_insert comparefn x s) a sorted)
  /\ Permutation (fold_left (fun s x => sort_insert comparefn x s) a sorted) (sorted ++ a).
Proof.
  revert sorted. induction a as [| x a IH]; intros sorted Ha Hsorted H; cbn [fold_left].
  - rewrite app_nil_r. split; [assumption | reflexivity].
  - inversion Ha as [| ? ? Hx Hrest]; subst.
    destruct (IH (sort_insert comparefn x sorted) Hrest
                (sort_insert_Forall Hx Hsorted)
                (sort_insert_descending_on Hx Hsorted H))
      as (Hdescending & Hperm).
    split; [exact Hdescending |].
    rewrite Hperm, sort_insert_perm. cbn [app]. apply Permutation_middle.
Qed.

Lemma Array_sort_descending_on (a : list A) :
  Forall P a ->
  Reference.descending R (Array_sort comparefn a)
  /\ Permutation (Array_sort comparefn a) a.
Proof.
  intro Ha. apply (sort_from_on (sorted := []) Ha); constructor.
Qed.

End SortWhereOrdered.

Lemma StronglySorted_app {A : Type} (R : A -> A -> Prop) (front back : list A) :
  StronglySorted R (front ++ back) ->
  forall a b, In a front -> In b back -> R a b.
Proof.
  induction front as [| x front IH]; intros H a b Ha Hb; [destruct Ha |].
  cbn [app] in H. apply StronglySorted_inv in H. destruct H as [Hrest Hx].
  destruct Ha as [<- | Ha].
  - rewrite Forall_forall in Hx. apply Hx, in_or_app. now right.
  - now apply IH.
Qed.

Lemma firstn_subset {A : Type} (n : nat) (l : list A) (x : A) :
  In x (firstn n l) -> In x l.
Proof.
  intro H. rewrite <- (firstn_skipn n l). apply in_or_app. now left.
Qed.

Lemma StronglySorted_firstn {A : Type} (R : A -> A -> Prop) (n : nat) (l : list A) :
  StronglySorted R l -> StronglySorted R (firstn n l).
Proof.
  revert l. induction n as [| n IH]; intros l H; [constructor |].
  destruct H as [| x l Hl Hx]; [constructor |].
  cbn [firstn]. constructor; [now apply IH |].
  apply Forall_forall. intros b Hb. rewrite Forall_forall in Hx.
  apply Hx. now apply (firstn_subset n).
Qed.

Lemma StronglySorted_among {A : Type} (R : A -> A -> Prop) (P : A -> Prop) (l : list A) :
  StronglySorted R l -> Forall P l -> StronglySorted (fun a b => R a b /\ P a /\ P b) l.
Proof.
  induction 1 as [| a l Hl IH Ha]; intro HP; [constructor |].
  inversion HP as [| ? ? Pa Pl]; subst.
  constructor; [now apply IH |].
  rewrite Forall_forall in *. intros b Hb. repeat split; auto.
Qed.

Lemma NoDup_keys_filter {K V : Type} (f : K * V -> bool) (l : list (K * V)) :
  NoDup (map fst l) -> NoDup (map fst (filter f l)).
Proof.
  induction l as [| x l IH]; intro H; [constructor |].
  cbn [map] in H. inversion H as [| ? ? Hx Hl]; subst.
  cbn [filter]. destruct (f x); [| now apply IH].
  cbn [map]. constructor; [| now apply IH].
  intro Hin. apply Hx. apply in_map_iff in Hin. destruct Hin as (y & Hy & Hin).
  apply in_map_iff. exists y. split; [exact Hy |]. now apply filter_In in Hin.
Qed.

Lemma NoDup_firstn {A : Type} (n : nat) (l : list A) : NoDup l -> NoDup (firstn n l).
Proof.
  intro H. rewrite <- (firstn_skipn n l) in H. now apply NoDup_app_remove_r in H.
Qed.

Lemma Array_slice_from_start {A : Type} (a : list A) (finish : Z) :
  Array_slice a 0 finish
  = firstn (Z.to_nat (relative_index (Z.of_nat (length a)) finish)) a.
Proof.
  unfold Array_slice.
  assert (H : relative_index (Z.of_nat (length a)) 0 = 0%Z).
  { unfold relative_index. change (0 <? 0)%Z with false. cbv iota. lia. }
  rewrite H, Z.sub_0_r. reflexivity.
Qed.

(** X24.  The destinations of the stacked bars are the destinations of
    greatest total among those that are not excluded: they are listed
    in descending order of their totals, each once, none of them
    excluded, and no destination left out has a greater total than
    one that is listed.  With a limit that is not negative there are
    as many as the limit allows. *)
Theorem topDestinations_are_the_largest (data : list EmigrationData) (yearFilter : option number)
  (excludedCountries : list string) (countryLimit : Z) :
  let destTotals := Dashboard.aggregateData data yearFilter in
  let top := Dashboard.topDestinations destTotals excludedCountries countryLimit in
  StronglySorted (fun a b => (snd b <=? snd a)%float = true) top
  /\ NoDup (map fst top)
  /\ (forall entry,
        In entry top ->
        In entry destTotals /\ Dashboard.includes excludedCountries (fst entry) = false)
  /\ (forall entry other,
        In entry top -> In other destTotals ->
        Dashboard.includes excludedCountries (fst other) = false ->
        ~ In other top ->
        (snd other <=? snd entry)%float = true)
  /\ ((0 <= countryLimit)%Z ->
      length top
      = Nat.min (Z.to_nat countryLimit)
          (length (filter (fun entry => negb (Dashboard.includes excludedCountries (fst entry)))
                     destTotals))).
Proof.
  intros destTotals top.
  destruct (aggregateData_kept data yearFilter) as (Hpositive & Hkeys).
  fold destTotals in Hpositive, Hkeys.
  set (candidates := filter (fun entry => negb (Dashboard.includes excludedCountries (fst entry)))
                       destTotals).
  set (comparefn := fun a b : string * number => (snd b - snd a)%float).
  set (ranking := Array_sort comparefn candidates).
  assert (Hnumbers : Forall (fun entry : string * number => is_nan (snd entry) = false)
                       candidates).
  { apply Forall_forall. intros entry Hin. apply filter_In in Hin. destruct Hin as [Hin _].
    rewrite Forall_forall in Hpositive. destruct (Hpositive entry Hin) as [Hp _].
    apply truthy_is_a_number, positive_is_truthy, Hp. }
  destruct (@Array_sort_descending_on _ comparefn
              (fun entry => Reference.number_rank (snd entry))
              (fun entry => is_nan (snd entry) = false)) with (a := candidates)
    as [Hdescending Hperm]; [| exact Hnumbers |].
  { intros a b Ha Hb. unfold comparefn. rewrite sub_sign by assumption.
    now apply ltb_rank. }
  fold ranking in Hdescending, Hperm.
  assert (Hsorted : StronglySorted (fun a b : string * number => (snd b <=? snd a)%float = true)
                      ranking).
  { eapply StronglySorted_weaken;
      [| apply (StronglySorted_among (P := fun entry : string * number =>
                                            is_nan (snd entry) = false) Hdescending)].
    - cbn. intros a b (Hab & Ha & Hb). rewrite leb_rank by assumption. now apply Z.leb_le.
    - eapply Permutation_Forall; [apply Permutation_sym, Hperm | exact Hnumbers]. }
  assert (Htop : top = firstn (Z.to_nat (relative_index (Z.of_nat (length ranking)) countryLimit))
                         ranking).
  { unfold top, Dashboard.topDestinations. fold candidates comparefn ranking.
    apply Array_slice_from_start. }
  set (n := Z.to_nat (relative_index (Z.of_nat (length ranking)) countryLimit)) in *.
  split; [rewrite Htop; now apply StronglySorted_firstn |].
  split.
  { rewrite Htop, <- firstn_map. apply NoDup_firstn.
    eapply Permutation_NoDup; [apply Permutation_sym, Permutation_map, Hperm |].
    now apply NoDup_keys_filter. }
  split.
  { intros entry Hin. rewrite Htop in Hin. apply firstn_subset in Hin.
    apply (Permutation_in _ Hperm) in Hin. apply filter_In in Hin.
    destruct Hin as [Hin Hkept]. split; [exact Hin |].
    now apply negb_true_iff in Hkept. }
  split.
  { intros entry other Hentry Hother Hkept Hout. rewrite Htop in Hentry, Hout.
    assert (Hranked : In other ranking).
    { apply (Permutation_in _ (Permutation_sym Hperm)). apply filter_In.
      split; [exact Hother | now rewrite Hkept]. }
    rewrite <- (firstn_skipn n ranking) in Hranked, Hsorted.
    apply in_app_or in Hranked. destruct Hranked as [Hin | Hin]; [contradiction |].
    exact (StronglySorted_app _ _ Hsorted entry other Hentry Hin). }
  intro Hlimit. rewrite Htop, length_firstn. subst n.
  rewrite (Permutation_length Hperm). fold candidates.
  unfold relative_index. destruct (Z.ltb_spec countryLimit 0); lia.
Qed.

(** ** The first four destinations *)

Section FirstOfEachCountry.

Let first_of (processed : list Dashboard.destination) (item : Dashboard.destination) : Prop :=
  exists before after,
    processed = before ++ item :: after
    /\ Forall (fun earlier => Dashboard.country earlier <> Dashboard.country item) before.

Lemma unique_countries (items processed : list Dashboard.destination)
  (unique : Dashboard.JSMap Dashboard.destination) :
  NoDup (map fst unique) ->
  Forall (fun entry => fst entry = Dashboard.country (snd entry)
                       /\ first_of processed (snd entry)) unique ->
  Forall (fun item => Dashboard.Map_has unique (Dashboard.country item) = true) processed ->
  let final :=
    fold_left
      (fun unique item =>
         if negb (Dashboard.Map_has unique (Dashboard.country item))
         then Dashboard.Map_set unique (Dashboard.country item) item
         else unique)
      items unique in
  NoDup (map fst final)
  /\ Forall (fun entry => fst entry = Dashboard.country (snd entry)
                          /\ first_of (processed ++ items) (snd entry)) final
  /\ Forall (fun item => Dashboard.Map_has final (Dashboard.country item) = true)
       (processed ++ items).
Proof.
  revert processed unique. induction items as [| x items IH];
    intros processed unique Hkeys Hfirst Hseen; cbn [fold_left].
  - rewrite app_nil_r. repeat split; assumption.
  - replace (processed ++ x :: items) with ((processed ++ [x]) ++ items)
      by (rewrite <- app_assoc; reflexivity).
    assert (Hlater : Forall (fun entry => fst entry = Dashboard.country (snd entry)
                                          /\ first_of (processed ++ [x]) (snd entry)) unique).
    { eapply Forall_impl; [| exact Hfirst]. intros entry [Hkey (before & after & -> & Hb)].
      split; [exact Hkey |]. exists before, (after ++ [x]).
      split; [now rewrite <- app_assoc | exact Hb]. }
    destruct (Dashboard.Map_has unique (Dashboard.country x)) eqn:Hhas; cbn [negb].
    + apply IH; [exact Hkeys | exact Hlater |].
      apply Forall_app. split; [exact Hseen | now constructor].
    + rewrite Map_set_new by exact Hhas.
      apply IH.
      * rewrite map_app. cbn [map fst]. apply NoDup_app; [exact Hkeys | repeat constructor; intros [] |].
        intros k Hk [<- | []]. apply Map_has_keys in Hk. congruence.
      * apply Forall_app. split; [exact Hlater |].
        constructor; [| constructor]. cbn [fst snd]. split; [reflexivity |].
        exists processed, []. split; [reflexivity |].
        eapply Forall_impl; [| exact Hseen]. cbn. intros earlier Hearlier E.
        rewrite E in Hearlier. congruence.
      * apply Forall_app. split.
        -- eapply Forall_impl; [| exact Hseen]. cbn. intros item Hitem.
           apply Map_has_keys. rewrite map_app. apply in_or_app. left.
           now apply Map_has_keys.
        -- constructor; [| constructor]. apply Map_has_keys.
           rewrite map_app. apply in_or_app. right. now left.
Qed.

(** X25.  The four destinations named in the text are distinct countries:
    for each country only its first item is kept, the countries stay
    in the order of their first occurrence, and at most four are
    shown.  A country is missing only when four others come before
    it. *)
Theorem topFour_keeps_first_of_each_country (topDestinations : list Dashboard.destination) :
  length (Dashboard.topFour topDestinations) <= 4
  /\ NoDup (map Dashboard.country (Dashboard.topFour topDestinations))
  /\ (forall item,
        In item (Dashboard.topFour topDestinations) ->
        exists before after,
          topDestinations = before ++ item :: after
          /\ Forall (fun earlier => Dashboard.country earlier <> Dashboard.country item) before)
  /\ (forall item,
        In item topDestinations ->
        In (Dashboard.country item) (map Dashboard.country (Dashboard.topFour topDestinations))
        \/ length (Dashboard.topFour topDestinations) = 4).
Proof.
  unfold Dashboard.topFour.
  destruct (@unique_countries topDestinations [] [] (NoDup_nil _) (Forall_nil _) (Forall_nil _))
    as (Hkeys & Hfirst & Hseen).
  cbn [app] in Hfirst, Hseen. cbv zeta in Hkeys, Hfirst, Hseen.
  set (unique := fold_left
                   (fun (unique : Dashboard.JSMap Dashboard.destination) item =>
                      if negb (Dashboard.Map_has unique (Dashboard.country item))
                      then Dashboard.Map_set unique (Dashboard.country item) item
                      else unique)
                   topDestinations []) in *.
  change 4%Z with (Z.of_nat 4). rewrite Array_slice_prefix.
  assert (Hcountries : map Dashboard.country (map snd unique) = map fst unique).
  { rewrite map_map. apply map_ext_in. intros entry Hin.
    rewrite Forall_forall in Hfirst. symmetry. exact (proj1 (Hfirst entry Hin)). }
  split; [rewrite length_firstn; lia |].
  split; [rewrite <- firstn_map, Hcountries; now apply NoDup_firstn |].
  split.
  - intros item Hin. apply firstn_subset in Hin. apply in_map_iff in Hin.
    destruct Hin as (entry & <- & Hin). rewrite Forall_forall in Hfirst.
    exact (proj2 (Hfirst entry Hin)).
  - intros item Hin. rewrite Forall_forall in Hseen.
    pose proof (Hseen item Hin) as Hhas. apply Map_has_keys in Hhas.
    rewrite <- Hcountries in Hhas.
    destruct (Nat.le_gt_cases (length (map snd unique)) 4) as [Hfew | Hmany].
    + left. now rewrite firstn_all2.
    + right. rewrite length_firstn. lia.
Qed.

End FirstOfEachCountry.

(** ** The best model named while the search runs *)

Section BestSoFar.

Variable Number_toString : number -> string.
Variable tf_fit :
  nat -> nat -> number ->
  list (list number) * list number -> list (list number) * list number ->
  completion network.
Variable emigrationData : list EmigrationData.
Variable totalCombinations : nat.

Local Open Scope Z_scope.

Let key (m : LSTMModel) : Z := Reference.number_rank (or_zero (accuracy m)).

(** What the variables of the loop know of the models kept so far. *)
Let leading (state : AutoTune.tuning) : Prop :=
  is_nan (AutoTune.bestAccuracy state) = false
  /\ Forall (fun m => key m <= Reference.number_rank (AutoTune.bestAccuracy state))
       (AutoTune.allModels state)
  /\ ((0 <? AutoTune.bestAccuracy state)%float = true ->
      exists m,
        In m (AutoTune.allModels state)
        /\ or_zero (accuracy m) = AutoTune.bestAccuracy state
        /\ modelName m = AutoTune.bestConfig state)
  /\ ((0 <? AutoTune.bestAccuracy state)%float = false ->
      AutoTune.bestAccuracy state = 0%float).

Lemma tuning_step_leading (state : AutoTune.tuning) (c : AutoTune.combination) (i : nat) :
  leading state ->
  leading (AutoTune.tuning_step Number_toString tf_fit emigrationData totalCombinations
             state c i).
Proof.
  intros (Hnumber & Hall & Hbest & Hnone). unfold AutoTune.tuning_step.
  destruct (trainSingleModel Number_toString tf_fit emigrationData
              (AutoTune.c_lookback c) (AutoTune.c_neurons c) (AutoTune.c_dropout c)
              (AutoTune.configName_of Number_toString c)) as [model | message] eqn:Htrain.
  2:{ repeat split; assumption. }
  destruct (trainSingleModel_result _ _ _ _ _ _ _ Htrain) as (_ & Hname & _).
  destruct (AutoTune.bestAccuracy state <? or_zero (accuracy model))%float eqn:Hbetter.
  - pose proof Hbetter as Hrank.
    rewrite ltb_rank in Hrank by (exact Hnumber || apply or_zero_is_a_number).
    apply Z.ltb_lt in Hrank.
    unfold leading. cbn [AutoTune.bestAccuracy AutoTune.allModels AutoTune.bestConfig].
    split; [apply or_zero_is_a_number |]. split; [| split].
    + apply Forall_app. split.
      * eapply Forall_impl; [| exact Hall]. cbn. intros m Hm. lia.
      * constructor; [unfold key; lia | constructor].
    + intros _. exists model. split; [apply in_or_app; right; now left |].
      split; [reflexivity | exact Hname].
    + intro Hzero. exfalso.
      rewrite ltb_rank in Hzero by (reflexivity || apply or_zero_is_a_number).
      apply Z.ltb_ge in Hzero.
      destruct (0 <? AutoTune.bestAccuracy state)%float eqn:Hcurrent.
      * rewrite ltb_rank in Hcurrent by (reflexivity || exact Hnumber).
        apply Z.ltb_lt in Hcurrent. lia.
      * rewrite (Hnone eq_refl) in Hrank. lia.
  - pose proof Hbetter as Hrank.
    rewrite ltb_rank in Hrank by (exact Hnumber || apply or_zero_is_a_number).
    apply Z.ltb_ge in Hrank.
    unfold leading. cbn [AutoTune.bestAccuracy AutoTune.allModels AutoTune.bestConfig].
    split; [exact Hnumber |]. split; [| split; [| exact Hnone]].
    + apply Forall_app. split; [exact Hall |]. constructor; [exact Hrank | constructor].
    + intro Hpositive. destruct (Hbest Hpositive) as (m & Hin & Hm).
      exists m. split; [apply in_or_app; now left | exact Hm].
Qed.

Lemma tuning_fold_leading (l : list AutoTune.combination) (state : AutoTune.tuning) (i : nat) :
  leading state ->
  leading (fst (fold_left
                  (fun (st : AutoTune.tuning * nat) c =>
                     (AutoTune.tuning_step Number_toString tf_fit emigrationData
                        totalCombinations (fst st) c (snd st), S (snd st)))
                  l (state, i))).
Proof.
  revert state i. induction l as [| c l IH]; intros state i H; [exact H |].
  cbn [fold_left fst snd]. apply IH. now apply tuning_step_leading.
Qed.

Lemma tuning_step_report (state : AutoTune.tuning) (c : AutoTune.combination) (i : nat) :
  exists report,
    AutoTune.reports
      (AutoTune.tuning_step Number_toString tf_fit emigrationData totalCombinations state c i)
    = AutoTune.reports state ++ [report]
    /\ AutoTune.bestSoFar report
       = if (0 <? AutoTune.bestAccuracy state)%float
         then Some (AutoTune.bestAccuracy state, AutoTune.bestConfig state)
         else None.
Proof.
  unfold AutoTune.tuning_step.
  destruct (trainSingleModel _ _ _ _ _ _ _) as [model | message].
  - destruct (_ <? _)%float; cbn [AutoTune.reports]; eexists; split; reflexivity.
  - cbn [AutoTune.reports]. eexists. split; reflexivity.
Qed.

End BestSoFar.

Lemma fold_left_counter {A B : Type} (f : B -> A -> nat -> B) (a : list A) (init : B)
  (i : nat) :
  snd (fold_left (fun state x => (f (fst state) x (snd state), S (snd state))) a (init, i))
  = i + length a.
Proof.
  revert init i. induction a as [| x a IH]; intros init i; cbn [fold_left snd length].
  - lia.
  - rewrite IH. cbn [snd]. lia.
Qed.

Lemma Array_reduce_snoc {A B : Type} (f : B -> A -> nat -> B) (a : list A) (x : A) (init : B) :
  Array_reduce f (a ++ [x]) init = f (Array_reduce f a init) x (length a).
Proof.
  unfold Array_reduce. rewrite fold_left_app. cbn [fold_left fst].
  now rewrite fold_left_counter.
Qed.

(** X26.  While the search runs, the report made before an attempt names
    as best so far the greatest accuracy of the models trained in the
    earlier attempts, with the name of the first model that reached
    it, provided that accuracy is above zero; otherwise it names none,
    and no earlier model has an accuracy above zero. *)
Theorem progress_names_the_best_so_far (Number_toString : number -> string) tf_fit
  (space : AutoTune.search_space) (dataLoaded : bool)
  (emigrationData : list EmigrationData) (previousBest : option LSTMModel)
  (result : AutoTune.tuned) (j : nat) (report : AutoTune.TuningProgress) :
  AutoTune.autoTuneModels Number_toString tf_fit space dataLoaded emigrationData previousBest
  = Some result ->
  nth_error (AutoTune.progress result) j = Some report ->
  match AutoTune.bestSoFar report with
  | Some (best, config) =>
      (0 <? best)%float = true
      /\ (exists m,
            In m (Reference.successful_models Number_toString tf_fit emigrationData
                    (firstn j (AutoTune.combinations_of space)))
            /\ or_zero (accuracy m) = best
            /\ modelName m = config)
      /\ Forall (fun m => (or_zero (accuracy m) <=? best)%float = true)
           (Reference.successful_models Number_toString tf_fit emigrationData
              (firstn j (AutoTune.combinations_of space)))
  | None =>
      Forall (fun m => (0 <? or_zero (accuracy m))%float = false)
        (Reference.successful_models Number_toString tf_fit emigrationData
           (firstn j (AutoTune.combinations_of space)))
  end.
Proof.
  intros Hrun Hreport.
  destruct (autoTuneModels_result _ _ _ _ _ _ Hrun) as (_ & _ & _ & Hcount & _).
  unfold AutoTune.autoTuneModels in Hrun.
  destruct (negb dataLoaded || (length emigrationData =? 0)); [discriminate Hrun |].
  injection Hrun as <-. cbn [AutoTune.progress] in Hreport, Hcount.
  set (combinations := AutoTune.combinations_of space) in *.
  unfold AutoTune.tuning_loop in Hreport, Hcount.
  assert (Hj : j < length combinations).
  { rewrite <- Hcount. apply nth_error_Some. congruence. }
  set (total := length combinations) in *.
  destruct (nth_error combinations j) as [c |] eqn:Hc;
    [| apply nth_error_None in Hc; lia].
  set (before := Array_reduce
                   (AutoTune.tuning_step Number_toString tf_fit emigrationData total)
                   (firstn j combinations) AutoTune.tuning_start).
  pose proof (tuning_reports_prefix Number_toString tf_fit emigrationData total
                combinations j) as Hprefix.
  pose proof (tuning_reports_prefix Number_toString tf_fit emigrationData total
                combinations (S j)) as Hnext.
  fold before in Hprefix.
  rewrite (firstn_snoc combinations j Hc), Array_reduce_snoc in Hnext. fold before in Hnext.
  destruct (tuning_step_report Number_toString tf_fit emigrationData total before c
              (length (firstn j combinations))) as (made & Hmade & Hbest).
  rewrite Hmade, Hprefix, (firstn_snoc _ j Hreport) in Hnext.
  apply app_inv_head in Hnext. injection Hnext as ->.
  assert (Hleading : is_nan (AutoTune.bestAccuracy before) = false
                     /\ Forall (fun m => (Reference.number_rank (or_zero (accuracy m))
                                          <= Reference.number_rank (AutoTune.bestAccuracy before))%Z)
                          (AutoTune.allModels before)
                     /\ ((0 <? AutoTune.bestAccuracy before)%float = true ->
                         exists m,
                           In m (AutoTune.allModels before)
                           /\ or_zero (accuracy m) = AutoTune.bestAccuracy before
                           /\ modelName m = AutoTune.bestConfig before)
                     /\ ((0 <? AutoTune.bestAccuracy before)%float = false ->
                         AutoTune.bestAccuracy before = 0%float)).
  { apply (@tuning_fold_leading Number_toString tf_fit emigrationData total
             (firstn j combinations) AutoTune.tuning_start 0).
    repeat split; try constructor. intro H. discriminate H. }
  destruct Hleading as (Hnumber & Hall & Hsome & Hnone).
  assert (Hmodels : AutoTune.allModels before
                    = Reference.successful_models Number_toString tf_fit emigrationData
                        (firstn j combinations)).
  { destruct (tuning_fold Number_toString tf_fit emigrationData total
                (firstn j combinations) AutoTune.tuning_start 0) as (H & _).
    exact H. }
  rewrite Hmodels in Hall, Hsome. rewrite Hbest.
  destruct (0 <? AutoTune.bestAccuracy before)%float eqn:Hpositive.
  - split; [exact Hpositive |]. split; [now apply Hsome |].
    eapply Forall_impl; [| exact Hall]. cbn. intros m Hm.
    rewrite leb_rank by (apply or_zero_is_a_number || exact Hnumber). now apply Z.leb_le.
  - rewrite (Hnone eq_refl) in Hall.
    eapply Forall_impl; [| exact Hall]. cbn. intros m Hm.
    rewrite ltb_rank by (reflexivity || apply or_zero_is_a_number). apply Z.ltb_ge. exact Hm.
Qed.

Lemma progress_names_the_best_so_far_witness :
  exists result report,
    AutoTune.autoTuneModels Scenario.decimal Scenario.stub_fit AutoTune.HYPERPARAMETERS true
      Scenario.data20 None
    = Some result
    /\ nth_error (AutoTune.progress result) 3 = Some report
    /\ AutoTune.bestSoFar report = None
    /\ Forall (fun m => (0 <? or_zero (accuracy m))%float = false)
         (Reference.successful_models Scenario.decimal Scenario.stub_fit Scenario.data20
            (firstn 3 (AutoTune.combinations_of AutoTune.HYPERPARAMETERS))).
Proof.
  destruct (AutoTune.autoTuneModels Scenario.decimal Scenario.stub_fit AutoTune.HYPERPARAMETERS
              true Scenario.data20 None) as [result |] eqn:Hrun;
    [| exfalso; vm_compute in Hrun; discriminate Hrun].
  destruct (nth_error (AutoTune.progress result) 3) as [report |] eqn:Hreport.
  2:{ exfalso. vm_compute in Hrun. injection Hrun as <-. discriminate Hreport. }
  exists result, report. split; [reflexivity |]. split; [exact Hreport |].
  pose proof (@progress_names_the_best_so_far _ _ _ _ _ _ _ 3 report Hrun Hreport) as H.
  assert (Hnone : AutoTune.bestSoFar report = None).
  { vm_compute in Hrun. injection Hrun as <-. vm_compute in Hreport.
    injection Hreport as <-. reflexivity. }
  rewrite Hnone in H. split; [exact Hnone | exact H].
Defined.

(** ** Predictions that hit every target *)

Lemma Array_reduce_combine {A B : Type} (f : B -> A -> nat -> B) (a : list A) (init : B) :
  Array_reduce f a init
  = fold_left (fun acc xi => f acc (fst xi) (snd xi)) (combine a (seq 0 (length a))) init.
Proof.
  unfold Array_reduce. generalize 0 as start. revert init.
  induction a as [| x a IH]; intros init start; [reflexivity |].
  cbn [fold_left length seq combine fst snd]. apply IH.
Qed.

Lemma combine_seq_In {A : Type} (a : list A) (x : A) (i : nat) :
  In (x, i) (combine a (seq 0 (length a))) -> nth_error a i = Some x.
Proof.
  intro H. apply In_nth_error in H. destruct H as [k Hk].
  rewrite combine_seq_nth in Hk.
  destruct (nth_error a k) as [y |] eqn:E; [| discriminate Hk].
  cbn in Hk. injection Hk as -> <-. exact E.
Qed.

Section Exact.

Local Open Scope float_scope.

Lemma exact_prediction (a : number) :
  Reference.finite_nonzero a = true ->
  Math_abs (a - a) = 0 /\ accuracy_term a a = 1.
Proof.
  unfold Reference.finite_nonzero. intro H.
  destruct (Prim2SF a) as [s | s | | s m e] eqn:E; try discriminate H.
  assert (Hsub : a - a = 0).
  { apply Prim2SF_inj. rewrite sub_spec, E.
    unfold SF64sub, SFsub. rewrite Z.sub_diag. reflexivity. }
  split; [now rewrite Hsub |].
  unfold accuracy_term. rewrite Hsub. change (Math_abs 0) with 0.
  assert (Hone : 1 - 0 / a = 1).
  { apply Prim2SF_inj. rewrite sub_spec, div_spec, E. reflexivity. }
  rewrite Hone. reflexivity.
Qed.

Lemma sum_of_nothing {A : Type} (g : number -> A -> number) (l : list A) :
  Forall (fun x => forall sum, g sum x = sum + 0) l ->
  fold_left g l 0 = 0.
Proof.
  induction 1 as [| x l Hx _ IH]; [reflexivity |].
  cbn [fold_left]. rewrite Hx. exact IH.
Qed.

Lemma full_marks (n : nat) :
  (1 <= n <= 1000)%nat ->
  0 / of_nat n = 0 /\ fold_left PrimFloat.add (repeat 1 n) 0 / of_nat n * 100 = 100.
Proof.
  intro H.
  assert (Hall : forallb (fun n => Leibniz.eqb (0 / of_nat n) 0
                                   && Leibniz.eqb (fold_left PrimFloat.add (repeat 1 n) 0
                                                   / of_nat n * 100) 100)
                   (seq 1 1000) = true) by (vm_compute; reflexivity).
  rewrite forallb_forall in Hall.
  specialize (Hall n). rewrite in_seq in Hall.
  destruct (andb_prop _ _ (Hall ltac:(lia))) as [H0 H100].
  now apply Leibniz.eqb_spec in H0, H100.
Qed.

End Exact.

(** X27.  Predictions that are equal to the targets get full marks: when
    every target is a finite number other than zero, the mean absolute
    error is 0, every term of the accuracy is 1 and the accuracy is
    100.  (For test sets of 1 to 1000 points, where the average has
    been computed in binary64.) *)
Theorem exact_predictions_score_full (denormActual : list number) :
  1 <= length denormActual <= 1000 ->
  forallb Reference.finite_nonzero denormActual = true ->
  mean_absolute_error denormActual denormActual = 0%float
  /\ percentageErrors denormActual denormActual = repeat 1%float (length denormActual)
  /\ accuracy_percent denormActual denormActual = 100%float.
Proof.
  intros Hlength Hfinite. rewrite forallb_forall in Hfinite.
  destruct (full_marks Hlength) as [Hzero Hfull].
  assert (Hterms : percentageErrors denormActual denormActual
                   = repeat 1%float (length denormActual)).
  { rewrite percentageErrors_pointwise by reflexivity.
    clear Hlength Hzero Hfull.
    induction denormActual as [| a rest IH]; [reflexivity |].
    cbn [combine map length repeat fst snd]. f_equal.
    - apply exact_prediction, Hfinite. now left.
    - apply IH. intros x Hx. apply Hfinite. now right. }
  split; [| split; [exact Hterms |]].
  - unfold mean_absolute_error. rewrite Array_reduce_combine.
    rewrite sum_of_nothing; [exact Hzero |].
    apply Forall_forall. intros [pred i] Hin sum. cbn [fst snd].
    apply combine_seq_In in Hin. rewrite at_index_of_nat.
    erewrite nth_error_nth by exact Hin. f_equal.
    apply exact_prediction, Hfinite. eapply nth_error_In, Hin.
  - unfold accuracy_percent. rewrite Hterms, repeat_length, Array_reduce_fold.
    exact Hfull.
Qed.

Lemma exact_predictions_score_full_witness :
  1 <= length [12; -7; 0.5]%float <= 1000
  /\ forallb Reference.finite_nonzero [12; -7; 0.5]%float = true
  /\ mean_absolute_error [12; -7; 0.5]%float [12; -7; 0.5]%float = 0%float
  /\ accuracy_percent [12; -7; 0.5]%float [12; -7; 0.5]%float = 100%float.
Proof.
  assert (H1 : 1 <= length [12; -7; 0.5]%float <= 1000) by (cbn; lia).
  assert (H2 : forallb Reference.finite_nonzero [12; -7; 0.5]%float = true) by reflexivity.
  split; [exact H1 |]. split; [exact H2 |].
  destruct (@exact_predictions_score_full [12; -7; 0.5]%float H1 H2) as (Hmae & _ & Hacc).
  split; assumption.
Defined.
